(** * Engine-API header pipeline: fork validator, headers stage, finish stage

    A shallow embedding of [turbo/engineapi/fork_validator.go] and of the
    header / finish stage functions of [eth/stagedsync], with the properties
    of the pipeline stated over it.

    Conventions.
    - A [uint64] is a [Z] in [0, 2^64); every subtraction or addition of the
      source is followed by [Uint64], which writes the wrap-around out.
    - A [common.Hash] is a [Z]; the all-zero hash [common.Hash{}] is [0].
    - A Go [map] and a key-value table are [gmap]s.
    - A Go [error] result is an [option Error] ([None] is [nil]); a pair
      [(v, err)] is a [result].
    - A nil-pointer dereference is the outcome [Panics]; a loop of the source
      that has no bound of its own runs on fuel and [OutOfFuel] is the run
      that did not finish. *)

From stdpp Require Import gmap list sorting.
From Stdlib Require Import ZArith Lia.

Local Open Scope Z_scope.

(** ** Common types *)

Module Common.

Abbreviation Hash := Z (only parsing).

Definition zeroHash : Hash := 0.

Definition Uint64 (z : Z) : Z := z mod 2 ^ 64.

(** Modelled from the spec: [math.AbsoluteDifference] is not part of these
    files; the spec writes it [|currentHeight − number|] on unsigned
    numbers. *)
Definition AbsoluteDifference (x y : Z) : Z :=
  if bool_decide (x > y) then x - y else y - x.

Inductive Error :=
| ErrIO (code : Z)
| ErrValidation (code : Z)
| ErrEncode (code : Z)
| ErrHeaderNotFound (number : Z)
| ErrRecoverBody (number : Z) (hash : Hash)
| ErrAncestorNil (height : Z) (hash : Hash)
| ErrTdKeyLength (number : Z) (hash : Hash)
| ErrWrap (context : Z) (inner : Error).

Inductive result (A : Type) :=
| Ok (a : A)
| Err (e : Error).
Arguments Ok {A} a.
Arguments Err {A} e.

Inductive outcome (A : Type) :=
| Done (a : A)
| Panics
| OutOfFuel.
Arguments Done {A} a.
Arguments Panics {A}.
Arguments OutOfFuel {A}.

Abbreviation RawTx := (list Z) (only parsing).

(** [types.Header]: the fields these files read.  [Hash()] is the Keccak
    digest of the encoded header, computed outside these files; the
    embedding carries the digest with the header. *)
Record Header := mkHeader {
  ParentHash : Hash;
  Number : Z;
  Difficulty : Z;
  BaseFee : option Z;
  GasLimit : Z;
  HeaderHash : Hash
}.

Record RawBody := mkRawBody {
  Transactions : list RawTx
}.

(** A decoded transaction, as [rlp.Encode] sees it. *)
Inductive Transaction :=
| EncodableTx (raw : RawTx)
| MalformedTx (e : Error).

Definition rlp_Encode (t : Transaction) : result RawTx :=
  match t with
  | EncodableTx raw => Ok raw
  | MalformedTx e => Err e
  end.

Record Body := mkBody {
  BodyTransactions : list Transaction
}.

Record Block := mkBlock {
  BlockHeader : Header;
  BlockRawBody : RawBody
}.

Definition BlockHash (b : Block) : Hash := HeaderHash (BlockHeader b).

End Common.

Export Common.

(** ** The key-value store and the [rawdb] accessors *)

Module Rawdb.

Inductive Stage := StageHeaders | StageExecution | StageFinish.

Global Instance Stage_eq_dec : EqDecision Stage.
Proof. solve_decision. Defined.

Global Instance Stage_countable : Countable Stage.
Proof.
  refine (inj_countable'
            (fun s => match s with
                      | StageHeaders => 0%nat
                      | StageExecution => 1%nat
                      | StageFinish => 2%nat
                      end)
            (fun n => match n with
                      | O => StageHeaders
                      | S O => StageExecution
                      | _ => StageFinish
                      end) _).
  by intros [].
Defined.

(** Every store operation of the source that returns an [error]. *)
Inductive IoOp :=
| IoReadCanonicalHash (number : Z)
| IoHasBlockBody (number : Z) (hash : Hash)
| IoReadBody (number : Z) (hash : Hash)
| IoReadHeader (number : Z) (hash : Hash)
| IoDecodeHeader (number : Z) (hash : Hash)
| IoDecodeTd (number : Z) (hash : Hash)
| IoTdKey (number : Z) (hash : Hash)
| IoCursorHeaders
| IoCursorHeaderTD
| IoNextHeader (number : Z) (hash : Hash)
| IoNextTd (number : Z) (hash : Hash)
| IoWriteCanonicalHash (number : Z)
| IoWriteHeadHeaderHash
| IoTruncateCanonicalHash
| IoStageProgress (s : Stage)
| IoSaveStageProgress (s : Stage)
| IoSaveUnwind (s : Stage)
| IoSetVersion
| IoFlush
| IoCommit.

(** [kv.RwTx]: the tables of section 6 of the spec, the answers of the store
    to [rawdb.RawTransactionsRange] and [rawdb.ReadBlock] (helpers outside
    these files), and the operations the store refuses. *)
Record Tx := mkTx {
  HeaderCanonical : gmap Z Z;
  HeaderNumber : gmap Z Z;
  Headers : gmap (Z * Z) Header;
  HeaderTD : gmap (Z * Z) Z;
  BlockBody : gmap (Z * Z) Body;
  HeadHeaderKey : Hash;
  HeadBlockKey : Hash;
  ForkchoiceHead : Hash;
  ForkchoiceSafe : Hash;
  ForkchoiceFinalized : Hash;
  SyncStageProgress : gmap Stage Z;
  SyncStageUnwind : gmap Stage Z;
  ErigonVersionFinished : bool;
  RawTransactionsRange : Z -> Z -> result (list RawTx);
  ReadBlock : Hash -> Z -> option Block;
  ioFault : IoOp -> option Error
}.

Definition io {A : Type} (tx : Tx) (op : IoOp) (a : A) : result A :=
  match ioFault tx op with
  | Some e => Err e
  | None => Ok a
  end.

Definition ReadHeaderNumber (tx : Tx) (hash : Hash) : option Z :=
  HeaderNumber tx !! hash.

Definition ReadCanonicalHash (tx : Tx) (number : Z) : result Hash :=
  io tx (IoReadCanonicalHash number)
     (default zeroHash (HeaderCanonical tx !! number)).

(** Modelled from the spec: [rawdb.IsCanonicalHash] is not part of these
    files.  The spec identifies the canonical chain with [CanonicalHash[n]]:
    a hash is canonical when the block number recorded for it is [n] and
    [CanonicalHash[n]] is that hash. *)
Definition IsCanonicalHash (tx : Tx) (hash : Hash) : result bool :=
  match ReadHeaderNumber tx hash with
  | None => Ok false
  | Some number =>
      match ReadCanonicalHash tx number with
      | Err e => Err e
      | Ok canonicalHash =>
          Ok (bool_decide (canonicalHash ≠ zeroHash)
              && bool_decide (canonicalHash = hash))
      end
  end.

Definition ReadHeader (tx : Tx) (hash : Hash) (number : Z) : option Header :=
  Headers tx !! (number, hash).

Definition HasBlockBody (tx : Tx) (number : Z) (hash : Hash) : result bool :=
  io tx (IoHasBlockBody number hash)
     (bool_decide (is_Some (BlockBody tx !! (number, hash)))).

Definition ReadBodyWithTransactions (tx : Tx) (hash : Hash) (number : Z)
  : result (option Body) :=
  io tx (IoReadBody number hash) (BlockBody tx !! (number, hash)).

Definition ReadHeadHeaderHash (tx : Tx) : Hash := HeadHeaderKey tx.

Definition set_HeaderCanonical (tx : Tx) (v : gmap Z Z) : Tx :=
  {| HeaderCanonical := v; HeaderNumber := HeaderNumber tx; Headers :=
     Headers tx; HeaderTD := HeaderTD tx; BlockBody := BlockBody tx;
     HeadHeaderKey := HeadHeaderKey tx; HeadBlockKey := HeadBlockKey tx;
     ForkchoiceHead := ForkchoiceHead tx; ForkchoiceSafe := ForkchoiceSafe
     tx; ForkchoiceFinalized := ForkchoiceFinalized tx; SyncStageProgress
     := SyncStageProgress tx; SyncStageUnwind := SyncStageUnwind tx;
     ErigonVersionFinished := ErigonVersionFinished tx;
     RawTransactionsRange := RawTransactionsRange tx; ReadBlock :=
     ReadBlock tx; ioFault := ioFault tx |}.

Definition set_Headers (tx : Tx) (v : gmap (Z * Z) Header) : Tx :=
  {| HeaderCanonical := HeaderCanonical tx; HeaderNumber := HeaderNumber
     tx; Headers := v; HeaderTD := HeaderTD tx; BlockBody := BlockBody tx;
     HeadHeaderKey := HeadHeaderKey tx; HeadBlockKey := HeadBlockKey tx;
     ForkchoiceHead := ForkchoiceHead tx; ForkchoiceSafe := ForkchoiceSafe
     tx; ForkchoiceFinalized := ForkchoiceFinalized tx; SyncStageProgress
     := SyncStageProgress tx; SyncStageUnwind := SyncStageUnwind tx;
     ErigonVersionFinished := ErigonVersionFinished tx;
     RawTransactionsRange := RawTransactionsRange tx; ReadBlock :=
     ReadBlock tx; ioFault := ioFault tx |}.

Definition set_HeadHeaderKey (tx : Tx) (v : Hash) : Tx :=
  {| HeaderCanonical := HeaderCanonical tx; HeaderNumber := HeaderNumber
     tx; Headers := Headers tx; HeaderTD := HeaderTD tx; BlockBody :=
     BlockBody tx; HeadHeaderKey := v; HeadBlockKey := HeadBlockKey tx;
     ForkchoiceHead := ForkchoiceHead tx; ForkchoiceSafe := ForkchoiceSafe
     tx; ForkchoiceFinalized := ForkchoiceFinalized tx; SyncStageProgress
     := SyncStageProgress tx; SyncStageUnwind := SyncStageUnwind tx;
     ErigonVersionFinished := ErigonVersionFinished tx;
     RawTransactionsRange := RawTransactionsRange tx; ReadBlock :=
     ReadBlock tx; ioFault := ioFault tx |}.

Definition set_HeadBlockKey (tx : Tx) (v : Hash) : Tx :=
  {| HeaderCanonical := HeaderCanonical tx; HeaderNumber := HeaderNumber
     tx; Headers := Headers tx; HeaderTD := HeaderTD tx; BlockBody :=
     BlockBody tx; HeadHeaderKey := HeadHeaderKey tx; HeadBlockKey := v;
     ForkchoiceHead := ForkchoiceHead tx; ForkchoiceSafe := ForkchoiceSafe
     tx; ForkchoiceFinalized := ForkchoiceFinalized tx; SyncStageProgress
     := SyncStageProgress tx; SyncStageUnwind := SyncStageUnwind tx;
     ErigonVersionFinished := ErigonVersionFinished tx;
     RawTransactionsRange := RawTransactionsRange tx; ReadBlock :=
     ReadBlock tx; ioFault := ioFault tx |}.

Definition set_ForkchoiceHead (tx : Tx) (v : Hash) : Tx :=
  {| HeaderCanonical := HeaderCanonical tx; HeaderNumber := HeaderNumber
     tx; Headers := Headers tx; HeaderTD := HeaderTD tx; BlockBody :=
     BlockBody tx; HeadHeaderKey := HeadHeaderKey tx; HeadBlockKey :=
     HeadBlockKey tx; ForkchoiceHead := v; ForkchoiceSafe :=
     ForkchoiceSafe tx; ForkchoiceFinalized := ForkchoiceFinalized tx;
     SyncStageProgress := SyncStageProgress tx; SyncStageUnwind :=
     SyncStageUnwind tx; ErigonVersionFinished := ErigonVersionFinished
     tx; RawTransactionsRange := RawTransactionsRange tx; ReadBlock :=
     ReadBlock tx; ioFault := ioFault tx |}.

Definition set_ForkchoiceSafe (tx : Tx) (v : Hash) : Tx :=
  {| HeaderCanonical := HeaderCanonical tx; HeaderNumber := HeaderNumber
     tx; Headers := Headers tx; HeaderTD := HeaderTD tx; BlockBody :=
     BlockBody tx; HeadHeaderKey := HeadHeaderKey tx; HeadBlockKey :=
     HeadBlockKey tx; ForkchoiceHead := ForkchoiceHead tx; ForkchoiceSafe
     := v; ForkchoiceFinalized := ForkchoiceFinalized tx;
     SyncStageProgress := SyncStageProgress tx; SyncStageUnwind :=
     SyncStageUnwind tx; ErigonVersionFinished := ErigonVersionFinished
     tx; RawTransactionsRange := RawTransactionsRange tx; ReadBlock :=
     ReadBlock tx; ioFault := ioFault tx |}.

Definition set_ForkchoiceFinalized (tx : Tx) (v : Hash) : Tx :=
  {| HeaderCanonical := HeaderCanonical tx; HeaderNumber := HeaderNumber
     tx; Headers := Headers tx; HeaderTD := HeaderTD tx; BlockBody :=
     BlockBody tx; HeadHeaderKey := HeadHeaderKey tx; HeadBlockKey :=
     HeadBlockKey tx; ForkchoiceHead := ForkchoiceHead tx; ForkchoiceSafe
     := ForkchoiceSafe tx; ForkchoiceFinalized := v; SyncStageProgress :=
     SyncStageProgress tx; SyncStageUnwind := SyncStageUnwind tx;
     ErigonVersionFinished := ErigonVersionFinished tx;
     RawTransactionsRange := RawTransactionsRange tx; ReadBlock :=
     ReadBlock tx; ioFault := ioFault tx |}.

Definition set_SyncStageProgress (tx : Tx) (v : gmap Stage Z) : Tx :=
  {| HeaderCanonical := HeaderCanonical tx; HeaderNumber := HeaderNumber
     tx; Headers := Headers tx; HeaderTD := HeaderTD tx; BlockBody :=
     BlockBody tx; HeadHeaderKey := HeadHeaderKey tx; HeadBlockKey :=
     HeadBlockKey tx; ForkchoiceHead := ForkchoiceHead tx; ForkchoiceSafe
     := ForkchoiceSafe tx; ForkchoiceFinalized := ForkchoiceFinalized tx;
     SyncStageProgress := v; SyncStageUnwind := SyncStageUnwind tx;
     ErigonVersionFinished := ErigonVersionFinished tx;
     RawTransactionsRange := RawTransactionsRange tx; ReadBlock :=
     ReadBlock tx; ioFault := ioFault tx |}.

Definition set_SyncStageUnwind (tx : Tx) (v : gmap Stage Z) : Tx :=
  {| HeaderCanonical := HeaderCanonical tx; HeaderNumber := HeaderNumber
     tx; Headers := Headers tx; HeaderTD := HeaderTD tx; BlockBody :=
     BlockBody tx; HeadHeaderKey := HeadHeaderKey tx; HeadBlockKey :=
     HeadBlockKey tx; ForkchoiceHead := ForkchoiceHead tx; ForkchoiceSafe
     := ForkchoiceSafe tx; ForkchoiceFinalized := ForkchoiceFinalized tx;
     SyncStageProgress := SyncStageProgress tx; SyncStageUnwind := v;
     ErigonVersionFinished := ErigonVersionFinished tx;
     RawTransactionsRange := RawTransactionsRange tx; ReadBlock :=
     ReadBlock tx; ioFault := ioFault tx |}.

Definition set_ErigonVersionFinished (tx : Tx) (v : bool) : Tx :=
  {| HeaderCanonical := HeaderCanonical tx; HeaderNumber := HeaderNumber
     tx; Headers := Headers tx; HeaderTD := HeaderTD tx; BlockBody :=
     BlockBody tx; HeadHeaderKey := HeadHeaderKey tx; HeadBlockKey :=
     HeadBlockKey tx; ForkchoiceHead := ForkchoiceHead tx; ForkchoiceSafe
     := ForkchoiceSafe tx; ForkchoiceFinalized := ForkchoiceFinalized tx;
     SyncStageProgress := SyncStageProgress tx; SyncStageUnwind :=
     SyncStageUnwind tx; ErigonVersionFinished := v; RawTransactionsRange
     := RawTransactionsRange tx; ReadBlock := ReadBlock tx; ioFault :=
     ioFault tx |}.

Definition WriteCanonicalHash (tx : Tx) (hash : Hash) (number : Z)
  : result Tx :=
  io tx (IoWriteCanonicalHash number)
     (set_HeaderCanonical tx (<[number := hash]> (HeaderCanonical tx))).

Definition WriteHeadHeaderHash (tx : Tx) (hash : Hash) : result Tx :=
  io tx IoWriteHeadHeaderHash (set_HeadHeaderKey tx hash).

Definition WriteHeadBlockHash (tx : Tx) (hash : Hash) : Tx :=
  set_HeadBlockKey tx hash.

Definition WriteForkchoiceHead (tx : Tx) (hash : Hash) : Tx :=
  set_ForkchoiceHead tx hash.

Definition WriteForkchoiceSafe (tx : Tx) (hash : Hash) : Tx :=
  set_ForkchoiceSafe tx hash.

Definition WriteForkchoiceFinalized (tx : Tx) (hash : Hash) : Tx :=
  set_ForkchoiceFinalized tx hash.

(** Modelled from the spec: [rawdb.TruncateCanonicalHash] is not part of
    these files.  The spec has the unwind truncate the canonical-hash index
    above the unwind point and retain header and total-difficulty rows; the
    call passes the first height to remove and [deleteHeaders = false].
    With [deleteHeaders] the header rows of the removed entries go too. *)
Definition TruncateCanonicalHash (tx : Tx) (blockFrom : Z)
    (deleteHeaders : bool) : result Tx :=
  io tx IoTruncateCanonicalHash
     (let kept := filter (fun kv : Z * Z => kv.1 < blockFrom)
                    (HeaderCanonical tx) in
      let tx' := set_HeaderCanonical tx kept in
      if deleteHeaders
      then set_Headers tx'
             (filter (fun kv : (Z * Z) * Header =>
                        ¬ (blockFrom ≤ kv.1.1
                           ∧ HeaderCanonical tx !! kv.1.1 = Some kv.1.2))
                     (Headers tx))
      else tx').

Definition GetStageProgress (tx : Tx) (s : Stage) : result Z :=
  io tx (IoStageProgress s) (default 0 (SyncStageProgress tx !! s)).

Definition SaveStageProgress (tx : Tx) (s : Stage) (progress : Z)
  : result Tx :=
  io tx (IoSaveStageProgress s)
     (set_SyncStageProgress tx (<[s := progress]> (SyncStageProgress tx))).

Definition SaveStageUnwind (tx : Tx) (s : Stage) (point : Z) : result Tx :=
  io tx (IoSaveUnwind s)
     (set_SyncStageUnwind tx (<[s := point]> (SyncStageUnwind tx))).

Definition SetErigonVersion (tx : Tx) : result Tx :=
  io tx IoSetVersion (set_ErigonVersionFinished tx true).

Definition ReadCurrentBlock (tx : Tx) : option Block :=
  match ReadHeaderNumber tx (HeadBlockKey tx) with
  | None => None
  | Some headNumber => ReadBlock tx (HeadBlockKey tx) headNumber
  end.

(** [kv.RwDB]: the committed store; [BeginRw] may be refused. *)
Record Db := mkDb {
  committed : Tx;
  beginFault : option Error
}.

Definition BeginRw (db : Db) : result Tx :=
  match beginFault db with
  | Some e => Err e
  | None => Ok (committed db)
  end.

Definition Commit (db : Db) (tx : Tx) : result Db :=
  io tx IoCommit {| committed := tx; beginFault := beginFault db |}.

End Rawdb.

Export Rawdb.

(** ** The fork validator ([turbo/engineapi/fork_validator.go]) *)

Module Engineapi.

(** the maximum point from the current head, past which side forks are not
    validated anymore. *)
Definition maxForkDepth : Z := 32.

(** [remote.EngineStatus]; [EngineStatus_VALID] is the zero value of the
    enumeration, which a named result holds until it is assigned. *)
Inductive EngineStatus :=
| EngineStatus_VALID
| EngineStatus_INVALID
| EngineStatus_SYNCING
| EngineStatus_ACCEPTED.

(** [memdb.MemoryMutation]: the transaction the batch is bound to and the
    writes it has captured, as the transformer that replays them on a
    store.  Reads of the batch see the captured writes over the bound
    transaction. *)
Record MemoryMutation := mkMemoryMutation {
  mmTx : Tx;
  mmMem : Tx -> Tx
}.

Definition NewMemoryBatch (tx : Tx) : MemoryMutation :=
  {| mmTx := tx; mmMem := fun base => base |}.

Definition UpdateTxn (m : MemoryMutation) (tx : Tx) : MemoryMutation :=
  {| mmTx := tx; mmMem := mmMem m |}.

Definition mmView (m : MemoryMutation) : Tx := mmMem m (mmTx m).

(** The callback runs on a batch, which it may write to. *)
Definition validatePayloadFunc : Type :=
  MemoryMutation -> Header -> option RawBody -> Z -> list Header ->
  list RawBody -> MemoryMutation * option Error.

(** Fork segment is a side fork segment and represents a full side fork
    block.  Every site that stores a segment stores a non-nil body. *)
Record forkSegment := mkForkSegment {
  header : Header;
  body : RawBody
}.

(** [sideForksBlock]: hash => side fork block; any block saved into this map
    is considered valid, and blocks saved are required to have at most
    distance [maxForkDepth] from the head.  [extendingFork]: current memory
    batch containing chain head that extend canonical fork, and
    [extendingForkHeadHash] the hash of that head.  [validatePayload]: the
    function used to perform payload validation, nil in the mock.
    [currentHeight]: the current point where the chain was processed so
    far. *)
Record ForkValidator := mkForkValidator {
  sideForksBlock : gmap Z forkSegment;
  extendingFork : option MemoryMutation;
  extendingForkHeadHash : Hash;
  validatePayload : option validatePayloadFunc;
  currentHeight : Z
}.

Definition NewForkValidatorMock (currentHeight : Z) : ForkValidator :=
  {| sideForksBlock := ∅; extendingFork := None;
     extendingForkHeadHash := zeroHash; validatePayload := None;
     currentHeight := currentHeight |}.

Definition NewForkValidator (currentHeight : Z)
    (validatePayload : validatePayloadFunc) : ForkValidator :=
  {| sideForksBlock := ∅; extendingFork := None;
     extendingForkHeadHash := zeroHash;
     validatePayload := Some validatePayload;
     currentHeight := currentHeight |}.

Definition set_sideForksBlock (fv : ForkValidator)
    (m : gmap Z forkSegment) : ForkValidator :=
  {| sideForksBlock := m; extendingFork := extendingFork fv;
     extendingForkHeadHash := extendingForkHeadHash fv;
     validatePayload := validatePayload fv;
     currentHeight := currentHeight fv |}.

Definition set_extendingFork (fv : ForkValidator)
    (m : option MemoryMutation) : ForkValidator :=
  {| sideForksBlock := sideForksBlock fv; extendingFork := m;
     extendingForkHeadHash := extendingForkHeadHash fv;
     validatePayload := validatePayload fv;
     currentHeight := currentHeight fv |}.

Definition set_extendingForkHeadHash (fv : ForkValidator)
    (h : Hash) : ForkValidator :=
  {| sideForksBlock := sideForksBlock fv; extendingFork := extendingFork fv;
     extendingForkHeadHash := h;
     validatePayload := validatePayload fv;
     currentHeight := currentHeight fv |}.

Definition set_currentHeight (fv : ForkValidator) (n : Z) : ForkValidator :=
  {| sideForksBlock := sideForksBlock fv; extendingFork := extendingFork fv;
     extendingForkHeadHash := extendingForkHeadHash fv;
     validatePayload := validatePayload fv;
     currentHeight := n |}.

(** Which batch a call acts on: the validator's own extending fork (shared
    with the field, so that what the callback writes is seen through the
    field) or the throw-away batch of a side-fork replay. *)
Inductive Overlay :=
| OnExtendingFork
| OnBatch (batch : MemoryMutation).

Inductive OverlayName := TheExtendingFork | TheBatch.

Definition overlayName (o : Overlay) : OverlayName :=
  match o with
  | OnExtendingFork => TheExtendingFork
  | OnBatch _ => TheBatch
  end.

(** What leaves the validator: calls of the callback, the life cycle of the
    batches, calls on the txpool accumulator, log lines. *)
Inductive Event :=
| EvValidatePayload (on : OverlayName) (header : Header)
    (body : option RawBody) (unwindPoint : Z) (headersChain : list Header)
    (bodiesChain : list RawBody) (err : option Error)
| EvNewMemoryBatch (on : OverlayName)
| EvUpdateTxn
| EvFlush
| EvRollback (on : OverlayName)
| EvAccumulatorReset (viewID : Z)
| EvStartChange (blockHeight : Z) (blockHash : Hash) (txs : list RawTx)
    (unwind : bool)
| EvSendAndReset (pendingBaseFee : Z) (blockGasLimit : Z)
| EvLogInfo
| EvLogWarn (err : Error).

Record PayloadStatus := mkPayloadStatus {
  status : EngineStatus;
  latestValidHash : Hash;
  validationError : option Error;
  criticalError : option Error
}.

Definition ExtendingForkHeadHash (fv : ForkValidator) : Hash :=
  extendingForkHeadHash fv.

(** clean wipes out all outdated sideforks whose distance exceed the height
    of the head. *)
Definition clean (fv : ForkValidator) : ForkValidator :=
  set_sideForksBlock fv
    (filter (fun kv : Z * forkSegment =>
               ¬ (AbsoluteDifference (currentHeight fv)
                    (Uint64 (Number (header kv.2))) > maxForkDepth))
            (sideForksBlock fv)).

Definition clear (fv : ForkValidator) : ForkValidator * list Event :=
  let evs := match extendingFork fv with
             | Some _ => [EvRollback TheExtendingFork]
             | None => []
             end in
  (set_extendingFork (set_extendingForkHeadHash fv zeroHash) None, evs).

(** NotifyCurrentHeight is to be called at the end of the stage cycle and
    represents the last processed block. *)
Definition NotifyCurrentHeight (fv : ForkValidator) (height : Z)
  : ForkValidator * list Event :=
  let fv := set_currentHeight fv height in
  let evs := match extendingFork fv with
             | Some _ => [EvRollback TheExtendingFork]
             | None => []
             end in
  let fv := set_extendingFork fv None in
  (set_extendingForkHeadHash fv zeroHash, evs).

(** FlushExtendingFork flushes the current extending fork into [tx]; a nil
    extending fork is dereferenced by [Flush]. *)
Definition FlushExtendingFork (fv : ForkValidator) (tx : Tx)
  : outcome (option Error * Tx * ForkValidator * list Event) :=
  match extendingFork fv with
  | None => Panics
  | Some m =>
      match ioFault tx IoFlush with
      | Some e => Done (Some e, tx, fv, [EvFlush])
      | None =>
          let fv := set_extendingForkHeadHash fv zeroHash in
          let fv := set_extendingFork fv None in
          Done (None, mmMem m tx, fv, [EvFlush; EvRollback TheExtendingFork])
      end
  end.

Definition deref (fv : ForkValidator) (tx : Overlay) : option MemoryMutation :=
  match tx with
  | OnExtendingFork => extendingFork fv
  | OnBatch batch => Some batch
  end.

Definition assign (fv : ForkValidator) (tx : Overlay) (m : MemoryMutation)
  : ForkValidator :=
  match tx with
  | OnExtendingFork => set_extendingFork fv (Some m)
  | OnBatch _ => fv
  end.

Fixpoint encodeTransactions (txs : list Transaction) (encodedTxs : list RawTx)
  : result (list RawTx) :=
  match txs with
  | [] => Ok encodedTxs
  | t :: rest =>
      match rlp_Encode t with
      | Err e => Err e
      | Ok raw => encodeTransactions rest (encodedTxs ++ [raw])
      end
  end.

Definition storeSegment (fv : ForkValidator) (h : Header) (b : RawBody)
  : ForkValidator :=
  set_sideForksBlock fv
    (<[HeaderHash h := mkForkSegment h b]> (sideForksBlock fv)).

(** validateAndStorePayload validate and store a payload fork chain if such
    chain results valid. *)
Definition validateAndStorePayload (fv : ForkValidator) (tx : Overlay)
    (h : Header) (b : option RawBody) (unwindPoint : Z)
    (headersChain : list Header) (bodiesChain : list RawBody)
  : outcome (PayloadStatus * ForkValidator * list Event) :=
  match validatePayload fv, deref fv tx with
  | Some validate, Some batch =>
      let '(batch, validationError) :=
        validate batch h b unwindPoint headersChain bodiesChain in
      let fv := assign fv tx batch in
      let called := EvValidatePayload (overlayName tx) h b unwindPoint
                      headersChain bodiesChain validationError in
      match validationError with
      | Some e =>
          let rolled := match extendingFork fv with
                        | Some _ => [EvRollback TheExtendingFork]
                        | None => []
                        end in
          let fv := set_extendingFork fv None in
          let fv := set_extendingForkHeadHash fv zeroHash in
          Done (mkPayloadStatus EngineStatus_INVALID (ParentHash h)
                  (Some e) None, fv, called :: rolled)
      | None =>
          match b with
          | None =>
              match ReadBodyWithTransactions (mmView batch) (HeaderHash h)
                      (Uint64 (Number h)) with
              | Err e =>
                  Done (mkPayloadStatus EngineStatus_VALID (HeaderHash h)
                          None (Some e), fv, [called])
              | Ok None =>
                  Done (mkPayloadStatus EngineStatus_VALID (HeaderHash h)
                          None
                          (Some (ErrRecoverBody (Uint64 (Number h))
                                   (HeaderHash h))), fv, [called])
              | Ok (Some bodyWithTxs) =>
                  match encodeTransactions (BodyTransactions bodyWithTxs) []
                  with
                  | Err e =>
                      Done (mkPayloadStatus EngineStatus_VALID (HeaderHash h)
                              None (Some e), fv, [called])
                  | Ok encodedTxs =>
                      Done (mkPayloadStatus EngineStatus_VALID (HeaderHash h)
                              None None,
                            storeSegment fv h (mkRawBody encodedTxs),
                            [called])
                  end
              end
          | Some rawBody =>
              Done (mkPayloadStatus EngineStatus_VALID (HeaderHash h)
                      None None, storeSegment fv h rawBody, [called])
          end
      end
  | _, _ => Panics
  end.

(** How the backward assembly of a side fork ends. *)
Inductive Assembly :=
| AssemblyAccepted
| AssemblyCritical (e : Error)
| AssemblyFound (unwindPoint : Z) (headersChain : list Header)
    (bodiesChain : list RawBody).

(** The loop [for !foundCanonical { ... }] of [ValidatePayload]; one unit of
    fuel per iteration. *)
Fixpoint assembleBackwards (fuel : nat) (cache : gmap Z forkSegment)
    (tx : Tx) (currentHash : Hash) (foundCanonical : bool) (unwindPoint : Z)
    (headersChain : list Header) (bodiesChain : list RawBody)
  : outcome Assembly :=
  if foundCanonical
  then Done (AssemblyFound unwindPoint headersChain bodiesChain)
  else
    match fuel with
    | O => OutOfFuel
    | S fuel =>
        match cache !! currentHash with
        | None => Done AssemblyAccepted
        | Some sb =>
            let headersChain := header sb :: headersChain in
            let bodiesChain := body sb :: bodiesChain in
            match HasBlockBody tx (Uint64 (Number (header sb)))
                    (HeaderHash (header sb)) with
            | Err e => Done (AssemblyCritical e)
            | Ok true => Done AssemblyAccepted
            | Ok false =>
                let currentHash := ParentHash (header sb) in
                match IsCanonicalHash tx currentHash with
                | Err e => Done (AssemblyCritical e)
                | Ok foundCanonical =>
                    assembleBackwards fuel cache tx currentHash
                      foundCanonical
                      (Uint64 (Uint64 (Number (header sb)) - 1))
                      headersChain bodiesChain
                end
            end
        end
    end.

Definition accepted : PayloadStatus :=
  mkPayloadStatus EngineStatus_ACCEPTED zeroHash None None.

Definition critical (e : Error) : PayloadStatus :=
  mkPayloadStatus EngineStatus_VALID zeroHash None (Some e).

(** The body of [ValidatePayload] under the lock, before the deferred
    [clean]. *)
Definition validatePayloadLocked (fuel : nat) (fv : ForkValidator) (tx : Tx)
    (h : Header) (b : option RawBody) (extendCanonical : bool)
  : outcome (PayloadStatus * ForkValidator * list Event) :=
  match sideForksBlock fv !! HeaderHash h with
  | Some _ =>
      Done (mkPayloadStatus EngineStatus_VALID (HeaderHash h) None None,
            fv, [])
  | None =>
      if extendCanonical then
        let '(fv, opened) :=
          match extendingFork fv with
          | None =>
              (set_extendingFork fv (Some (NewMemoryBatch tx)),
               EvNewMemoryBatch TheExtendingFork)
          | Some m =>
              (set_extendingFork fv (Some (UpdateTxn m tx)), EvUpdateTxn)
          end in
        let fv := set_extendingForkHeadHash fv (HeaderHash h) in
        match validateAndStorePayload fv OnExtendingFork h b 0 [] [] with
        | Done (st, fv, evs) => Done (st, fv, opened :: evs)
        | Panics => Panics
        | OutOfFuel => OutOfFuel
        end
      else if bool_decide
                (AbsoluteDifference (currentHeight fv) (Uint64 (Number h))
                 > maxForkDepth)
      then Done (accepted, fv, [])
      else
        match IsCanonicalHash tx (ParentHash h) with
        | Err e => Done (critical e, fv, [])
        | Ok foundCanonical =>
            match assembleBackwards fuel (sideForksBlock fv) tx
                    (ParentHash h) foundCanonical
                    (Uint64 (Uint64 (Number h) - 1)) [] [] with
            | OutOfFuel => OutOfFuel
            | Panics => Panics
            | Done AssemblyAccepted => Done (accepted, fv, [])
            | Done (AssemblyCritical e) => Done (critical e, fv, [])
            | Done (AssemblyFound unwindPoint headersChain bodiesChain) =>
                let unwindPoint :=
                  if bool_decide (unwindPoint = currentHeight fv)
                  then 0 else unwindPoint in
                match validateAndStorePayload fv
                        (OnBatch (NewMemoryBatch tx)) h b unwindPoint
                        headersChain bodiesChain with
                | Done (st, fv, evs) =>
                    Done (st, fv,
                          EvNewMemoryBatch TheBatch :: evs
                          ++ [EvRollback TheBatch])
                | Panics => Panics
                | OutOfFuel => OutOfFuel
                end
            end
        end
  end.

(** ValidatePayload returns whether a payload is valid or invalid, or if
    cannot be determined, it will be accepted. *)
Definition ValidatePayload (fuel : nat) (fv : ForkValidator) (tx : Tx)
    (h : Header) (b : option RawBody) (extendCanonical : bool)
  : outcome (PayloadStatus * ForkValidator * list Event) :=
  match validatePayload fv with
  | None => Done (accepted, fv, [])
  | Some _ =>
      match validatePayloadLocked fuel fv tx h b extendCanonical with
      | Done (st, fv, evs) => Done (st, clean fv, evs)
      | Panics => Panics
      | OutOfFuel => OutOfFuel
      end
  end.

(** TryAddingPoWBlock adds a PoW block to the fork validator if possible;
    the deferred [clean] runs last. *)
Definition TryAddingPoWBlock (fv : ForkValidator) (block : Block)
  : ForkValidator :=
  clean (set_sideForksBlock fv
           (<[BlockHash block :=
                mkForkSegment (BlockHeader block) (BlockRawBody block)]>
              (sideForksBlock fv))).

(** [shards.Accumulator]: the txpool state-change accumulator, an object of
    another package; its calls leave as events. *)
Inductive Accumulator := TxPoolAccumulator.

Definition notifyTxPool (fv : ForkValidator) (to : Z)
  : outcome (option Error * list Event) :=
  match extendingFork fv with
  | None => Panics
  | Some m =>
      match ReadCanonicalHash (mmView m) to with
      | Err e => Done (Some (ErrWrap 1 e), [])
      | Ok hash =>
          match ReadHeader (mmView m) hash to with
          | None => Done (Some (ErrHeaderNotFound to), [])
          | Some hd =>
              match RawTransactionsRange (mmView m) to (Uint64 (to + 1)) with
              | Err e => Done (Some e, [])
              | Ok txs =>
                  match BaseFee hd with
                  | None => Panics
                  | Some baseFee =>
                      Done (None,
                            [EvAccumulatorReset 0;
                             EvStartChange to hash txs true;
                             EvSendAndReset (Uint64 baseFee) (GasLimit hd);
                             EvLogInfo])
                  end
              end
          end
      end
  end.

(** Clear wipes out current extending fork data and notify txpool. *)
Definition ClearWithUnwind (fv : ForkValidator) (tx : Tx)
    (accumulator : option Accumulator)
  : outcome (ForkValidator * list Event) :=
  match extendingFork fv, accumulator,
        sideForksBlock fv !! extendingForkHeadHash fv with
  | Some m, Some _, Some sb =>
      if bool_decide (extendingForkHeadHash fv ≠ zeroHash) then
        let fv := set_extendingFork fv (Some (UpdateTxn m tx)) in
        match notifyTxPool fv (Uint64 (Uint64 (Number (header sb)) - 1)) with
        | Done (err, evs) =>
            let warned := match err with
                          | Some e => [EvLogWarn e]
                          | None => []
                          end in
            let '(fv, cleared) := clear fv in
            Done (fv, EvUpdateTxn :: evs ++ warned
                      ++ [EvRollback TheExtendingFork] ++ cleared)
        | Panics => Panics
        | OutOfFuel => OutOfFuel
        end
      else Done (clear fv)
  | _, _, _ => Done (clear fv)
  end.

End Engineapi.

(** ** The headers and finish stages ([eth/stagedsync]) *)

Module Stagedsync.

Import Engineapi.

Record StageState := mkStageState {
  ID : Stage;
  BlockNumber : Z
}.

Record UnwindState := mkUnwindState {
  UnwindID : Stage;
  UnwindPoint : Z;
  BadBlock : Hash
}.

Definition ExecutionAt (s : StageState) (tx : Tx) : result Z :=
  GetStageProgress tx StageExecution.

Definition Update (s : StageState) (tx : Tx) (newBlockNum : Z) : result Tx :=
  SaveStageProgress tx (ID s) newBlockNum.

Definition UnwindDone (u : UnwindState) (tx : Tx) : result Tx :=
  SaveStageUnwind tx (UnwindID u) 0.

Record ForkChoiceMessage := mkForkChoiceMessage {
  HeadBlockHash : Hash;
  SafeBlockHash : Hash;
  FinalizedBlockHash : Hash
}.

(** [headerdownload.HeaderDownload]: the set of headers reported bad. *)
Record HeaderDownload := mkHeaderDownload {
  badHeaders : gset Z
}.

Definition ReportBadHeader (hd : HeaderDownload) (hash : Hash)
  : HeaderDownload :=
  {| badHeaders := {[hash]} ∪ badHeaders hd |}.

Definition IsBadHeader (hd : HeaderDownload) (hash : Hash) : bool :=
  bool_decide (hash ∈ badHeaders hd).

(** The block reader reads canonical hashes and headers through the
    transaction. *)
Definition CanonicalHash (tx : Tx) (blockHeight : Z) : result Hash :=
  ReadCanonicalHash tx blockHeight.

Definition ReaderHeader (tx : Tx) (hash : Hash) (blockHeight : Z)
  : result (option Header) :=
  io tx (IoReadHeader blockHeight hash) (ReadHeader tx hash blockHeight).

(** writeForkChoiceHashes: the returned transaction is the one passed in
    with the pointers written. *)
Definition writeForkChoiceHashes (forkChoice : ForkChoiceMessage) (tx : Tx)
  : bool * option Error * Tx :=
  let checked (hash : Hash) : result bool :=
    if bool_decide (hash ≠ zeroHash) then IsCanonicalHash tx hash
    else Ok true in
  match checked (SafeBlockHash forkChoice) with
  | Err e => (false, Some e, tx)
  | Ok false => (false, None, tx)
  | Ok true =>
      match checked (FinalizedBlockHash forkChoice) with
      | Err e => (false, Some e, tx)
      | Ok false => (false, None, tx)
      | Ok true =>
          let tx := WriteForkchoiceHead tx (HeadBlockHash forkChoice) in
          let tx := if bool_decide (SafeBlockHash forkChoice ≠ zeroHash)
                    then WriteForkchoiceSafe tx (SafeBlockHash forkChoice)
                    else tx in
          let tx := if bool_decide (FinalizedBlockHash forkChoice ≠ zeroHash)
                    then WriteForkchoiceFinalized tx
                           (FinalizedBlockHash forkChoice)
                    else tx in
          (true, None, tx)
      end
  end.

(** The loop of [fixCanonicalChain]; one unit of fuel per evaluation of the
    loop condition. *)
Fixpoint fixCanonicalLoop (fuel : nat) (tx : Tx) (ancestorHash : Hash)
    (ancestorHeight : Z) : outcome (option Error * Tx) :=
  match fuel with
  | O => OutOfFuel
  | S fuel =>
      match CanonicalHash tx ancestorHeight with
      | Err e => Done (Some (ErrWrap 2 e), tx)
      | Ok ch =>
          if bool_decide (ch ≠ ancestorHash) then
            match WriteCanonicalHash tx ancestorHash ancestorHeight with
            | Err e => Done (Some (ErrWrap 3 e), tx)
            | Ok tx =>
                match ReaderHeader tx ancestorHash ancestorHeight with
                | Err e => Done (Some e, tx)
                | Ok None =>
                    Done (Some (ErrAncestorNil ancestorHeight ancestorHash),
                          tx)
                | Ok (Some ancestor) =>
                    fixCanonicalLoop fuel tx (ParentHash ancestor)
                      (Uint64 (ancestorHeight - 1))
                end
            end
          else Done (None, tx)
      end
  end.

Definition fixCanonicalChain (fuel : nat) (height : Z) (hash : Hash)
    (tx : Tx) : outcome (option Error * Tx) :=
  if bool_decide (height = 0) then Done (None, tx)
  else fixCanonicalLoop fuel tx hash height.

(** Rows of a table keyed by [number ‖ hash], in key order, from the first
    key at or above [from]: what a cursor walks after [Seek]. *)
Definition keyLe {V : Type} (a b : (Z * Z) * V) : Prop :=
  a.1.1 < b.1.1 ∨ (a.1.1 = b.1.1 ∧ a.1.2 ≤ b.1.2).

Global Instance keyLe_dec {V : Type} (a b : (Z * Z) * V)
  : Decision (keyLe a b).
Proof. unfold keyLe. apply _. Defined.

Definition rowsFrom {V : Type} (t : gmap (Z * Z) V) (from : Z)
  : list ((Z * Z) * V) :=
  merge_sort keyLe
    (filter (fun kv : (Z * Z) * V => from ≤ kv.1.1) (map_to_list t)).

(** Mark all descendants of bad block as bad too. *)
Fixpoint markDescendants (tx : Tx) (hd : HeaderDownload)
    (rows : list ((Z * Z) * Header)) : HeaderDownload * option Error :=
  match rows with
  | [] => (hd, None)
  | (k, h) :: rows =>
      match ioFault tx (IoNextHeader k.1 k.2) with
      | Some e => (hd, Some (ErrWrap 4 e))
      | None =>
          match ioFault tx (IoDecodeHeader k.1 k.2) with
          | Some e => (hd, Some e)
          | None =>
              let hd := if IsBadHeader hd (ParentHash h)
                        then ReportBadHeader hd (HeaderHash h) else hd in
              markDescendants tx hd rows
          end
      end
  end.

(** Find header with biggest TD; the rows come last key first. *)
Fixpoint heaviest (tx : Tx) (hd : HeaderDownload)
    (rows : list ((Z * Z) * Z)) (maxTd : Z) (maxHash : Hash) (maxNum : Z)
  : result (Z * Hash * Z) :=
  match rows with
  | [] => Ok (maxTd, maxHash, maxNum)
  | (k, td) :: rows =>
      match ioFault tx (IoNextTd k.1 k.2) with
      | Some e => Err e
      | None =>
          match ioFault tx (IoTdKey k.1 k.2) with
          | Some _ => Err (ErrTdKeyLength k.1 k.2)
          | None =>
              if IsBadHeader hd k.2 then
                heaviest tx hd rows maxTd maxHash maxNum
              else
                match ioFault tx (IoDecodeTd k.1 k.2) with
                | Some e => Err e
                | None =>
                    if bool_decide (td > maxTd)
                    then heaviest tx hd rows td k.2 k.1
                    else heaviest tx hd rows maxTd maxHash maxNum
                end
          end
      end
  end.

Record HeadersCfg := mkHeadersCfg {
  db : Db;
  hd : HeaderDownload
}.

(** What a stage function leaves behind: the error it returns, the caller's
    transaction (when one was passed), the database and the header
    downloader. *)
Record Unwound := mkUnwound {
  unwindErr : option Error;
  unwindTx : option Tx;
  unwindCfg : HeadersCfg
}.

(** The part of [HeadersUnwind] that runs on the transaction. *)
Definition headersUnwindTx (u : UnwindState) (s : StageState) (tx : Tx)
    (hd : HeaderDownload) (test : bool)
  : option Error * Tx * HeaderDownload :=
  let badBlock := bool_decide (BadBlock u ≠ zeroHash) in
  let '(hd, marked) :=
    if badBlock then
      let hd := ReportBadHeader hd (BadBlock u) in
      match ioFault tx IoCursorHeaders with
      | Some e => (hd, Some e)
      | None =>
          markDescendants tx hd
            (rowsFrom (Headers tx) (Uint64 (UnwindPoint u + 1)))
      end
    else (hd, None) in
  match marked with
  | Some e => (Some e, tx, hd)
  | None =>
      match TruncateCanonicalHash tx (Uint64 (UnwindPoint u + 1)) false with
      | Err e => (Some e, tx, hd)
      | Ok tx =>
          if badBlock then
            let found :=
              if test then
                match ioFault tx IoCursorHeaderTD with
                | Some e => Err e
                | None =>
                    heaviest tx hd (reverse (rowsFrom (HeaderTD tx) 0))
                      0 zeroHash 0
                end
              else Ok (0, zeroHash, 0) in
            match found with
            | Err e => (Some e, tx, hd)
            | Ok (_, maxHash, maxNum) =>
                let chosen :=
                  if bool_decide (maxNum = 0) then
                    match ReadCanonicalHash tx (UnwindPoint u) with
                    | Err e => Err e
                    | Ok h => Ok (h, UnwindPoint u)
                    end
                  else Ok (maxHash, maxNum) in
                match chosen with
                | Err e => (Some e, tx, hd)
                | Ok (maxHash, maxNum) =>
                    match WriteHeadHeaderHash tx maxHash with
                    | Err e => (Some e, tx, hd)
                    | Ok tx =>
                        match UnwindDone u tx with
                        | Err e => (Some e, tx, hd)
                        | Ok tx =>
                            match Update s tx maxNum with
                            | Err e => (Some e, tx, hd)
                            | Ok tx => (None, tx, hd)
                            end
                        end
                    end
                end
            end
          else (None, tx, hd)
      end
  end.

Definition HeadersUnwind (u : UnwindState) (s : StageState) (tx : option Tx)
    (cfg : HeadersCfg) (test : bool) : Unwound :=
  match tx with
  | Some tx =>
      let '(err, tx, hd') := headersUnwindTx u s tx (hd cfg) test in
      mkUnwound err (Some tx) (mkHeadersCfg (db cfg) hd')
  | None =>
      match BeginRw (db cfg) with
      | Err e => mkUnwound (Some e) None cfg
      | Ok tx =>
          let '(err, tx, hd') := headersUnwindTx u s tx (hd cfg) test in
          match err with
          | Some e => mkUnwound (Some e) None (mkHeadersCfg (db cfg) hd')
          | None =>
              match Commit (db cfg) tx with
              | Err e => mkUnwound (Some e) None (mkHeadersCfg (db cfg) hd')
              | Ok db' => mkUnwound None None (mkHeadersCfg db' hd')
              end
          end
      end
  end.

(** [chan *types.Block]: a buffer of bounded capacity; a [select] with a
    [default] branch sends only when the buffer has room. *)
Record Chan := mkChan {
  capacity : nat;
  buffer : list Block
}.

Definition trySend (ch : Chan) (b : Block) : Chan :=
  if bool_decide (length (buffer ch) < capacity ch)%nat
  then {| capacity := capacity ch; buffer := buffer ch ++ [b] |}
  else ch.

Record FinishCfg := mkFinishCfg {
  finishDb : Db;
  headCh : option Chan;
  forkValidator : option ForkValidator
}.

(** The steps of [FinishForward] that act on something. *)
Inductive FinishStep :=
| StepWriteHeadBlockHash (hash : Hash)
| StepUpdate (progress : Z)
| StepNotifyCurrentHeight (height : Z)
| StepSetErigonVersion
| StepPublish (block : Block)
| StepCommit.

Record Finished := mkFinished {
  finishErr : option Error;
  finishTx : option Tx;
  finishCfg : FinishCfg;
  finishSteps : list FinishStep
}.

(** How the part of [FinishForward] between opening and committing the
    transaction ends: by a [return], or by reaching the commit. *)
Inductive Flow :=
| Returned (err : option Error)
| ReachedCommit.

(** The part of [FinishForward] that runs on the transaction. *)
Definition finishForwardTx (s : StageState) (tx : Tx) (cfg : FinishCfg)
    (initialCycle : bool)
  : outcome (Flow * Tx * FinishCfg * list FinishStep) :=
  match ExecutionAt s tx with
  | Err e => Done (Returned (Some e), tx, cfg, [])
  | Ok executionAt =>
      if bool_decide (executionAt ≤ BlockNumber s) then
        Done (Returned None, tx, cfg, [])
      else
        let head := ReadHeadHeaderHash tx in
        let tx := WriteHeadBlockHash tx head in
        let steps := [StepWriteHeadBlockHash head] in
        match Update s tx executionAt with
        | Err e => Done (Returned (Some e), tx, cfg, steps)
        | Ok tx =>
            let steps := steps ++ [StepUpdate executionAt] in
            let '(cfg, steps) :=
              match forkValidator cfg with
              | Some fv =>
                  (mkFinishCfg (finishDb cfg) (headCh cfg)
                     (Some (NotifyCurrentHeight fv executionAt).1),
                   steps ++ [StepNotifyCurrentHeight executionAt])
              | None => (cfg, steps)
              end in
            let versioned :=
              if initialCycle then
                match SetErigonVersion tx with
                | Err e => Err e
                | Ok tx => Ok (tx, steps ++ [StepSetErigonVersion])
                end
              else Ok (tx, steps) in
            match versioned with
            | Err e => Done (Returned (Some e), tx, cfg, steps)
            | Ok (tx, steps) =>
                match ReadCurrentBlock tx with
                | None => Panics
                | Some block =>
                    match headCh cfg with
                    | Some ch =>
                        Done (ReachedCommit, tx,
                              mkFinishCfg (finishDb cfg)
                                (Some (trySend ch block))
                                (forkValidator cfg),
                              steps ++ [StepPublish block])
                    | None => Done (ReachedCommit, tx, cfg, steps)
                    end
                end
            end
        end
  end.

Definition FinishForward (s : StageState) (tx : option Tx) (cfg : FinishCfg)
    (initialCycle : bool) : outcome Finished :=
  match tx with
  | Some tx =>
      match finishForwardTx s tx cfg initialCycle with
      | Done (Returned err, tx, cfg, steps) =>
          Done (mkFinished err (Some tx) cfg steps)
      | Done (ReachedCommit, tx, cfg, steps) =>
          Done (mkFinished None (Some tx) cfg steps)
      | Panics => Panics
      | OutOfFuel => OutOfFuel
      end
  | None =>
      match BeginRw (finishDb cfg) with
      | Err e => Done (mkFinished (Some e) None cfg [])
      | Ok tx =>
          match finishForwardTx s tx cfg initialCycle with
          | Done (Returned err, _, cfg, steps) =>
              Done (mkFinished err None cfg steps)
          | Done (ReachedCommit, tx, cfg, steps) =>
              match Commit (finishDb cfg) tx with
              | Err e => Done (mkFinished (Some e) None cfg steps)
              | Ok db' =>
                  Done (mkFinished None None
                          (mkFinishCfg db' (headCh cfg) (forkValidator cfg))
                          (steps ++ [StepCommit]))
              end
          | Panics => Panics
          | OutOfFuel => OutOfFuel
          end
      end
  end.

End Stagedsync.

(** ** Sample chains

    A canonical chain up to [A@100] and a side fork [X@99 <- Y@100 <- Z@101]
    branching off the canonical block at height 98. *)

Module Scenario.

Import Engineapi Stagedsync.

Definition noFault : IoOp -> option Error := fun _ => None.

Definition emptyTx : Tx :=
  {| HeaderCanonical := ∅; HeaderNumber := ∅; Headers := ∅; HeaderTD := ∅;
     BlockBody := ∅; HeadHeaderKey := zeroHash; HeadBlockKey := zeroHash;
     ForkchoiceHead := zeroHash; ForkchoiceSafe := zeroHash;
     ForkchoiceFinalized := zeroHash; SyncStageProgress := ∅;
     SyncStageUnwind := ∅; ErigonVersionFinished := false;
     RawTransactionsRange := fun _ _ => Ok [];
     ReadBlock := fun _ _ => None;
     ioFault := noFault |}.

Definition header98 : Header := mkHeader 970 98 0 (Some 7) 30000000 980.
Definition header99 : Header := mkHeader 980 99 0 (Some 7) 30000000 990.
Definition headerA : Header := mkHeader 990 100 0 (Some 7) 30000000 1000.
Definition headerB : Header := mkHeader 1000 101 0 (Some 7) 30000000 1010.
Definition headerX : Header := mkHeader 980 99 0 (Some 7) 30000000 2099.
Definition headerY : Header := mkHeader 2099 100 0 (Some 7) 30000000 2100.
Definition headerZ : Header := mkHeader 2100 101 0 (Some 7) 30000000 2101.

Definition someBody : RawBody := mkRawBody [[1; 2]; [3]].

Definition chainTx : Tx :=
  {| HeaderCanonical := {[ 98 := 980; 99 := 990; 100 := 1000 ]};
     HeaderNumber := {[ 980 := 98; 990 := 99; 1000 := 100 ]};
     Headers := {[ (98, 980) := header98; (99, 990) := header99;
                   (100, 1000) := headerA ]};
     HeaderTD := {[ (98, 980) := 98; (99, 990) := 99; (100, 1000) := 100 ]};
     BlockBody := ∅; HeadHeaderKey := 1000; HeadBlockKey := 1000;
     ForkchoiceHead := 1000; ForkchoiceSafe := 990;
     ForkchoiceFinalized := 980;
     SyncStageProgress := {[ StageHeaders := 100; StageExecution := 100;
                             StageFinish := 100 ]};
     SyncStageUnwind := ∅; ErigonVersionFinished := true;
     RawTransactionsRange := fun _ _ => Ok [[9]];
     ReadBlock := fun _ _ => None;
     ioFault := noFault |}.

Definition validatesAll : validatePayloadFunc :=
  fun batch _ _ _ _ _ => (batch, None).

Definition rejectsAll : validatePayloadFunc :=
  fun batch _ _ _ _ _ => (batch, Some (ErrValidation 1)).

(** A validator at height 100 that has validated [X] and [Y]. *)
Definition withSideFork (validate : validatePayloadFunc) : ForkValidator :=
  {| sideForksBlock := {[ 2099 := mkForkSegment headerX someBody;
                          2100 := mkForkSegment headerY someBody ]};
     extendingFork := None; extendingForkHeadHash := zeroHash;
     validatePayload := Some validate; currentHeight := 100 |}.

(** A validator at height 100 that has staged [B@101] on the canonical
    chain. *)
Definition withStagedB : ForkValidator :=
  {| sideForksBlock := {[ 1010 := mkForkSegment headerB someBody ]};
     extendingFork := Some (NewMemoryBatch chainTx);
     extendingForkHeadHash := 1010;
     validatePayload := Some validatesAll; currentHeight := 100 |}.



Definition finishState : StageState := mkStageState StageFinish 100.

Definition sampleCfg : FinishCfg :=
  mkFinishCfg (mkDb chainTx None) (Some (mkChan 1 []))
    (Some withStagedB).

Definition unwindTo98 : UnwindState := mkUnwindState StageHeaders 98 zeroHash.

Definition unwindBadA : UnwindState := mkUnwindState StageHeaders 99 1000.

Definition headersState : StageState := mkStageState StageHeaders 100.

Definition headersCfg : HeadersCfg :=
  mkHeadersCfg (mkDb chainTx None) (mkHeaderDownload ∅).

(** A chain of three blocks on the canonical genesis, of which only the
    genesis is marked canonical. *)
Definition genesis : Header := mkHeader 0 0 1 None 5000 500.
Definition child1 : Header := mkHeader 500 1 1 None 5000 611.
Definition child2 : Header := mkHeader 611 2 1 None 5000 622.

Definition unmarkedTx : Tx :=
  set_Headers
    (set_HeaderCanonical emptyTx {[ 0 := 500 ]})
    {[ (0, 500) := genesis; (1, 611) := child1; (2, 622) := child2 ]}.

End Scenario.

(** ** The properties, as predicates over the embedding *)

Module Properties.

Import Engineapi Stagedsync.

(** The claim as the spec words it: the walk stopped at an ancestor that is
    canonical at height [n], and the callback receives [n + 1], or [0] when
    [n + 1] is the current height. *)
Definition unwind_point_is_height_plus_one : Prop :=
  forall fuel fv tx h b st fv' evs on hh bb u hs bs e n,
    ValidatePayload fuel fv tx h b false = Done (st, fv', evs) ->
    EvValidatePayload on hh bb u hs bs e ∈ evs ->
    HeaderNumber tx !! ParentHash (List.hd h hs) = Some n ->
    HeaderCanonical tx !! n = Some (ParentHash (List.hd h hs)) ->
    u = (if bool_decide (n + 1 = currentHeight fv) then 0 else n + 1).

(** Every cached segment is within [maxForkDepth] of the current height. *)
Definition withinForkDepth (fv : ForkValidator) : Prop :=
  forall hash sb,
    sideForksBlock fv !! hash = Some sb ->
    AbsoluteDifference (currentHeight fv) (Uint64 (Number (header sb)))
    <= maxForkDepth.

(** The extending fork is non-nil exactly when its head hash is non-zero. *)
Definition paired (fv : ForkValidator) : Prop :=
  is_Some (extendingFork fv) <-> extendingForkHeadHash fv <> zeroHash.

(** The public operations of the validator that change it. *)
Inductive Call :=
| CallValidatePayload (tx : Tx) (h : Header) (b : option RawBody)
    (extendCanonical : bool)
| CallFlushExtendingFork (tx : Tx)
| CallClearWithUnwind (tx : Tx) (accumulator : option Accumulator)
| CallNotifyCurrentHeight (height : Z)
| CallTryAddingPoWBlock (block : Block).

Definition perform (fuel : nat) (fv : ForkValidator) (c : Call)
  : outcome ForkValidator :=
  match c with
  | CallValidatePayload tx h b extendCanonical =>
      match ValidatePayload fuel fv tx h b extendCanonical with
      | Done (_, fv, _) => Done fv
      | Panics => Panics
      | OutOfFuel => OutOfFuel
      end
  | CallFlushExtendingFork tx =>
      match FlushExtendingFork fv tx with
      | Done (_, _, fv, _) => Done fv
      | Panics => Panics
      | OutOfFuel => OutOfFuel
      end
  | CallClearWithUnwind tx accumulator =>
      match ClearWithUnwind fv tx accumulator with
      | Done (fv, _) => Done fv
      | Panics => Panics
      | OutOfFuel => OutOfFuel
      end
  | CallNotifyCurrentHeight height =>
      Done (NotifyCurrentHeight fv height).1
  | CallTryAddingPoWBlock block => Done (TryAddingPoWBlock fv block)
  end.

(** A header hash is the digest of a header and never the zero hash. *)
Definition hashed (c : Call) : Prop :=
  match c with
  | CallValidatePayload _ h _ _ => HeaderHash h <> zeroHash
  | _ => True
  end.

(** A hash is canonical in a store: the canonical-hash index has it at the
    height recorded for it. *)
Definition canonical_in (tx : Tx) (hash : Hash) : Prop :=
  exists n, HeaderNumber tx !! hash = Some n
            /\ HeaderCanonical tx !! n = Some hash.


(** The hash of the [k]-th ancestor of the block [hash] at [height], by
    parent hashes through the header table. *)
Fixpoint ancestorAt (tx : Tx) (hash : Hash) (height : Z) (k : nat)
  : option Hash :=
  match k with
  | O => Some hash
  | S k =>
      match Headers tx !! (height, hash) with
      | Some ancestor => ancestorAt tx (ParentHash ancestor) (height - 1) k
      | None => None
      end
  end.

(** Every header of height 1 descends from the canonical block of height
    0. *)
Definition rootedAtGenesis (tx : Tx) : Prop :=
  map_Forall (fun (k : Z * Z) (h : Header) =>
                k.1 = 1 -> HeaderCanonical tx !! 0 = Some (ParentHash h))
    (Headers tx).

(** The transaction a stage function worked on, before and after: the
    caller's, or the one it opened on the database and committed. *)
Definition txBefore (tx : option Tx) (d : Db) : Tx :=
  match tx with
  | Some tx => tx
  | None => committed d
  end.

Definition txAfter (r : Unwound) : Tx :=
  match unwindTx r with
  | Some tx => tx
  | None => committed (db (unwindCfg r))
  end.

End Properties.

(** ** Further predicates over the fork validator *)

Module ValidatorProperties.

Import Engineapi.

(** Every segment of the cache is stored under the hash of its header. *)
Definition keyed (fv : ForkValidator) : Prop :=
  forall k sb, sideForksBlock fv !! k = Some sb -> HeaderHash (header sb) = k.

(** [hs] is a chain ending below [h]: every header of it is the parent of
    the next one, and the last is the parent of [h]. *)
Definition chainBelow (hs : list Header) (h : Header) : Prop :=
  forall i x, hs !! i = Some x ->
              HeaderHash x = ParentHash (default h (hs !! S i)).

Definition isValidateCall (e : Event) : bool :=
  match e with
  | EvValidatePayload _ _ _ _ _ _ _ => true
  | _ => false
  end.

Definition isAccumulatorCall (e : Event) : bool :=
  match e with
  | EvAccumulatorReset _ | EvStartChange _ _ _ _ | EvSendAndReset _ _ => true
  | _ => false
  end.

(** The batch the callback is given on the extending path: a new one over
    [tx], or the staged one rebound to [tx] with the writes it holds. *)
Definition stagingBatch (fv : ForkValidator) (tx : Tx) : MemoryMutation :=
  match extendingFork fv with
  | None => NewMemoryBatch tx
  | Some m => UpdateTxn m tx
  end.

(** How many times a run called the callback. *)
Definition callbackCalls (evs : list Event) : nat :=
  length (List.filter isValidateCall evs).

End ValidatorProperties.


(** ** Further sample stores *)

Module MoreScenario.

Import Engineapi Stagedsync Scenario.

(** The sample chain with the execution stage at 100, the finish stage at
    99 and the head block readable. *)
Definition progressTx : Tx :=
  {| HeaderCanonical := HeaderCanonical chainTx;
     HeaderNumber := HeaderNumber chainTx; Headers := Headers chainTx;
     HeaderTD := HeaderTD chainTx; BlockBody := BlockBody chainTx;
     HeadHeaderKey := 1000; HeadBlockKey := 990;
     ForkchoiceHead := ForkchoiceHead chainTx;
     ForkchoiceSafe := ForkchoiceSafe chainTx;
     ForkchoiceFinalized := ForkchoiceFinalized chainTx;
     SyncStageProgress := {[ StageExecution := 100; StageFinish := 99 ]};
     SyncStageUnwind := ∅; ErigonVersionFinished := false;
     RawTransactionsRange := RawTransactionsRange chainTx;
     ReadBlock := fun _ _ => Some (mkBlock headerA someBody);
     ioFault := noFault |}.

Definition finishBehind : StageState := mkStageState StageFinish 99.

(** The sample chain with the headers of [B@101] and of the side fork
    [X@99 <- Y@100 <- Z@101] stored as well. *)
Definition forkedTx : Tx :=
  set_Headers chainTx
    (<[(101, 1010) := headerB]>
       (<[(99, 2099) := headerX]>
          (<[(100, 2100) := headerY]>
             (<[(101, 2101) := headerZ]> (Headers chainTx))))).

Definition unwindBadY : UnwindState := mkUnwindState StageHeaders 99 2100.

(** What [FinishForward] leaves of [progressTx] and [sampleCfg]. *)
Definition settled : Finished :=
  mkFinished None
    (Some (set_SyncStageProgress (set_HeadBlockKey progressTx 1000)
             (<[StageFinish:=100]> (SyncStageProgress progressTx))))
    (mkFinishCfg (finishDb sampleCfg)
       (Some (trySend (mkChan 1 []) (mkBlock headerA someBody)))
       (Some (NotifyCurrentHeight withStagedB 100).1))
    [StepWriteHeadBlockHash 1000; StepUpdate 100;
     StepNotifyCurrentHeight 100; StepPublish (mkBlock headerA someBody)].

End MoreScenario.


(** ** The PoS side of the header downloader

    The requests of the consensus layer, the replies to it and the part of
    [headerdownload.HeaderDownload] that the PoS handlers of the headers
    stage read and write. *)

Module Requests.

Import Engineapi.

(** [engineapi.RequestStatus]. *)
Inductive RequestStatus := New | DataWasMissing.

(** [engineapi.Interrupt]; [NoInterrupt] is [engineapi.None]. *)
Inductive Interrupt := NoInterrupt | Stopping | Synced.

(** The errors of the stage that are not errors of the store:
    [privateapi.InvalidForkchoiceStateErr] and
    [fmt.Errorf("server is stopping")]. *)
Inductive StageError :=
| InvalidForkchoiceStateErr
| ErrServerStopping
| ErrStore (e : Error).

(** [engineapi.PayloadStatus], the reply to the consensus layer; a field
    the source leaves out holds its zero value. *)
Record Reply := mkReply {
  Status : EngineStatus;
  LatestValidHash : Hash;
  ValidationError : option Error;
  CriticalError : option StageError
}.

Global Instance RequestStatus_eq_dec : EqDecision RequestStatus.
Proof. solve_decision. Defined.

End Requests.

Module Headerdownload.

Import Engineapi Stagedsync Requests.

(** [headerdownload.SyncStatus]. *)
Inductive SyncStatus := Idle | Syncing | Synced.

Global Instance SyncStatus_eq_dec : EqDecision SyncStatus.
Proof. solve_decision. Defined.

(** Modelled from the spec: the [etl.Collector] of the downloaded PoS
    headers is not part of these files.  The spec has the headers loaded in
    key order; the collector is the list of its values in that order, each
    value as what [rlp.DecodeBytes] makes of it. *)
Abbreviation Collector := (list (result Header)) (only parsing).

(** Modelled from the spec: [headerdownload.HeaderDownload] is not part of
    these files.  The spec keeps the bad-header set, the PoS-downloader
    status and the pending-payload fields in the downloader, and has the
    scheduler store [(requestId, hashToDownload, heightToDownload,
    downloaderTip)] and the collector there; every field is read by the
    getter and written by the setter of its name.  [badPoSHeaders] maps a
    bad header to the last valid ancestor recorded with it;
    [shutdownClosed] tells whether [ShutdownCh] has been closed. *)
Record PosDownload := mkPosDownload {
  posStatus : SyncStatus;
  requestId : Z;
  posDownloaderTip : Hash;
  headerToDownloadPoS : Hash * Z;
  posSync : bool;
  headersCollector : option Collector;
  badPoSHeaders : gmap Z Z;
  pendingPayloadHash : Hash;
  unsettledForkChoice : option (ForkChoiceMessage * Z);
  shutdownClosed : bool
}.

Definition set_posStatus (r : PosDownload) (v : SyncStatus) : PosDownload :=
  {| posStatus := v; requestId := requestId r; posDownloaderTip :=
  posDownloaderTip r; headerToDownloadPoS := headerToDownloadPoS r; posSync
  := posSync r; headersCollector := headersCollector r; badPoSHeaders :=
  badPoSHeaders r; pendingPayloadHash := pendingPayloadHash r;
  unsettledForkChoice := unsettledForkChoice r; shutdownClosed :=
  shutdownClosed r |}.

Definition set_requestId (r : PosDownload) (v : Z) : PosDownload :=
  {| posStatus := posStatus r; requestId := v; posDownloaderTip :=
  posDownloaderTip r; headerToDownloadPoS := headerToDownloadPoS r; posSync
  := posSync r; headersCollector := headersCollector r; badPoSHeaders :=
  badPoSHeaders r; pendingPayloadHash := pendingPayloadHash r;
  unsettledForkChoice := unsettledForkChoice r; shutdownClosed :=
  shutdownClosed r |}.

Definition set_posDownloaderTip (r : PosDownload) (v : Hash) : PosDownload :=
  {| posStatus := posStatus r; requestId := requestId r; posDownloaderTip :=
  v; headerToDownloadPoS := headerToDownloadPoS r; posSync := posSync r;
  headersCollector := headersCollector r; badPoSHeaders := badPoSHeaders r;
  pendingPayloadHash := pendingPayloadHash r; unsettledForkChoice :=
  unsettledForkChoice r; shutdownClosed := shutdownClosed r |}.

Definition set_headerToDownloadPoS (r : PosDownload) (v : Hash * Z) : PosDownload :=
  {| posStatus := posStatus r; requestId := requestId r; posDownloaderTip :=
  posDownloaderTip r; headerToDownloadPoS := v; posSync := posSync r;
  headersCollector := headersCollector r; badPoSHeaders := badPoSHeaders r;
  pendingPayloadHash := pendingPayloadHash r; unsettledForkChoice :=
  unsettledForkChoice r; shutdownClosed := shutdownClosed r |}.

Definition set_posSync (r : PosDownload) (v : bool) : PosDownload :=
  {| posStatus := posStatus r; requestId := requestId r; posDownloaderTip :=
  posDownloaderTip r; headerToDownloadPoS := headerToDownloadPoS r; posSync
  := v; headersCollector := headersCollector r; badPoSHeaders :=
  badPoSHeaders r; pendingPayloadHash := pendingPayloadHash r;
  unsettledForkChoice := unsettledForkChoice r; shutdownClosed :=
  shutdownClosed r |}.

Definition set_headersCollector (r : PosDownload) (v : option Collector) : PosDownload :=
  {| posStatus := posStatus r; requestId := requestId r; posDownloaderTip :=
  posDownloaderTip r; headerToDownloadPoS := headerToDownloadPoS r; posSync
  := posSync r; headersCollector := v; badPoSHeaders := badPoSHeaders r;
  pendingPayloadHash := pendingPayloadHash r; unsettledForkChoice :=
  unsettledForkChoice r; shutdownClosed := shutdownClosed r |}.

Definition set_badPoSHeaders (r : PosDownload) (v : gmap Z Z) : PosDownload :=
  {| posStatus := posStatus r; requestId := requestId r; posDownloaderTip :=
  posDownloaderTip r; headerToDownloadPoS := headerToDownloadPoS r; posSync
  := posSync r; headersCollector := headersCollector r; badPoSHeaders := v;
  pendingPayloadHash := pendingPayloadHash r; unsettledForkChoice :=
  unsettledForkChoice r; shutdownClosed := shutdownClosed r |}.

Definition set_pendingPayloadHash (r : PosDownload) (v : Hash) : PosDownload :=
  {| posStatus := posStatus r; requestId := requestId r; posDownloaderTip :=
  posDownloaderTip r; headerToDownloadPoS := headerToDownloadPoS r; posSync
  := posSync r; headersCollector := headersCollector r; badPoSHeaders :=
  badPoSHeaders r; pendingPayloadHash := v; unsettledForkChoice :=
  unsettledForkChoice r; shutdownClosed := shutdownClosed r |}.

Definition set_unsettledForkChoice (r : PosDownload) (v : option (ForkChoiceMessage * Z)) : PosDownload :=
  {| posStatus := posStatus r; requestId := requestId r; posDownloaderTip :=
  posDownloaderTip r; headerToDownloadPoS := headerToDownloadPoS r; posSync
  := posSync r; headersCollector := headersCollector r; badPoSHeaders :=
  badPoSHeaders r; pendingPayloadHash := pendingPayloadHash r;
  unsettledForkChoice := v; shutdownClosed := shutdownClosed r |}.

Definition set_shutdownClosed (r : PosDownload) (v : bool) : PosDownload :=
  {| posStatus := posStatus r; requestId := requestId r; posDownloaderTip :=
  posDownloaderTip r; headerToDownloadPoS := headerToDownloadPoS r; posSync
  := posSync r; headersCollector := headersCollector r; badPoSHeaders :=
  badPoSHeaders r; pendingPayloadHash := pendingPayloadHash r;
  unsettledForkChoice := unsettledForkChoice r; shutdownClosed := v |}.

(** The calls that leave the handlers for objects of other packages and
    are not read back: the beacon request list, the top seen height, the
    reply channel, the header inserter, the fork validator and the
    unwinder. *)
Inductive Effect :=
| EvRemove (requestId : Z)
| EvSetStatus (requestId : Z) (st : RequestStatus)
| EvUpdateTopSeenHeightPoS (blockHeight : Z)
| EvPayloadStatusCh (reply : Reply)
| EvFeedHeaderPoS (header : Header) (hash : Hash)
| EvForkValidator (evs : list Event)
| EvUnwindTo (unwindPoint : Z) (badBlock : Hash).

(** What the handlers consume from packages outside these files:
    [HeaderDownload.VerifyHeader] (it reads the chain through the
    transaction), [FullBlockReader.HeaderByHash], and the header inserter
    with [FeedHeaderPoS], [ForkingPoint], [GetHighest] and
    [GetHighestHash].  Modelled from the spec: [ForkingPoint] walks the
    ancestors and returns a height, it writes nothing. *)
Class Services (HI : Type) := {
  VerifyHeader : Tx -> Header -> option Error;
  HeaderByHash : Tx -> Hash -> result (option Header);
  FeedHeaderPoS : HI -> Tx -> Header -> Hash -> option Error * HI * Tx;
  ForkingPoint : HI -> Tx -> Header -> option Header -> result Z;
  GetHighest : HI -> Z;
  GetHighestHash : HI -> Hash
}.

(** The objects the handlers share by pointer: the database, the
    transaction, the header downloader, the fork validator (it is set) and
    the header inserter; and the calls that left, oldest first. *)
Record Heap (HI : Type) := mkHeap {
  heapDb : Db;
  heapTx : Tx;
  heapHd : PosDownload;
  heapFv : ForkValidator;
  heapHi : HI;
  effects : list Effect
}.
Arguments mkHeap {HI} _ _ _ _ _ _.
Arguments heapDb {HI} _.
Arguments heapTx {HI} _.
Arguments heapHd {HI} _.
Arguments heapFv {HI} _.
Arguments heapHi {HI} _.
Arguments effects {HI} _.

Definition set_heapDb {HI : Type} (r : Heap HI) (v : Db) : Heap HI :=
  {| heapDb := v; heapTx := heapTx r; heapHd := heapHd r; heapFv := heapFv
  r; heapHi := heapHi r; effects := effects r |}.

Definition set_heapTx {HI : Type} (r : Heap HI) (v : Tx) : Heap HI :=
  {| heapDb := heapDb r; heapTx := v; heapHd := heapHd r; heapFv := heapFv
  r; heapHi := heapHi r; effects := effects r |}.

Definition set_heapHd {HI : Type} (r : Heap HI) (v : PosDownload) : Heap HI :=
  {| heapDb := heapDb r; heapTx := heapTx r; heapHd := v; heapFv := heapFv
  r; heapHi := heapHi r; effects := effects r |}.

Definition set_heapFv {HI : Type} (r : Heap HI) (v : ForkValidator) : Heap HI :=
  {| heapDb := heapDb r; heapTx := heapTx r; heapHd := heapHd r; heapFv :=
  v; heapHi := heapHi r; effects := effects r |}.

Definition set_heapHi {HI : Type} (r : Heap HI) (v : HI) : Heap HI :=
  {| heapDb := heapDb r; heapTx := heapTx r; heapHd := heapHd r; heapFv :=
  heapFv r; heapHi := v; effects := effects r |}.

Definition set_effects {HI : Type} (r : Heap HI) (v : list Effect) : Heap HI :=
  {| heapDb := heapDb r; heapTx := heapTx r; heapHd := heapHd r; heapFv :=
  heapFv r; heapHi := heapHi r; effects := v |}.

End Headerdownload.

(** ** The PoS handlers of the headers stage ([stage_headers.go]) *)

Module StageHeadersPoS.

Import Engineapi Stagedsync Headerdownload Requests.

(** The number of blocks we should be able to re-org sub-second on
    commodity hardware. *)
Definition ShortPoSReorgThresholdBlocks : Z := 10.

(** The local variables of [verifyAndSaveDownloadedPoSHeaders] that its
    load function captures. *)
Record Replay := mkReplay {
  lastValidHash : Hash;
  badChainError : option Error;
  foundPow : bool
}.

Section Handlers.

Context {HI : Type} `{!Services HI}.

(** A handler runs on the heap and may panic or run out of fuel. *)
Definition M (A : Type) : Type := Heap HI -> outcome (A * Heap HI).

Definition ret {A : Type} (a : A) : M A := fun σ => Done (a, σ).

Definition bind {A B : Type} (m : M A) (f : A -> M B) : M B :=
  fun σ =>
    match m σ with
    | Done (a, σ) => f a σ
    | Panics => Panics
    | OutOfFuel => OutOfFuel
    end.

Notation "x <- m ;; k" := (bind m (fun x => k))
  (at level 100, m at next level, right associativity).
Notation "m ;; k" := (bind m (fun _ => k))
  (at level 100, right associativity).

Definition panic {A : Type} : M A := fun _ => Panics.

Definition effect (e : Effect) : M unit :=
  fun σ => Done (tt, set_effects σ (effects σ ++ [e])).

Definition getTx : M Tx := fun σ => Done (heapTx σ, σ).

Definition getHd : M PosDownload := fun σ => Done (heapHd σ, σ).

Definition getFv : M ForkValidator := fun σ => Done (heapFv σ, σ).

Definition getHi : M HI := fun σ => Done (heapHi σ, σ).

Definition modifyHd (f : PosDownload -> PosDownload) : M unit :=
  fun σ => Done (tt, set_heapHd σ (f (heapHd σ))).

(** A write of [rawdb] on the transaction. *)
Definition onTx (f : Tx -> result Tx) : M (option Error) :=
  fun σ =>
    match f (heapTx σ) with
    | Ok tx => Done (None, set_heapTx σ tx)
    | Err e => Done (Some e, σ)
    end.

(** [tx.Commit()]. *)
Definition txCommit : M (option Error) :=
  fun σ =>
    match Commit (heapDb σ) (heapTx σ) with
    | Ok db => Done (None, set_heapDb σ db)
    | Err e => Done (Some e, σ)
    end.

(** The methods of [cfg.hd]. *)
Definition PosStatus : M SyncStatus :=
  hd <- getHd;; ret (posStatus hd).

Definition SetPosStatus (s : SyncStatus) : M unit :=
  modifyHd (fun hd => set_posStatus hd s).

Definition RequestId : M Z :=
  hd <- getHd;; ret (requestId hd).

Definition SetRequestId (id : Z) : M unit :=
  modifyHd (fun hd => set_requestId hd id).

Definition PoSDownloaderTip : M Hash :=
  hd <- getHd;; ret (posDownloaderTip hd).

Definition SetPoSDownloaderTip (hash : Hash) : M unit :=
  modifyHd (fun hd => set_posDownloaderTip hd hash).

Definition SetHeaderToDownloadPoS (hash : Hash) (height : Z) : M unit :=
  modifyHd (fun hd => set_headerToDownloadPoS hd (hash, height)).

Definition SetPOSSync (posSync : bool) : M unit :=
  modifyHd (fun hd => set_posSync hd posSync).

Definition HeadersCollector : M (option (list (result Header))) :=
  hd <- getHd;; ret (headersCollector hd).

Definition SetHeadersCollector (c : option (list (result Header)))
  : M unit :=
  modifyHd (fun hd => set_headersCollector hd c).

Definition ReportBadHeaderPoS (badHeader lastValidAncestor : Hash)
  : M unit :=
  modifyHd (fun hd =>
              set_badPoSHeaders hd
                (<[badHeader := lastValidAncestor]> (badPoSHeaders hd))).


Definition GetPendingPayloadHash : M Hash :=
  hd <- getHd;; ret (pendingPayloadHash hd).

Definition SetPendingPayloadHash (hash : Hash) : M unit :=
  modifyHd (fun hd => set_pendingPayloadHash hd hash).

Definition ClearPendingPayloadHash : M unit :=
  modifyHd (fun hd => set_pendingPayloadHash hd zeroHash).

Definition SetUnsettledForkChoice (forkChoice : ForkChoiceMessage)
    (headHeight : Z) : M unit :=
  modifyHd (fun hd =>
              set_unsettledForkChoice hd (Some (forkChoice, headHeight))).

Definition ClearUnsettledForkChoice : M unit :=
  modifyHd (fun hd => set_unsettledForkChoice hd None).

(** [close(cfg.hd.ShutdownCh)]; closing a closed channel panics. *)
Definition closeShutdownCh : M unit :=
  hd <- getHd;;
  if shutdownClosed hd then panic
  else modifyHd (fun hd => set_shutdownClosed hd true).

Definition hdVerifyHeader (header : Header) : M (option Error) :=
  tx <- getTx;; ret (VerifyHeader tx header).

(** The methods of the header inserter and of the fork validator. *)
Definition hiFeedHeaderPoS (header : Header) (hash : Hash)
  : M (option Error) :=
  fun σ =>
    let '(err, hi, tx) := FeedHeaderPoS (heapHi σ) (heapTx σ) header hash in
    Done (err,
          set_effects (set_heapTx (set_heapHi σ hi) tx)
            (effects σ ++ [EvFeedHeaderPoS header hash])).

Definition fvValidatePayload (fuel : nat) (header : Header)
    (body : option RawBody) (extendCanonical : bool) : M PayloadStatus :=
  fun σ =>
    match ValidatePayload fuel (heapFv σ) (heapTx σ) header body
            extendCanonical with
    | Done (st, fv, evs) =>
        Done (st,
              set_effects (set_heapFv σ fv)
                (effects σ ++ [EvForkValidator evs]))
    | Panics => Panics
    | OutOfFuel => OutOfFuel
    end.

Definition fvFlushExtendingFork : M (option Error) :=
  fun σ =>
    match FlushExtendingFork (heapFv σ) (heapTx σ) with
    | Done (err, tx, fv, evs) =>
        Done (err,
              set_effects (set_heapFv (set_heapTx σ tx) fv)
                (effects σ ++ [EvForkValidator evs]))
    | Panics => Panics
    | OutOfFuel => OutOfFuel
    end.

Definition fvClearWithUnwind (accumulator : option Accumulator) : M unit :=
  fun σ =>
    match ClearWithUnwind (heapFv σ) (heapTx σ) accumulator with
    | Done (fv, evs) =>
        Done (tt,
              set_effects (set_heapFv σ fv)
                (effects σ ++ [EvForkValidator evs]))
    | Panics => Panics
    | OutOfFuel => OutOfFuel
    end.

Definition runFixCanonicalChain (fuel : nat) (height : Z) (hash : Hash)
  : M (option Error) :=
  fun σ =>
    match fixCanonicalChain fuel height hash (heapTx σ) with
    | Done (err, tx) => Done (err, set_heapTx σ tx)
    | Panics => Panics
    | OutOfFuel => OutOfFuel
    end.

Definition runWriteForkChoiceHashes (forkChoice : ForkChoiceMessage)
  : M (bool * option Error) :=
  fun σ =>
    let '(canonical, err, tx) :=
      writeForkChoiceHashes forkChoice (heapTx σ) in
    Done ((canonical, err), set_heapTx σ tx).

Definition forkingPoint (header : Header) : M (result Z) :=
  let headerNumber := Uint64 (Number header) in
  if bool_decide (headerNumber = 0) then ret (Ok 0)
  else
    tx <- getTx;;
    match ReaderHeader tx (ParentHash header) (Uint64 (headerNumber - 1)) with
    | Err e => ret (Err e)
    | Ok parent =>
        hi <- getHi;; ret (ForkingPoint hi tx header parent)
    end.

Definition schedulePoSDownload (requestId : Z) (hashToDownload : Hash)
    (heightToDownload : Z) (downloaderTip : Hash) : M bool :=
  effect (EvSetStatus requestId DataWasMissing);;
  st <- PosStatus;;
  if bool_decide (st ≠ Idle) then ret false
  else
    SetRequestId requestId;;
    SetPoSDownloaderTip downloaderTip;;
    SetHeaderToDownloadPoS hashToDownload heightToDownload;;
    SetPOSSync true;;
    SetHeadersCollector (Some []);;
    SetPosStatus Syncing;;
    ret true.

(** [headerLoadFunc], the closure of [verifyAndSaveDownloadedPoSHeaders];
    [value] is what [rlp.DecodeBytes] makes of the collected value. *)
Definition headerLoadFunc (fuel : nat) (value : result Header) (r : Replay)
  : M (option Error * Replay) :=
  match value with
  | Err e => ret (Some e, r)
  | Ok h =>
      match badChainError r with
      | Some _ =>
          ReportBadHeaderPoS (HeaderHash h) (lastValidHash r);;
          ret (None, r)
      | None =>
          let r := mkReplay (ParentHash h) (badChainError r) (foundPow r) in
          verificationErr <- hdVerifyHeader h;;
          match verificationErr with
          | Some err =>
              let r := mkReplay (lastValidHash r) (Some err) (foundPow r) in
              ReportBadHeaderPoS (HeaderHash h) (lastValidHash r);;
              ret (None, r)
          | None =>
              if foundPow r then
                err <- hiFeedHeaderPoS h (HeaderHash h);; ret (err, r)
              else
                let r := mkReplay (lastValidHash r) (badChainError r)
                           (bool_decide (Difficulty h ≠ 0)) in
                if foundPow r then
                  err <- hiFeedHeaderPoS h (HeaderHash h);; ret (err, r)
                else
                  st <- fvValidatePayload fuel h None false;;
                  match criticalError st with
                  | Some criticalError => ret (Some criticalError, r)
                  | None =>
                      match validationError st with
                      | Some validationError =>
                          let r := mkReplay (lastValidHash r)
                                     (Some validationError) (foundPow r) in
                          ReportBadHeaderPoS (HeaderHash h)
                            (lastValidHash r);;
                          ret (None, r)
                      | None =>
                          err <- hiFeedHeaderPoS h (HeaderHash h);;
                          ret (err, r)
                      end
                  end
          end
      end
  end.

(** Modelled from the spec: [Collector.Load] is not part of these files;
    it calls the load function on the collected values in key order and
    returns the first error. *)
Fixpoint Load (fuel : nat) (values : list (result Header)) (r : Replay)
  : M (option Error * Replay) :=
  match values with
  | [] => ret (None, r)
  | value :: values =>
      loaded <- headerLoadFunc fuel value r;;
      match loaded with
      | (Some err, r) => ret (Some err, r)
      | (None, r) => Load fuel values r
      end
  end.

(** A nil collector is dereferenced by [Load]. *)
Definition verifyAndSaveDownloadedPoSHeaders (fuel : nat) : M unit :=
  collector <- HeadersCollector;;
  match collector with
  | None => panic
  | Some values =>
      loaded <- Load fuel values (mkReplay zeroHash None false);;
      let '(err, r) := loaded in
      (if bool_decide (err ≠ None ∨ badChainError r ≠ None) then
         id <- RequestId;;
         effect (EvRemove id);;
         tip <- PoSDownloaderTip;;
         ReportBadHeaderPoS tip (lastValidHash r)
       else ret tt);;
      SetHeadersCollector None;;
      SetPosStatus Idle
  end.

Definition handleInterrupt (fuel : nat) (interrupt : Interrupt)
    (useExternalTx : bool) : M (bool * option StageError) :=
  match interrupt with
  | NoInterrupt => ret (false, None)
  | Stopping =>
      closeShutdownCh;;
      ret (false, Some ErrServerStopping)
  | Requests.Synced =>
      collector <- HeadersCollector;;
      (match collector with
       | Some _ => verifyAndSaveDownloadedPoSHeaders fuel
       | None => ret tt
       end);;
      if negb useExternalTx then
        err <- txCommit;;
        ret (true, option_map ErrStore err)
      else ret (true, None)
  end.

Definition finishHandlingForkChoice (fuel : nat)
    (forkChoice : ForkChoiceMessage) (headHeight : Z) (s : StageState)
    (useExternalTx : bool) : M (option Error) :=
  err <- runFixCanonicalChain fuel headHeight (HeadBlockHash forkChoice);;
  match err with
  | Some e => ret (Some e)
  | None =>
      err <- onTx (fun tx =>
                     WriteHeadHeaderHash tx (HeadBlockHash forkChoice));;
      match err with
      | Some e => ret (Some e)
      | None =>
          written <- runWriteForkChoiceHashes forkChoice;;
          match written with
          | (_, Some e) => ret (Some e)
          | (canonical, None) =>
              err <- onTx (fun tx => Update s tx headHeight);;
              match err with
              | Some e => ret (Some e)
              | None =>
                  err <- (if negb useExternalTx then txCommit
                          else ret None);;
                  match err with
                  | Some e => ret (Some e)
                  | None =>
                      (if negb canonical then
                         pending <- GetPendingPayloadHash;;
                         (if bool_decide (pending ≠ zeroHash) then
                            effect (EvPayloadStatusCh
                                      (mkReply EngineStatus_VALID zeroHash
                                         None
                                         (Some InvalidForkchoiceStateErr)))
                          else ret tt);;
                         ClearPendingPayloadHash
                       else ret tt);;
                      ClearUnsettledForkChoice;;
                      ret None
                  end
              end
          end
      end
  end.


(** The body of [startHandlingForkChoice], before the deferred
    [ClearWithUnwind]. *)
Definition startHandlingForkChoiceBody (forkChoice : ForkChoiceMessage)
    (requestStatus : RequestStatus) (requestId : Z) (test : bool)
    (memoryOverlay : bool) : M (option Reply * option Error) :=
  let headerHash := HeadBlockHash forkChoice in
  let invalidForkchoice :=
    mkReply EngineStatus_VALID zeroHash None
      (Some InvalidForkchoiceStateErr) in
  tx <- getTx;;
  let currentHeadHash := ReadHeadHeaderHash tx in
  if bool_decide (currentHeadHash = headerHash) then
    effect (EvRemove requestId);;
    written <- runWriteForkChoiceHashes forkChoice;;
    match written with
    | (_, Some e) => ret (None, Some e)
    | (true, None) =>
        ret (Some (mkReply EngineStatus_VALID currentHeadHash None None),
             None)
    | (false, None) => ret (Some invalidForkchoice, None)
    end
  else
    match HeaderByHash tx headerHash with
    | Err e =>
        effect (EvRemove requestId);;
        ret (None, Some e)
    | Ok None =>
        effect (EvRemove requestId);;
        (if negb test then
           schedulePoSDownload requestId headerHash 0 headerHash;; ret tt
         else ret tt);;
        ret (Some (mkReply EngineStatus_SYNCING zeroHash None None), None)
    | Ok (Some header) =>
        effect (EvRemove requestId);;
        let headerNumber := Uint64 (Number header) in
        fv <- getFv;;
        if memoryOverlay
           && bool_decide (headerHash = ExtendingForkHeadHash fv) then
          err <- fvFlushExtendingFork;;
          match err with
          | Some e => ret (None, Some e)
          | None =>
              effect (EvRemove requestId);;
              written <- runWriteForkChoiceHashes forkChoice;;
              match written with
              | (_, Some e) => ret (None, Some e)
              | (true, None) =>
                  SetPendingPayloadHash headerHash;;
                  ret (None, None)
              | (false, None) => ret (Some invalidForkchoice, None)
              end
          end
        else
          effect (EvUpdateTopSeenHeightPoS headerNumber);;
          forked <- forkingPoint header;;
          match forked with
          | Err e => ret (None, Some e)
          | Ok forkingPoint =>
              (if bool_decide (requestStatus = New) then
                 if bool_decide (Uint64 (headerNumber - forkingPoint)
                                 ≤ ShortPoSReorgThresholdBlocks)
                 then SetPendingPayloadHash headerHash
                 else effect (EvPayloadStatusCh
                                (mkReply EngineStatus_SYNCING zeroHash None
                                   None))
               else ret tt);;
              effect (EvUnwindTo forkingPoint zeroHash);;
              SetUnsettledForkChoice forkChoice headerNumber;;
              ret (None, None)
          end
    end.

(** startHandlingForkChoice: with the memory overlay the deferred
    [ClearWithUnwind] runs when the body has returned. *)
Definition startHandlingForkChoice (forkChoice : ForkChoiceMessage)
    (requestStatus : RequestStatus) (requestId : Z) (test : bool)
    (memoryOverlay : bool) (accumulator : option Accumulator)
  : M (option Reply * option Error) :=
  replied <- startHandlingForkChoiceBody forkChoice requestStatus requestId
               test memoryOverlay;;
  (if memoryOverlay then fvClearWithUnwind accumulator else ret tt);;
  ret replied.

End Handlers.

End StageHeadersPoS.

(** ** Predicates over the PoS handlers and sample heaps *)

Module PoSProperties.

Import Engineapi Stagedsync Headerdownload Requests StageHeadersPoS.

(** The headers handed to the inserter, oldest first. *)
Definition fedHeaders (evs : list Effect) : list Header :=
  omap (fun e => match e with
                 | EvFeedHeaderPoS h _ => Some h
                 | _ => None
                 end) evs.

(** The calls to the fork validator. *)
Definition validatorCalls (evs : list Effect) : list (list Event) :=
  omap (fun e => match e with
                 | EvForkValidator evs => Some evs
                 | _ => None
                 end) evs.

(** The replies sent to the consensus layer. *)
Definition replies (evs : list Effect) : list Reply :=
  omap (fun e => match e with
                 | EvPayloadStatusCh r => Some r
                 | _ => None
                 end) evs.

(** The unwinds requested. *)
Definition unwinds (evs : list Effect) : list Z :=
  omap (fun e => match e with
                 | EvUnwindTo n _ => Some n
                 | _ => None
                 end) evs.

Definition bad {HI : Type} (σ : Heap HI) : gmap Z Z :=
  badPoSHeaders (heapHd σ).

(** The reply with [privateapi.InvalidForkchoiceStateErr] as its critical
    error. *)
Definition invalidForkchoice : Reply :=
  mkReply EngineStatus_VALID zeroHash None (Some InvalidForkchoiceStateErr).

(** The heap a handler leaves when it returns. *)
Definition heapAfter {HI A : Type} (run : outcome (A * Heap HI))
    (σ : Heap HI) : Heap HI :=
  match run with
  | Done (_, σ') => σ'
  | _ => σ
  end.

End PoSProperties.

Module PoSScenario.

Import Engineapi Stagedsync Headerdownload Requests StageHeadersPoS.
Import Scenario MoreScenario.

(** A sample of the services outside these files.  A header verifies
    unless its gas limit is 0; a header is found by its hash through the
    number recorded for it; the inserter keeps the highest header fed and
    writes the header and its number; the forking point is found by
    walking the ancestors of the header down to a canonical one. *)
Record Inserter := mkInserter {
  highest : Z;
  highestHash : Hash
}.

Fixpoint walkToCanonical (fuel : nat) (tx : Tx) (hash : Hash) (height : Z)
  : result Z :=
  match fuel with
  | O => Err (ErrHeaderNotFound height)
  | S fuel =>
      if bool_decide (HeaderCanonical tx !! height = Some hash)
      then Ok height
      else match Headers tx !! (height, hash) with
           | None => Err (ErrHeaderNotFound height)
           | Some h => walkToCanonical fuel tx (ParentHash h) (height - 1)
           end
  end.

Definition set_HeaderNumber (tx : Tx) (v : gmap Z Z) : Tx :=
  {| HeaderCanonical := HeaderCanonical tx; HeaderNumber := v; Headers :=
     Headers tx; HeaderTD := HeaderTD tx; BlockBody := BlockBody tx;
     HeadHeaderKey := HeadHeaderKey tx; HeadBlockKey := HeadBlockKey tx;
     ForkchoiceHead := ForkchoiceHead tx; ForkchoiceSafe := ForkchoiceSafe
     tx; ForkchoiceFinalized := ForkchoiceFinalized tx; SyncStageProgress
     := SyncStageProgress tx; SyncStageUnwind := SyncStageUnwind tx;
     ErigonVersionFinished := ErigonVersionFinished tx;
     RawTransactionsRange := RawTransactionsRange tx; ReadBlock :=
     ReadBlock tx; ioFault := ioFault tx |}.

Global Instance sampleServices : Services Inserter := {|
  VerifyHeader := fun _ h =>
    if bool_decide (GasLimit h = 0) then Some (ErrValidation 2) else None;
  HeaderByHash := fun tx hash =>
    Ok (match HeaderNumber tx !! hash with
        | Some n => Headers tx !! (n, hash)
        | None => None
        end);
  FeedHeaderPoS := fun hi tx h hash =>
    (None, mkInserter (Number h) hash,
     set_HeaderNumber
       (set_Headers tx (<[(Number h, hash) := h]> (Headers tx)))
       (<[hash := Number h]> (HeaderNumber tx)));
  ForkingPoint := fun hi tx h parent =>
    walkToCanonical 64 tx (ParentHash h) (Number h - 1);
  GetHighest := highest;
  GetHighestHash := highestHash
|}.

Definition idleHd : PosDownload :=
  {| posStatus := Idle; requestId := 0; posDownloaderTip := zeroHash;
     headerToDownloadPoS := (zeroHash, 0); posSync := false;
     headersCollector := None; badPoSHeaders := ∅;
     pendingPayloadHash := zeroHash; unsettledForkChoice := None;
     shutdownClosed := false |}.

(** The sample chain at rest: the committed store is the transaction, the
    downloader is idle, the validator holds the side fork. *)
Definition restHeap : Heap Inserter :=
  mkHeap (mkDb chainTx None) chainTx idleHd (withSideFork validatesAll)
    (mkInserter 100 1000) [].

(** [Y] with a gas limit the sample verification refuses, and a header of
    the PoW range. *)
Definition badY : Header := mkHeader 2099 100 0 (Some 7) 0 2100.
Definition powHeader : Header := mkHeader 970 98 5 None 5000 981.

(** The downloader with the download towards the tip 2102 collected. *)
Definition downloaded (values : list (result Header)) : Heap Inserter :=
  set_heapHd restHeap
    {| posStatus := Syncing; requestId := 7; posDownloaderTip := 2102;
       headerToDownloadPoS := (2101, 101); posSync := true;
       headersCollector := Some values; badPoSHeaders := ∅;
       pendingPayloadHash := zeroHash; unsettledForkChoice := None;
       shutdownClosed := false |}.

(** The heap after the unwind that a fork choice of [Y@100] asked for, the
    fork choice, and the same with a safe hash that is not canonical. *)
Definition forkedHeap : Heap Inserter := set_heapTx restHeap forkedTx.

Definition headY : ForkChoiceMessage :=
  mkForkChoiceMessage 2100 zeroHash zeroHash.

Definition headYSafeStray : ForkChoiceMessage :=
  mkForkChoiceMessage 2100 777 zeroHash.

(** The same heap with a payload pending. *)
Definition pendingHeap : Heap Inserter :=
  set_heapHd forkedHeap (set_pendingPayloadHash idleHd 2101).

(** The same heap on a store that refuses the write of the head header
    hash. *)
Definition refusingHeap : Heap Inserter :=
  set_heapTx restHeap
    {| HeaderCanonical := HeaderCanonical forkedTx;
       HeaderNumber := HeaderNumber forkedTx; Headers := Headers forkedTx;
       HeaderTD := HeaderTD forkedTx; BlockBody := BlockBody forkedTx;
       HeadHeaderKey := HeadHeaderKey forkedTx;
       HeadBlockKey := HeadBlockKey forkedTx;
       ForkchoiceHead := ForkchoiceHead forkedTx;
       ForkchoiceSafe := ForkchoiceSafe forkedTx;
       ForkchoiceFinalized := ForkchoiceFinalized forkedTx;
       SyncStageProgress := SyncStageProgress forkedTx;
       SyncStageUnwind := SyncStageUnwind forkedTx;
       ErigonVersionFinished := ErigonVersionFinished forkedTx;
       RawTransactionsRange := RawTransactionsRange forkedTx;
       ReadBlock := ReadBlock forkedTx;
       ioFault := fun op => match op with
                            | IoWriteHeadHeaderHash => Some (ErrIO 5)
                            | _ => None
                            end |}.

(** The store with the side fork and [B@101] known by their hashes, and
    the heap on it with [B] staged in the validator. *)
Definition knownForkTx : Tx :=
  set_HeaderNumber forkedTx
    (<[2100 := 100]>
       (<[2099 := 99]> (<[1010 := 101]> (HeaderNumber forkedTx)))).

Definition knownForkHeap : Heap Inserter := set_heapTx restHeap knownForkTx.

Definition stagedHeap : Heap Inserter := set_heapFv knownForkHeap withStagedB.

Definition headB : ForkChoiceMessage :=
  mkForkChoiceMessage 1010 zeroHash zeroHash.

Definition headA : ForkChoiceMessage := mkForkChoiceMessage 1000 990 980.

Definition headUnknown : ForkChoiceMessage :=
  mkForkChoiceMessage 5555 zeroHash zeroHash.

End PoSScenario.


(** ** Properties of the fork validator *)

Module EngineapiFacts.

Import Engineapi Scenario Properties.

Lemma IsCanonicalHash_true (tx : Tx) (a : Hash) :
  IsCanonicalHash tx a = Ok true ->
  exists n, HeaderNumber tx !! a = Some n /\ HeaderCanonical tx !! n = Some a.
Proof.
  unfold IsCanonicalHash, ReadHeaderNumber, ReadCanonicalHash, io.
  destruct (HeaderNumber tx !! a) as [n|] eqn:Hn; [|discriminate].
  destruct (ioFault tx _); [discriminate|].
  intros [= Hb]. apply andb_prop in Hb as [H1 H2].
  apply bool_decide_eq_true in H1, H2.
  exists n. split; [done|].
  destruct (HeaderCanonical tx !! n) as [c|]; simpl in *; congruence.
Qed.

Lemma assembleBackwards_found (h : Header) (fuel : nat)
    (cache : gmap Z forkSegment) (tx : Tx) :
  forall cur found u hs bs u' hs' bs',
    assembleBackwards fuel cache tx cur found u hs bs
    = Done (AssemblyFound u' hs' bs') ->
    cur = ParentHash (hd h hs) ->
    u = Uint64 (Uint64 (Number (hd h hs)) - 1) ->
    (found = true -> IsCanonicalHash tx cur = Ok true) ->
    u' = Uint64 (Uint64 (Number (hd h hs')) - 1)
    /\ IsCanonicalHash tx (ParentHash (hd h hs')) = Ok true.
Proof.
  induction fuel as [|fuel IH]; intros cur found u hs bs u' hs' bs' Hrun Hcur Hu Hf.
  - destruct found; simpl in Hrun; [|discriminate].
    injection Hrun as <- <- <-. subst cur. auto.
  - destruct found; simpl in Hrun.
    + injection Hrun as <- <- <-. subst cur. auto.
    + destruct (cache !! cur) as [sb|]; [|discriminate].
      destruct (HasBlockBody _ _ _) as [[]|]; try discriminate.
      destruct (IsCanonicalHash tx (ParentHash (header sb))) as [found'|] eqn:Hc;
        [|discriminate].
      eapply IH in Hrun; simpl; eauto.
      intros ->. exact Hc.
Qed.

(** What a call of [validateAndStorePayload] that returns has done. *)
Lemma validateAndStorePayload_returns (fv : ForkValidator) (tx : Overlay)
    (h : Header) (b : option RawBody) (u : Z) (hs : list Header)
    (bs : list RawBody) (st : PayloadStatus) (fv' : ForkValidator)
    (evs : list Event) :
  validateAndStorePayload fv tx h b u hs bs = Done (st, fv', evs) ->
  exists e rolled,
    evs = EvValidatePayload (overlayName tx) h b u hs bs e :: rolled
    /\ currentHeight fv' = currentHeight fv
    /\ validatePayload fv' = validatePayload fv
    /\ match e with
       | Some err =>
           st = mkPayloadStatus EngineStatus_INVALID (ParentHash h)
                  (Some err) None
           /\ extendingFork fv' = None
           /\ extendingForkHeadHash fv' = zeroHash
           /\ sideForksBlock fv' = sideForksBlock fv
           /\ rolled = match extendingFork fv with
                       | Some _ => [EvRollback TheExtendingFork]
                       | None => []
                       end
       | None =>
           rolled = []
           /\ validationError st = None
           /\ extendingForkHeadHash fv' = extendingForkHeadHash fv
           /\ (is_Some (extendingFork fv') <-> is_Some (extendingFork fv))
           /\ (sideForksBlock fv' = sideForksBlock fv
               \/ exists rawBody,
                    sideForksBlock fv'
                    = <[HeaderHash h := mkForkSegment h rawBody]>
                        (sideForksBlock fv))
       end.
Proof.
  unfold validateAndStorePayload.
  destruct (validatePayload fv) as [validate|] eqn:Hv; [|discriminate].
  destruct (deref fv tx) as [batch|] eqn:Hd; [|discriminate].
  destruct (validate batch h b u hs bs) as [batch' [err|]] eqn:Hcall.
  - intros [= <- <- <-]. eexists (Some err), _. split; [reflexivity|].
    destruct tx; simpl in *; split_and!; auto; try congruence.
    by rewrite Hd.
  - assert (Hext : is_Some (extendingFork (assign fv tx batch'))
                   <-> is_Some (extendingFork fv)).
    { destruct tx; simpl in *; [|done]. rewrite Hd. split; eauto. }
    assert (Hcur : currentHeight (assign fv tx batch') = currentHeight fv)
      by (destruct tx; reflexivity).
    assert (Hval : validatePayload (assign fv tx batch') = validatePayload fv)
      by (destruct tx; reflexivity).
    assert (Hhead : extendingForkHeadHash (assign fv tx batch')
                    = extendingForkHeadHash fv)
      by (destruct tx; reflexivity).
    assert (Hside : sideForksBlock (assign fv tx batch') = sideForksBlock fv)
      by (destruct tx; reflexivity).
    destruct b as [rawBody|].
    + intros [= <- <- <-]. exists None, []. simpl.
      rewrite Hside.
      split_and!; auto; try apply Hext; try congruence. right. eauto.
    + destruct (ReadBodyWithTransactions _ _ _) as [[bodyWithTxs|]|];
        [destruct (encodeTransactions _ _) as [encodedTxs|]|..];
        intros [= <- <- <-]; exists None, []; simpl;
        rewrite ?Hside; split_and!; auto; try apply Hext; try congruence.
      right. eauto.
Qed.

(** Every call of the callback that [ValidatePayload] makes: on which batch,
    with which arguments, and what an error of the callback leads to. *)
Lemma ValidatePayload_call (fuel : nat) (fv : ForkValidator) (tx : Tx)
    (h : Header) (b : option RawBody) (extendCanonical : bool)
    (st : PayloadStatus) (fv' : ForkValidator) (evs : list Event)
    (on : OverlayName) (hh : Header) (bb : option RawBody) (u : Z)
    (hs : list Header) (bs : list RawBody) (e : option Error) :
  ValidatePayload fuel fv tx h b extendCanonical = Done (st, fv', evs) ->
  EvValidatePayload on hh bb u hs bs e ∈ evs ->
  hh = h /\ bb = b
  /\ (if extendCanonical
      then on = TheExtendingFork /\ u = 0 /\ hs = [] /\ bs = []
      else on = TheBatch
           /\ u = (let reached := Uint64 (Uint64 (Number (hd h hs)) - 1) in
                   if bool_decide (reached = currentHeight fv)
                   then 0 else reached)
           /\ IsCanonicalHash tx (ParentHash (hd h hs)) = Ok true)
  /\ match e with
     | Some err =>
         st = mkPayloadStatus EngineStatus_INVALID (ParentHash h)
                (Some err) None
         /\ extendingFork fv' = None
         /\ extendingForkHeadHash fv' = zeroHash
         /\ (extendCanonical = true \/ is_Some (extendingFork fv) ->
             EvRollback TheExtendingFork ∈ evs)
     | None => validationError st = None
     end.
Proof.
  unfold ValidatePayload.
  destruct (validatePayload fv) as [validate|] eqn:Hv.
  2:{ intros [= <- <- <-] Hin. by apply elem_of_nil in Hin. }
  destruct (validatePayloadLocked _ _ _ _ _ _) as [[[st0 fv0] evs0]| |] eqn:Hl;
    try discriminate.
  intros [= <- <- <-] Hin. revert Hl. unfold validatePayloadLocked.
  destruct (sideForksBlock fv !! HeaderHash h).
  { intros [= <- <- <-]. by apply elem_of_nil in Hin. }
  destruct extendCanonical.
  - assert (Hgen : forall fv1 opened,
               is_Some (extendingFork fv1) ->
               opened <> EvValidatePayload on hh bb u hs bs e ->
               match validateAndStorePayload
                       (set_extendingForkHeadHash fv1 (HeaderHash h))
                       OnExtendingFork h b 0 [] [] with
               | Done (st, fv, evs) => Done (st, fv, opened :: evs)
               | Panics => Panics
               | OutOfFuel => OutOfFuel
               end = Done (st0, fv0, evs0) ->
               (hh = h /\ bb = b
                /\ (on = TheExtendingFork /\ u = 0 /\ hs = [] /\ bs = [])
                /\ match e with
                   | Some err =>
                       st0 = mkPayloadStatus EngineStatus_INVALID
                               (ParentHash h) (Some err) None
                       /\ extendingFork fv0 = None
                       /\ extendingForkHeadHash fv0 = zeroHash
                       /\ (true = true \/ is_Some (extendingFork fv) ->
                           EvRollback TheExtendingFork ∈ evs0)
                   | None => validationError st0 = None
                   end)).
    { intros fv1 opened [m Hm] Hop.
      destruct (validateAndStorePayload _ _ _ _ _ _ _)
        as [[[st1 fv2] evs1]| |] eqn:Hs; try discriminate.
      apply validateAndStorePayload_returns in Hs
        as (e1 & rolled & -> & _ & _ & Hres).
      intros [= <- <- <-].
      apply elem_of_cons in Hin as [Hin|Hin]; [congruence|].
      simpl in Hres. rewrite Hm in Hres.
      assert (Hcall : EvValidatePayload on hh bb u hs bs e
                      = EvValidatePayload TheExtendingFork h b 0 [] [] e1).
      { apply elem_of_cons in Hin as [Hin|Hin]; [done|].
        destruct e1 as [err1|].
        - destruct Hres as (_ & _ & _ & _ & ->).
          apply list_elem_of_singleton in Hin. discriminate.
        - destruct Hres as (-> & _). by apply elem_of_nil in Hin. }
      injection Hcall as Ho Hh Hb Hu Hhs Hbs He;
      subst on hh bb u hs bs e.
      split_and!; auto. destruct e1 as [err1|]; [|by destruct Hres as (_ & ? & _)].
      destruct Hres as (-> & ? & ? & _ & ->).
      split_and!; auto. intros _. repeat constructor. }
    destruct (extendingFork fv) as [m|] eqn:Hm; intros Hrun;
      eapply Hgen in Hrun; simpl; eauto; discriminate.
  - case_bool_decide. { intros [= <- <- <-]. by apply elem_of_nil in Hin. }
    destruct (IsCanonicalHash tx (ParentHash h)) as [found|] eqn:Hc.
    2:{ intros [= <- <- <-]. by apply elem_of_nil in Hin. }
    destruct (assembleBackwards _ _ _ _ _ _ _ _) as [[| |u0 hs0 bs0]| |] eqn:Ha;
      try discriminate;
      try (intros [= <- <- <-]; by apply elem_of_nil in Hin).
    eapply (assembleBackwards_found h) in Ha as [Hu0 Hcan]; simpl; eauto;
      [|by intros ->].
    match goal with
    | |- context [validateAndStorePayload ?f ?o h b ?uu hs0 bs0] =>
        destruct (validateAndStorePayload f o h b uu hs0 bs0)
          as [[[st1 fv1] evs1]| |] eqn:Hs
    end; try discriminate.
    apply validateAndStorePayload_returns in Hs
      as (e1 & rolled & -> & _ & _ & Hres).
    intros [= <- <- <-].
    apply elem_of_cons in Hin as [Hin|Hin]; [discriminate|].
    simpl in Hin.
    assert (Hcall : EvValidatePayload on hh bb u hs bs e
                    = EvValidatePayload TheBatch h b
                        (if bool_decide (u0 = currentHeight fv)
                         then 0 else u0) hs0 bs0 e1).
    { apply elem_of_cons in Hin as [Hin|Hin]; [done|].
      exfalso. apply elem_of_app in Hin as [Hin|Hin].
      - destruct e1 as [err1|].
        + destruct Hres as (_ & _ & _ & _ & ->).
          destruct (extendingFork fv);
            [apply list_elem_of_singleton in Hin; discriminate
            |by apply elem_of_nil in Hin].
        + destruct Hres as (-> & _). by apply elem_of_nil in Hin.
      - apply list_elem_of_singleton in Hin. discriminate. }
    injection Hcall as Ho Hh Hb Hu Hhs Hbs He;
      subst on hh bb u hs bs e.
    split_and!; auto. { by rewrite Hu0. }
    destruct e1 as [err1|]; [|by destruct Hres as (_ & ? & _)].
    destruct Hres as (-> & ? & ? & _ & ->).
    split_and!; auto. intros [|[m Hsome]]; [discriminate|].
    rewrite Hsome. repeat constructor.
Qed.


(** *** Runs that return *)

(** In a cache whose segments carry larger numbers than their cached
    parents, as the segments of a chain do, the backward assembly ends
    within as many iterations as the number of the first segment allows. *)
Lemma assembleBackwards_enough_fuel (cache : gmap Z forkSegment) (tx : Tx) :
  (forall hash sb sp,
     cache !! hash = Some sb ->
     cache !! ParentHash (header sb) = Some sp ->
     Uint64 (Number (header sp)) < Uint64 (Number (header sb))) ->
  forall fuel cur found u hs bs,
    (forall sb, cache !! cur = Some sb ->
                Uint64 (Number (header sb)) < Z.of_nat fuel) ->
    assembleBackwards (S fuel) cache tx cur found u hs bs <> OutOfFuel.
Proof.
  intros Hdecr fuel.
  induction fuel as [|fuel IH]; intros cur found u hs bs Hcur;
    destruct found; simpl; try discriminate;
    destruct (cache !! cur) as [sb|] eqn:Hsb; try discriminate.
  - specialize (Hcur sb eq_refl). unfold Uint64 in Hcur.
    pose proof (Z.mod_pos_bound (Number (header sb)) (2 ^ 64)). lia.
  - destruct (HasBlockBody _ _ _) as [[]|]; try discriminate.
    destruct (IsCanonicalHash tx (ParentHash (header sb))) as [found|];
      try discriminate.
    apply IH. intros sp Hsp.
    specialize (Hdecr cur sb sp Hsb Hsp). specialize (Hcur sb eq_refl). lia.
Qed.

Lemma assembleBackwards_never_panics (fuel : nat)
    (cache : gmap Z forkSegment) (tx : Tx) :
  forall cur found u hs bs,
    assembleBackwards fuel cache tx cur found u hs bs <> Panics.
Proof.
  induction fuel as [|fuel IH]; intros cur found u hs bs;
    destruct found; simpl; try discriminate.
  destruct (cache !! cur) as [sb|]; try discriminate.
  destruct (HasBlockBody _ _ _) as [[]|]; try discriminate.
  destruct (IsCanonicalHash tx (ParentHash (header sb))); try discriminate.
  apply IH.
Qed.

Lemma validateAndStorePayload_total (fv : ForkValidator) (tx : Overlay)
    (h : Header) (b : option RawBody) (u : Z) (hs : list Header)
    (bs : list RawBody) :
  is_Some (validatePayload fv) ->
  is_Some (deref fv tx) ->
  exists r, validateAndStorePayload fv tx h b u hs bs = Done r.
Proof.
  intros [validate Hv] [batch Hb]. unfold validateAndStorePayload.
  rewrite Hv, Hb. repeat case_match; eauto.
Qed.

(** [ValidatePayload] returns whenever its backward assembly ends; on the
    extending path and with enough fuel for the cached chain it always
    does. *)
Lemma ValidatePayload_returns (fuel : nat) (fv : ForkValidator) (tx : Tx)
    (h : Header) (b : option RawBody) (extendCanonical : bool) :
  (extendCanonical = false ->
   (forall hash sb sp,
      sideForksBlock fv !! hash = Some sb ->
      sideForksBlock fv !! ParentHash (header sb) = Some sp ->
      Uint64 (Number (header sp)) < Uint64 (Number (header sb)))
   /\ (forall sb, sideForksBlock fv !! ParentHash h = Some sb ->
                  Uint64 (Number (header sb)) < Z.of_nat fuel)) ->
  exists r, ValidatePayload (S fuel) fv tx h b extendCanonical = Done r.
Proof.
  intros Hchain. unfold ValidatePayload.
  destruct (validatePayload fv) as [validate|] eqn:Hv; [|eauto].
  assert (Hlocked : exists r,
             validatePayloadLocked (S fuel) fv tx h b extendCanonical
             = Done r).
  { unfold validatePayloadLocked.
    destruct (sideForksBlock fv !! HeaderHash h); [eauto|].
    destruct extendCanonical.
    - destruct (extendingFork fv) as [m|];
        match goal with
        | |- context [validateAndStorePayload ?f ?o h b 0 [] []] =>
            destruct (validateAndStorePayload_total f o h b 0 [] [])
              as [[[st1 fv1] evs1] ->]; simpl; eauto
        end.
    - destruct (Hchain eq_refl) as [Hdecr Hfirst].
      case_bool_decide; [eauto|].
      destruct (IsCanonicalHash tx (ParentHash h)) as [found|]; [|eauto].
      pose proof (assembleBackwards_enough_fuel (sideForksBlock fv) tx Hdecr
                    fuel (ParentHash h) found
                    (Uint64 (Uint64 (Number h) - 1)) [] [] Hfirst) as Hfuel.
      pose proof (assembleBackwards_never_panics (S fuel) (sideForksBlock fv)
                    tx (ParentHash h) found
                    (Uint64 (Uint64 (Number h) - 1)) [] []) as Hpanic.
      destruct (assembleBackwards (S fuel) _ _ _ _ _ _ _)
        as [[| |u0 hs0 bs0]| |]; try done; eauto.
      match goal with
      | |- context [validateAndStorePayload ?f ?o h b ?uu hs0 bs0] =>
          destruct (validateAndStorePayload_total f o h b uu hs0 bs0)
            as [[[st1 fv1] evs1] ->]; simpl; eauto
      end. }
  destruct Hlocked as [[[st0 fv0] evs0] ->]. eauto.
Qed.


(** *** C1: the unwind point of a side-fork replay *)

(** C1, as stated, fails: replaying [Z@101] over the cached [X@99 <- Y@100]
    stops at the canonical block of height 98 and hands the callback the
    unwind point 98, not 99. *)
Lemma unwind_point_is_not_height_plus_one :
  ~ unwind_point_is_height_plus_one.
Proof.
  intros Hclaim.
  specialize (Hclaim 3%nat (withSideFork validatesAll) chainTx headerZ
                (Some someBody)).
  edestruct (ValidatePayload 3 (withSideFork validatesAll) chainTx headerZ
               (Some someBody) false) as [[[st fv'] evs]| |] eqn:Hrun;
    try (vm_compute in Hrun; discriminate).
  specialize (Hclaim st fv' evs TheBatch headerZ (Some someBody) 98
                [headerX; headerY] [someBody; someBody] None 98 eq_refl).
  vm_compute in Hrun. injection Hrun as <- <- <-.
  assert (H98 : (98 : Z) = 99); [|discriminate].
  apply Hclaim; [repeat constructor|reflexivity|reflexivity].
Qed.

(** C1 (amended): when the side-fork walk of [ValidatePayload] stops, the
    ancestor it stopped at is canonical at its height [n], and the unwind
    point passed to the callback is [n] itself (the number of the oldest
    replayed block minus one), except that it is 0 when [n] is the current
    height. *)
Theorem ValidatePayload_unwind_point (fuel : nat) (fv : ForkValidator)
    (tx : Tx) (h : Header) (b : option RawBody) (st : PayloadStatus)
    (fv' : ForkValidator) (evs : list Event) (on : OverlayName) (hh : Header)
    (bb : option RawBody) (u : Z) (hs : list Header) (bs : list RawBody)
    (e : option Error) (n : Z) :
  ValidatePayload fuel fv tx h b false = Done (st, fv', evs) ->
  EvValidatePayload on hh bb u hs bs e ∈ evs ->
  HeaderNumber tx !! ParentHash (hd h hs) = Some n ->
  Number (hd h hs) = n + 1 ->
  0 <= n < 2 ^ 64 - 1 ->
  HeaderCanonical tx !! n = Some (ParentHash (hd h hs))
  /\ u = (if bool_decide (n = currentHeight fv) then 0 else n).
Proof.
  intros Hrun Hin Hnum Hchild Hrange.
  destruct (ValidatePayload_call _ _ _ _ _ _ _ _ _ _ _ _ _ _ _ _ Hrun Hin)
    as (_ & _ & (_ & Hu & Hcan) & _).
  apply IsCanonicalHash_true in Hcan as (n' & Hn' & Hcanon).
  assert (n' = n) as -> by congruence.
  split; [exact Hcanon|].
  rewrite Hu, Hchild. unfold Uint64. simpl.
  rewrite (Z.mod_small (n + 1)) by lia.
  replace (n + 1 - 1) with n by lia.
  rewrite (Z.mod_small n) by lia. reflexivity.
Qed.

Lemma ValidatePayload_unwind_point_witness :
  HeaderCanonical chainTx !! 98 = Some (ParentHash headerX)
  /\ 98 = (if bool_decide (98 = currentHeight (withSideFork validatesAll))
           then 0 else 98).
Proof.
  eapply (ValidatePayload_unwind_point 3 (withSideFork validatesAll) chainTx
            headerZ (Some someBody) _ _ _ TheBatch headerZ (Some someBody) 98
            [headerX; headerY] [someBody; someBody] None 98).
  - vm_compute. reflexivity.
  - apply list_elem_of_further, list_elem_of_here.
  - reflexivity.
  - reflexivity.
  - lia.
Defined.

(** *** C2: an error of the callback *)

(** C2: whenever the callback is called by [ValidatePayload] (on either
    path) and returns an error, the status is INVALID with the parent hash
    as latest valid hash, the extending fork is nil and its head hash zero
    afterwards, and the extending fork that existed was rolled back. *)
Theorem ValidatePayload_callback_error (fuel : nat) (fv : ForkValidator)
    (tx : Tx) (h : Header) (b : option RawBody) (extendCanonical : bool)
    (st : PayloadStatus) (fv' : ForkValidator) (evs : list Event)
    (on : OverlayName) (hh : Header) (bb : option RawBody) (u : Z)
    (hs : list Header) (bs : list RawBody) (err : Error) :
  ValidatePayload fuel fv tx h b extendCanonical = Done (st, fv', evs) ->
  EvValidatePayload on hh bb u hs bs (Some err) ∈ evs ->
  status st = EngineStatus_INVALID
  /\ latestValidHash st = ParentHash h
  /\ validationError st = Some err
  /\ extendingFork fv' = None
  /\ extendingForkHeadHash fv' = zeroHash
  /\ (extendCanonical = true \/ is_Some (extendingFork fv) ->
      EvRollback TheExtendingFork ∈ evs).
Proof.
  intros Hrun Hin.
  destruct (ValidatePayload_call _ _ _ _ _ _ _ _ _ _ _ _ _ _ _ _ Hrun Hin)
    as (_ & _ & _ & -> & Hnil & Hzero & Hrolled).
  split_and!; auto.
Qed.

Lemma ValidatePayload_callback_error_witness :
  exists st fv' evs,
    ValidatePayload 0 (NewForkValidator 100 rejectsAll) chainTx headerB
      (Some someBody) true = Done (st, fv', evs)
    /\ status st = EngineStatus_INVALID
    /\ latestValidHash st = ParentHash headerB
    /\ validationError st = Some (ErrValidation 1)
    /\ extendingFork fv' = None
    /\ extendingForkHeadHash fv' = zeroHash
    /\ (true = true \/ is_Some (extendingFork (NewForkValidator 100 rejectsAll))
        -> EvRollback TheExtendingFork ∈ evs).
Proof.
  do 3 eexists. split; [vm_compute; reflexivity|].
  eapply (ValidatePayload_callback_error 0 (NewForkValidator 100 rejectsAll)
            chainTx headerB (Some someBody) true _ _ _ TheExtendingFork
            headerB (Some someBody) 0 [] [] (ErrValidation 1)).
  - vm_compute. reflexivity.
  - apply list_elem_of_further, list_elem_of_here.
Defined.

(** *** C3: the depth bound of the side-fork cache *)

Lemma clean_withinForkDepth (fv : ForkValidator) : withinForkDepth (clean fv).
Proof.
  intros hash sb Hsb. unfold clean in Hsb. simpl in Hsb.
  apply map_lookup_filter_Some in Hsb as [_ Hnear]. simpl in Hnear.
  change (currentHeight (clean fv)) with (currentHeight fv). lia.
Qed.

(** [ValidatePayload], when a callback is configured, and
    [TryAddingPoWBlock] end by pruning. *)
Lemma ValidatePayload_withinForkDepth (fuel : nat) (fv : ForkValidator)
    (tx : Tx) (h : Header) (b : option RawBody) (extendCanonical : bool)
    (st : PayloadStatus) (fv' : ForkValidator) (evs : list Event) :
  is_Some (validatePayload fv) ->
  ValidatePayload fuel fv tx h b extendCanonical = Done (st, fv', evs) ->
  withinForkDepth fv'.
Proof.
  intros [validate Hv]. unfold ValidatePayload. rewrite Hv.
  destruct (validatePayloadLocked _ _ _ _ _ _) as [[[st0 fv0] evs0]| |];
    try discriminate.
  intros [= <- <- <-]. apply clean_withinForkDepth.
Qed.

Lemma TryAddingPoWBlock_withinForkDepth (fv : ForkValidator) (block : Block) :
  withinForkDepth (TryAddingPoWBlock fv block).
Proof. apply clean_withinForkDepth. Qed.

(** Every operation but [NotifyCurrentHeight] keeps the bound. *)
Lemma perform_withinForkDepth (fuel : nat) (fv : ForkValidator) (c : Call)
    (fv' : ForkValidator) :
  withinForkDepth fv ->
  (forall height, c <> CallNotifyCurrentHeight height) ->
  perform fuel fv c = Done fv' ->
  withinForkDepth fv'.
Proof.
  intros Hin Hcall. destruct c as [tx h b ext|tx|tx acc|height|block]; simpl.
  - destruct (ValidatePayload fuel fv tx h b ext) as [[[st fv0] evs]| |] eqn:Hrun;
      try discriminate.
    intros [= <-]. destruct (validatePayload fv) as [validate|] eqn:Hv.
    + eapply ValidatePayload_withinForkDepth; [|exact Hrun]. rewrite Hv. eauto.
    + unfold ValidatePayload in Hrun. rewrite Hv in Hrun.
      injection Hrun as <- <- <-. exact Hin.
  - unfold FlushExtendingFork.
    destruct (extendingFork fv); [|discriminate].
    destruct (ioFault tx IoFlush); intros [= <-]; exact Hin.
  - unfold ClearWithUnwind.
    destruct (extendingFork fv) as [m|] eqn:Hm;
      [destruct acc;
       [destruct (sideForksBlock fv !! extendingForkHeadHash fv);
        [case_bool_decide;
         [destruct (notifyTxPool _ _) as [[err evs]| |]; try discriminate|]
        |]
       |]
      |];
      intros [= <-]; exact Hin.
  - by destruct (Hcall height).
  - intros [= <-]. apply TryAddingPoWBlock_withinForkDepth.
Qed.


(** C3 (what the code does): [NotifyCurrentHeight] moves the reference
    height and does not prune.  After [A@100] is cached at height 100, a
    notification of height 200 leaves the segment in the cache at distance
    100 from the current height, and the next [ValidatePayload] of that
    header answers VALID from the stale segment. *)
Theorem NotifyCurrentHeight_keeps_stale_segment :
  let fv := TryAddingPoWBlock (NewForkValidator 100 validatesAll)
              (mkBlock headerA someBody) in
  let fv' := (NotifyCurrentHeight fv 200).1 in
  withinForkDepth fv
  /\ sideForksBlock fv' !! HeaderHash headerA
     = Some (mkForkSegment headerA someBody)
  /\ AbsoluteDifference (currentHeight fv') (Uint64 (Number headerA)) = 100
  /\ ~ withinForkDepth fv'
  /\ exists fv'',
       ValidatePayload 0 fv' chainTx headerA None false
       = Done (mkPayloadStatus EngineStatus_VALID (HeaderHash headerA)
                 None None, fv'', []).
Proof.
  intros fv fv'. split; [apply TryAddingPoWBlock_withinForkDepth|].
  assert (Hstale : sideForksBlock fv' !! HeaderHash headerA
                   = Some (mkForkSegment headerA someBody))
    by (vm_compute; reflexivity).
  split_and!; [exact Hstale|reflexivity| |eexists; vm_compute; reflexivity].
  intros Hbound. specialize (Hbound _ _ Hstale). vm_compute in Hbound.
  by apply Hbound.
Qed.

(** *** C5: the extending fork and its head hash *)

Lemma paired_cleared (fv : ForkValidator) :
  extendingFork fv = None -> extendingForkHeadHash fv = zeroHash -> paired fv.
Proof.
  intros Hnil Hzero. unfold paired. rewrite Hnil, Hzero.
  split; [intros [? [=]]|congruence].
Qed.

Lemma validatePayloadLocked_paired (fuel : nat) (fv : ForkValidator)
    (tx : Tx) (h : Header) (b : option RawBody) (extendCanonical : bool)
    (st : PayloadStatus) (fv' : ForkValidator) (evs : list Event) :
  paired fv ->
  HeaderHash h <> zeroHash ->
  validatePayloadLocked fuel fv tx h b extendCanonical = Done (st, fv', evs) ->
  paired fv'.
Proof.
  intros Hp Hh. unfold validatePayloadLocked.
  assert (Hstore : forall fv1 o u hs bs st1 fv2 evs1,
             paired fv1 ->
             validateAndStorePayload fv1 o h b u hs bs = Done (st1, fv2, evs1) ->
             paired fv2).
  { intros fv1 o u hs bs st1 fv2 evs1 Hp1 Hs.
    apply validateAndStorePayload_returns in Hs as (e & rolled & _ & _ & _ & Hres).
    destruct e as [err|].
    - destruct Hres as (_ & ? & ? & _). by apply paired_cleared.
    - destruct Hres as (_ & _ & Hhead & Hext & _).
      unfold paired in *. rewrite Hhead, Hext. exact Hp1. }
  destruct (sideForksBlock fv !! HeaderHash h); [by intros [= <- <- <-]|].
  destruct extendCanonical.
  - assert (Hgen : forall m,
               paired (set_extendingForkHeadHash
                         (set_extendingFork fv (Some m)) (HeaderHash h))).
    { intros m. unfold paired. simpl. split; eauto. }
    destruct (extendingFork fv) as [m|];
      match goal with
      | |- context [validateAndStorePayload ?f ?o h b 0 [] []] =>
          destruct (validateAndStorePayload f o h b 0 [] [])
            as [[[st1 fv1] evs1]| |] eqn:Hs
      end; try discriminate;
      intros [= <- <- <-]; eapply Hstore in Hs; eauto.
  - case_bool_decide; [by intros [= <- <- <-]|].
    destruct (IsCanonicalHash tx (ParentHash h)); [|by intros [= <- <- <-]].
    destruct (assembleBackwards _ _ _ _ _ _ _ _) as [[| |u0 hs0 bs0]| |];
      try discriminate; try by intros [= <- <- <-].
    match goal with
    | |- context [validateAndStorePayload ?f ?o h b ?uu hs0 bs0] =>
        destruct (validateAndStorePayload f o h b uu hs0 bs0)
          as [[[st1 fv1] evs1]| |] eqn:Hs
    end; try discriminate.
    intros [= <- <- <-]. eapply Hstore in Hs; eauto.
Qed.

(** C5: each operation of the validator that returns leaves the extending
    fork non-nil exactly when its head hash is non-zero, provided it was so
    before and the header under validation has a non-zero hash. *)
Theorem perform_paired (fuel : nat) (fv : ForkValidator) (c : Call)
    (fv' : ForkValidator) :
  paired fv ->
  hashed c ->
  perform fuel fv c = Done fv' ->
  paired fv'.
Proof.
  intros Hp Hh. destruct c as [tx h b ext|tx|tx acc|height|block]; simpl.
  - unfold ValidatePayload.
    destruct (validatePayload fv); [|by intros [= <-]].
    destruct (validatePayloadLocked _ _ _ _ _ _) as [[[st0 fv0] evs0]| |] eqn:Hl;
      try discriminate.
    intros [= <-]. eapply validatePayloadLocked_paired in Hl; eauto.
  - unfold FlushExtendingFork.
    destruct (extendingFork fv); [|discriminate].
    destruct (ioFault tx IoFlush); intros [= <-]; [exact Hp|].
    by apply paired_cleared.
  - unfold ClearWithUnwind.
    destruct (extendingFork fv) as [m|] eqn:Hm;
      [destruct acc;
       [destruct (sideForksBlock fv !! extendingForkHeadHash fv);
        [case_bool_decide;
         [destruct (notifyTxPool _ _) as [[err evs]| |]; try discriminate|]
        |]
       |]
      |];
      intros [= <-]; by apply paired_cleared.
  - intros [= <-]. by apply paired_cleared.
  - intros [= <-]. exact Hp.
Qed.

Lemma perform_paired_witness :
  paired (set_extendingFork
            (set_extendingForkHeadHash
               (storeSegment (NewForkValidator 100 validatesAll) headerB
                  someBody)
               (HeaderHash headerB))
            (Some (NewMemoryBatch chainTx))).
Proof.
  apply (perform_paired 0 (NewForkValidator 100 validatesAll)
           (CallValidatePayload chainTx headerB (Some someBody) true)).
  - apply paired_cleared; reflexivity.
  - simpl. unfold zeroHash. discriminate.
  - vm_compute. reflexivity.
Defined.

(** *** C4: discarding the staged block *)




End EngineapiFacts.

(** ** Properties of the headers and finish stages *)

Module StagedsyncFacts.

Import Engineapi Stagedsync Scenario Properties.

(** *** C9: the forkchoice pointers *)

Lemma IsCanonicalHash_not_canonical (tx : Tx) (hash : Hash) :
  ~ canonical_in tx hash -> IsCanonicalHash tx hash <> Ok true.
Proof.
  intros Hnot Hyes. apply Hnot.
  unfold IsCanonicalHash, ReadHeaderNumber, ReadCanonicalHash, io in Hyes.
  destruct (HeaderNumber tx !! hash) as [n|] eqn:Hn; [|discriminate].
  destruct (ioFault tx _); [discriminate|].
  injection Hyes as Hb. apply andb_prop in Hb as [H1 H2].
  apply bool_decide_eq_true in H1, H2.
  exists n. split; [done|].
  destruct (HeaderCanonical tx !! n); simpl in *; congruence.
Qed.

(** C9: when the safe or the finalized hash is non-zero and not canonical,
    [writeForkChoiceHashes] returns false and the transaction is as it was:
    none of the three pointers is written.  Whether it writes does not
    depend on the head hash, and when it writes, the head pointer is the
    head hash of the message, canonical or not. *)
Theorem writeForkChoiceHashes_atomic (forkChoice : ForkChoiceMessage)
    (tx : Tx) :
  ((SafeBlockHash forkChoice <> zeroHash
    /\ ~ canonical_in tx (SafeBlockHash forkChoice))
   \/ (FinalizedBlockHash forkChoice <> zeroHash
       /\ ~ canonical_in tx (FinalizedBlockHash forkChoice)) ->
   exists err, writeForkChoiceHashes forkChoice tx = (false, err, tx))
  /\ (forall head,
        (writeForkChoiceHashes
           (mkForkChoiceMessage head (SafeBlockHash forkChoice)
              (FinalizedBlockHash forkChoice)) tx).1.1
        = (writeForkChoiceHashes forkChoice tx).1.1)
  /\ (forall err tx',
        writeForkChoiceHashes forkChoice tx = (true, err, tx') ->
        err = None
        /\ ForkchoiceHead tx' = HeadBlockHash forkChoice).
Proof.
  unfold writeForkChoiceHashes. split_and!.
  - intros [[Hnz Hnot]|[Hnz Hnot]];
      apply IsCanonicalHash_not_canonical in Hnot.
    + rewrite bool_decide_eq_true_2 by exact Hnz.
      destruct (IsCanonicalHash tx (SafeBlockHash forkChoice)) as [[]|];
        [done|eauto|eauto].
    + rewrite (bool_decide_eq_true_2 (FinalizedBlockHash forkChoice <> _))
        by exact Hnz.
      destruct (if bool_decide (SafeBlockHash forkChoice <> zeroHash)
                then IsCanonicalHash tx (SafeBlockHash forkChoice)
                else Ok true) as [[]|]; [|eauto|eauto].
      destruct (IsCanonicalHash tx (FinalizedBlockHash forkChoice)) as [[]|];
        [done|eauto|eauto].
  - intros head. simpl.
    repeat (case_bool_decide || case_match); reflexivity.
  - intros err tx'.
    repeat (case_bool_decide || case_match);
      intros [= <- <-]; try discriminate; split; reflexivity.
Qed.

Lemma writeForkChoiceHashes_atomic_witness :
  exists err,
    writeForkChoiceHashes (mkForkChoiceMessage 1000 2099 980) chainTx
    = (false, err, chainTx).
Proof.
  apply (writeForkChoiceHashes_atomic
           (mkForkChoiceMessage 1000 2099 980) chainTx).
  left. split; [discriminate|].
  intros (n & Hn & _). vm_compute in Hn. discriminate.
Defined.

(** *** C10: the finish stage without new execution progress *)

(** C10: when the execution stage height read from the transaction is at
    most the block number the finish stage has recorded, [FinishForward]
    returns nil and does nothing: the transaction, the database, the fork
    validator and the head channel are as they were, and none of the steps
    (head-block hash, stage progress, [NotifyCurrentHeight], publication)
    is taken. *)
Theorem FinishForward_no_progress (s : StageState) (tx : option Tx)
    (cfg : FinishCfg) (initialCycle : bool) (opened : Tx)
    (executionAt : Z) :
  match tx with
  | Some tx => tx = opened
  | None => BeginRw (finishDb cfg) = Ok opened
  end ->
  ExecutionAt s opened = Ok executionAt ->
  executionAt <= BlockNumber s ->
  FinishForward s tx cfg initialCycle = Done (mkFinished None tx cfg []).
Proof.
  intros Hopen Hexec Hle. unfold FinishForward, finishForwardTx.
  destruct tx as [tx|].
  - subst tx. rewrite Hexec.
    rewrite bool_decide_eq_true_2 by exact Hle. reflexivity.
  - rewrite Hopen, Hexec.
    rewrite bool_decide_eq_true_2 by exact Hle. reflexivity.
Qed.

Lemma FinishForward_no_progress_witness :
  FinishForward finishState (Some chainTx) sampleCfg true
  = Done (mkFinished None (Some chainTx) sampleCfg []).
Proof.
  apply (FinishForward_no_progress finishState (Some chainTx) sampleCfg true
           chainTx 100).
  - reflexivity.
  - reflexivity.
  - simpl. lia.
Defined.

(** *** C7: the unwind of the headers stage *)

Lemma headersUnwindTx_rows (u : UnwindState) (s : StageState) (tx : Tx)
    (hd0 : HeaderDownload) (test : bool) (tx' : Tx) (hd' : HeaderDownload) :
  headersUnwindTx u s tx hd0 test = (None, tx', hd') ->
  HeaderCanonical tx'
  = filter (fun kv : Z * Z => kv.1 < Uint64 (UnwindPoint u + 1))
      (HeaderCanonical tx)
  /\ Headers tx' = Headers tx
  /\ HeaderTD tx' = HeaderTD tx.
Proof.
  unfold headersUnwindTx, TruncateCanonicalHash, WriteHeadHeaderHash,
    UnwindDone, Update, SaveStageUnwind, SaveStageProgress, io.
  intros Hrun.
  repeat (case_match; simplify_eq; simpl in *; try done).
Qed.

(** C7: after [HeadersUnwind] to the unwind point [u] has returned nil, no
    canonical-hash entry is left at a height above [u]; the header rows and
    the total-difficulty rows are the same as before, at every height; and
    the canonical-hash entries up to [u] are kept. *)
Theorem HeadersUnwind_truncates_canonical (u : UnwindState) (s : StageState)
    (tx : option Tx) (cfg : HeadersCfg) (test : bool) :
  let before := txBefore tx (db cfg) in
  let after := txAfter (HeadersUnwind u s tx cfg test) in
  unwindErr (HeadersUnwind u s tx cfg test) = None ->
  0 <= UnwindPoint u < 2 ^ 64 ->
  (forall n, UnwindPoint u < n -> HeaderCanonical after !! n = None)
  /\ Headers after = Headers before
  /\ HeaderTD after = HeaderTD before
  /\ (UnwindPoint u < 2 ^ 64 - 1 ->
      forall n, n <= UnwindPoint u ->
                HeaderCanonical after !! n = HeaderCanonical before !! n).
Proof.
  intros before after Herr Hrange.
  assert (Hrows : HeaderCanonical after
                  = filter (fun kv : Z * Z =>
                              kv.1 < Uint64 (UnwindPoint u + 1))
                      (HeaderCanonical before)
                  /\ Headers after = Headers before
                  /\ HeaderTD after = HeaderTD before).
  { subst before after. revert Herr. unfold HeadersUnwind, txAfter, txBefore.
    destruct tx as [tx|].
    - destruct (headersUnwindTx u s tx (hd cfg) test) as [[err tx'] hd'] eqn:Hrun.
      simpl. intros ->. by apply headersUnwindTx_rows in Hrun.
    - unfold BeginRw. destruct (beginFault (db cfg)); [discriminate|].
      destruct (headersUnwindTx u s (committed (db cfg)) (hd cfg) test)
        as [[err tx'] hd'] eqn:Hrun.
      destruct err; [discriminate|].
      unfold Commit, io. destruct (ioFault tx' IoCommit); [discriminate|].
      simpl. intros _. by apply headersUnwindTx_rows in Hrun. }
  destruct Hrows as (Hcanon & Hheaders & Htd).
  assert (Hfrom : Uint64 (UnwindPoint u + 1) <= UnwindPoint u + 1).
  { unfold Uint64. apply Z.mod_le; lia. }
  split_and!; auto.
  - intros n Hn. rewrite Hcanon. apply map_lookup_filter_None. right.
    intros x _. simpl. lia.
  - intros Hmax n Hn. rewrite Hcanon.
    assert (Hsmall : Uint64 (UnwindPoint u + 1) = UnwindPoint u + 1)
      by (unfold Uint64; apply Z.mod_small; lia).
    destruct (HeaderCanonical before !! n) as [x|] eqn:Hx.
    + apply map_lookup_filter_Some. split; [done|]. simpl. lia.
    + apply map_lookup_filter_None. by left.
Qed.

Lemma HeadersUnwind_truncates_canonical_witness :
  (forall n, 98 < n ->
     HeaderCanonical
       (txAfter (HeadersUnwind unwindTo98 headersState (Some chainTx)
                   headersCfg false)) !! n = None)
  /\ Headers (txAfter (HeadersUnwind unwindTo98 headersState (Some chainTx)
                         headersCfg false)) = Headers chainTx
  /\ HeaderTD (txAfter (HeadersUnwind unwindTo98 headersState (Some chainTx)
                          headersCfg false)) = HeaderTD chainTx
  /\ (98 < 2 ^ 64 - 1 ->
      forall n, n <= 98 ->
        HeaderCanonical
          (txAfter (HeadersUnwind unwindTo98 headersState (Some chainTx)
                      headersCfg false)) !! n
        = HeaderCanonical chainTx !! n).
Proof.
  apply (HeadersUnwind_truncates_canonical unwindTo98 headersState
           (Some chainTx) headersCfg false).
  - vm_compute. reflexivity.
  - simpl. lia.
Defined.

(** The unwind on a bad block, in test mode: [A@100] is reported bad, the
    canonical markers above 99 go, and the heaviest header that is not bad
    becomes the head. *)
Example HeadersUnwind_bad_block :
  let r := HeadersUnwind unwindBadA headersState (Some chainTx) headersCfg
             true in
  unwindErr r = None
  /\ badHeaders (hd (unwindCfg r)) = {[ 1000 ]}
  /\ HeaderCanonical (txAfter r) = {[ 98 := 980; 99 := 990 ]}
  /\ HeadHeaderKey (txAfter r) = 990
  /\ SyncStageProgress (txAfter r) !! StageHeaders = Some 99.
Proof. vm_compute. split_and!; reflexivity. Qed.

(** *** C6: canonical fixup *)

Lemma ancestorAt_headers (tx1 tx : Tx) :
  Headers tx1 = Headers tx ->
  forall k hash height,
    ancestorAt tx1 hash height k = ancestorAt tx hash height k.
Proof.
  intros Hh k. induction k as [|k IH]; intros hash height; simpl; [done|].
  rewrite Hh. destruct (Headers tx !! (height, hash)); [apply IH|done].
Qed.

Lemma set_HeaderCanonical_same (tx : Tx) :
  tx = set_HeaderCanonical tx (HeaderCanonical tx).
Proof. by destruct tx. Qed.

(** The loop of [fixCanonicalChain], entered at a height the walk has not
    wrapped around: [w] levels are written, from [height] downwards, each
    with the hash of the ancestor of that level, none of which was the
    canonical entry of its level; nothing else changes; and a walk that
    ends without error has found the canonical entry of the next level
    equal to the ancestor of that level. *)
Lemma fixCanonicalLoop_walk (fuel : nat) :
  forall tx hash height err tx',
    fixCanonicalLoop fuel tx hash height = Done (err, tx') ->
    0 <= height < 2 ^ 64 ->
    rootedAtGenesis tx ->
    (height = 0 -> HeaderCanonical tx !! 0 = Some hash) ->
    tx' = set_HeaderCanonical tx (HeaderCanonical tx')
    /\ exists w : nat,
         Z.of_nat w <= height
         /\ (forall k : nat, (k < w)%nat ->
               exists a,
                 ancestorAt tx hash height k = Some a
                 /\ default zeroHash
                      (HeaderCanonical tx !! (height - Z.of_nat k)) <> a
                 /\ HeaderCanonical tx' !! (height - Z.of_nat k) = Some a)
         /\ (forall n, n > height \/ n <= height - Z.of_nat w ->
               HeaderCanonical tx' !! n = HeaderCanonical tx !! n)
         /\ (err = None ->
             exists a,
               ancestorAt tx hash height w = Some a
               /\ default zeroHash
                    (HeaderCanonical tx !! (height - Z.of_nat w)) = a).
Proof.
  induction fuel as [|fuel IH]; intros tx hash height err tx' Hrun Hrange
    Hroot Hzero; simpl in Hrun; [discriminate|].
  unfold CanonicalHash, ReadCanonicalHash, io in Hrun.
  destruct (ioFault tx (IoReadCanonicalHash height)) as [e|].
  { injection Hrun as <- <-. split; [apply set_HeaderCanonical_same|].
    exists 0%nat. split_and!; [lia|intros; lia|done|done]. }
  case_bool_decide as Hch.
  2:{ injection Hrun as <- <-. split; [apply set_HeaderCanonical_same|].
      exists 0%nat. split_and!; [lia|intros; lia|done|].
      intros _. exists hash. simpl. rewrite Z.sub_0_r.
      split; [done|]. lia. }
  assert (Hpos : 1 <= height).
  { destruct (decide (height = 0)) as [->|]; [|lia].
    rewrite Hzero in Hch by done. by exfalso. }
  unfold WriteCanonicalHash, io in Hrun.
  destruct (ioFault tx (IoWriteCanonicalHash height)) as [e|].
  { injection Hrun as <- <-. split; [apply set_HeaderCanonical_same|].
    exists 0%nat. split_and!; [lia|intros; lia|done|done]. }
  set (tx1 := set_HeaderCanonical tx (<[height:=hash]> (HeaderCanonical tx)))
    in Hrun.
  assert (Hwritten : HeaderCanonical tx1 !! height = Some hash)
    by apply lookup_insert_eq.
  assert (Hother : forall n, n <> height ->
             HeaderCanonical tx1 !! n = HeaderCanonical tx !! n)
    by (intros n Hn; by apply lookup_insert_ne).
  assert (Hone : tx1 = set_HeaderCanonical tx (HeaderCanonical tx1)
                 /\ exists w : nat,
                      Z.of_nat w <= height
                      /\ (forall k : nat, (k < w)%nat ->
                            exists a,
                              ancestorAt tx hash height k = Some a
                              /\ default zeroHash
                                   (HeaderCanonical tx
                                      !! (height - Z.of_nat k)) <> a
                              /\ HeaderCanonical tx1
                                   !! (height - Z.of_nat k) = Some a)
                      /\ (forall n, n > height \/ n <= height - Z.of_nat w ->
                            HeaderCanonical tx1 !! n
                            = HeaderCanonical tx !! n)
                      /\ w = 1%nat).
  { split; [done|]. exists 1%nat. split_and!; [lia| | |done].
    - intros k Hk. assert (k = 0%nat) as -> by lia.
      exists hash. simpl. rewrite Z.sub_0_r. done.
    - intros n Hn. apply Hother. lia. }
  unfold ReaderHeader, ReadHeader, io in Hrun.
  destruct (ioFault tx1 (IoReadHeader height hash)) as [e|].
  { injection Hrun as <- <-. destruct Hone as (? & w & ? & ? & ? & ->).
    split; [done|]. exists 1%nat. split_and!; done. }
  destruct (Headers tx1 !! (height, hash)) as [ancestor|] eqn:Hanc.
  2:{ injection Hrun as <- <-. destruct Hone as (? & w & ? & ? & ? & ->).
      split; [done|]. exists 1%nat. split_and!; done. }
  clear Hone.
  assert (Hpred : Uint64 (height - 1) = height - 1)
    by (unfold Uint64; apply Z.mod_small; lia).
  rewrite Hpred in Hrun.
  change (Headers tx1) with (Headers tx) in Hanc.
  apply IH in Hrun as (Hframe & w & Hw & Hwritten' & Hkept & Hstop).
  - split; [rewrite Hframe; reflexivity|].
    exists (S w). split_and!.
    + lia.
    + intros [|k] Hk.
      * exists hash. simpl. rewrite Z.sub_0_r. split_and!; [done|done|].
        rewrite Hkept by lia. exact Hwritten.
      * destruct (Hwritten' k) as (a & Ha & Hne & Hset); [lia|].
        exists a. simpl. rewrite Hanc.
        rewrite (ancestorAt_headers tx1 tx) in Ha by done.
        replace (height - Z.of_nat (S k)) with (height - 1 - Z.of_nat k)
          by lia.
        rewrite Hother in Hne by lia. done.
    + intros n Hn. rewrite Hkept by lia. apply Hother. lia.
    + intros Herr. destruct (Hstop Herr) as (a & Ha & Heq).
      exists a. simpl. rewrite Hanc.
      rewrite (ancestorAt_headers tx1 tx) in Ha by done.
      replace (height - Z.of_nat (S w)) with (height - 1 - Z.of_nat w)
        by lia.
      rewrite Hother in Heq by lia. done.
  - lia.
  - intros k h1 Hh1 Hk. change (Headers tx1) with (Headers tx) in Hh1.
    rewrite Hother by lia. exact (Hroot k h1 Hh1 Hk).
  - intros Hone. rewrite Hother by lia.
    replace height with 1 in Hanc by lia.
    exact (Hroot (1, hash) ancestor Hanc eq_refl).
Qed.

(** The loop ends within [height + 1] evaluations of its condition. *)
Lemma fixCanonicalLoop_enough_fuel (fuel : nat) :
  forall tx hash height,
    0 <= height < 2 ^ 64 ->
    rootedAtGenesis tx ->
    (height = 0 -> HeaderCanonical tx !! 0 = Some hash) ->
    height < Z.of_nat fuel ->
    exists r, fixCanonicalLoop fuel tx hash height = Done r.
Proof.
  induction fuel as [|fuel IH]; intros tx hash height Hrange Hroot Hzero Hfuel;
    [lia|]. simpl.
  unfold CanonicalHash, ReadCanonicalHash, io.
  destruct (ioFault tx (IoReadCanonicalHash height)); [eauto|].
  case_bool_decide as Hch; [|eauto].
  assert (Hpos : 1 <= height).
  { destruct (decide (height = 0)) as [->|]; [|lia].
    rewrite Hzero in Hch by done. by exfalso. }
  unfold WriteCanonicalHash, io.
  destruct (ioFault tx (IoWriteCanonicalHash height)); [eauto|].
  unfold ReaderHeader, ReadHeader, io.
  match goal with
  | |- context [ioFault ?t (IoReadHeader height hash)] =>
      destruct (ioFault t (IoReadHeader height hash)); [eauto|]
  end.
  simpl.
  destruct (Headers tx !! (height, hash)) as [ancestor|] eqn:Hanc; [|eauto].
  assert (Hpred : Uint64 (height - 1) = height - 1)
    by (unfold Uint64; apply Z.mod_small; lia).
  rewrite Hpred. apply IH.
  - lia.
  - intros k h1 Hh1 Hk. simpl. rewrite lookup_insert_ne by lia.
    exact (Hroot k h1 Hh1 Hk).
  - intros Hone. simpl. rewrite lookup_insert_ne by lia.
    replace height with 1 in Hanc by lia.
    exact (Hroot (1, hash) ancestor Hanc eq_refl).
  - lia.
Qed.





(** With new execution progress the same call takes every step. *)
Example FinishForward_progress :
  let behind := mkStageState StageFinish 99 in
  let tx := set_SyncStageProgress chainTx
              {[ StageExecution := 100; StageFinish := 99 ]} in
  let tx := {| HeaderCanonical := HeaderCanonical tx;
               HeaderNumber := HeaderNumber tx; Headers := Headers tx;
               HeaderTD := HeaderTD tx; BlockBody := BlockBody tx;
               HeadHeaderKey := HeadHeaderKey tx; HeadBlockKey := 990;
               ForkchoiceHead := ForkchoiceHead tx;
               ForkchoiceSafe := ForkchoiceSafe tx;
               ForkchoiceFinalized := ForkchoiceFinalized tx;
               SyncStageProgress := SyncStageProgress tx;
               SyncStageUnwind := SyncStageUnwind tx;
               ErigonVersionFinished := ErigonVersionFinished tx;
               RawTransactionsRange := RawTransactionsRange tx;
               ReadBlock := fun _ _ => Some (mkBlock headerA someBody);
               ioFault := ioFault tx |} in
  exists r,
    FinishForward behind (Some tx) sampleCfg false = Done r
    /\ finishErr r = None
    /\ finishSteps r
       = [StepWriteHeadBlockHash 1000; StepUpdate 100;
          StepNotifyCurrentHeight 100;
          StepPublish (mkBlock headerA someBody)]
    /\ (HeadBlockKey <$> finishTx r) = Some 1000
    /\ (currentHeight <$> forkValidator (finishCfg r)) = Some 100
    /\ (extendingFork <$> forkValidator (finishCfg r)) = Some None
    /\ (buffer <$> headCh (finishCfg r))
       = Some [mkBlock headerA someBody].
Proof. eexists. vm_compute. split_and!; reflexivity. Qed.

End StagedsyncFacts.

(** ** Further properties of the fork validator *)

Module EngineapiMore.

Import Engineapi Scenario Properties ValidatorProperties EngineapiFacts.

Lemma clean_within (fv : ForkValidator) :
  withinForkDepth fv -> clean fv = fv.
Proof.
  intros Hin. destruct fv as [cache ext head validate height].
  unfold clean, set_sideForksBlock. simpl. f_equal.
  apply map_filter_id. intros k sb Hsb. simpl.
  specialize (Hin k sb Hsb). simpl in Hin. lia.
Qed.

Lemma clean_lookup (fv : ForkValidator) (k : Z) (sb : forkSegment) :
  sideForksBlock (clean fv) !! k = Some sb <->
  sideForksBlock fv !! k = Some sb
  /\ AbsoluteDifference (currentHeight fv) (Uint64 (Number (header sb)))
     <= maxForkDepth.
Proof.
  unfold clean. simpl. rewrite map_lookup_filter_Some. simpl.
  split; intros [? ?]; split; auto; lia.
Qed.

(** What a call of [validateAndStorePayload] on a throw-away batch leaves
    of the validator when the callback accepts. *)
Lemma validateAndStorePayload_stored (fv : ForkValidator) (tx : Overlay)
    (h : Header) (b : option RawBody) (u : Z) (hs : list Header)
    (bs : list RawBody) (st : PayloadStatus) (fv' : ForkValidator)
    (evs : list Event) :
  validateAndStorePayload fv tx h b u hs bs = Done (st, fv', evs) ->
  validationError st = None ->
  exists validate batch batch',
    validatePayload fv = Some validate
    /\ deref fv tx = Some batch
    /\ validate batch h b u hs bs = (batch', None)
    /\ latestValidHash st = HeaderHash h
    /\ status st = EngineStatus_VALID
    /\ evs = [EvValidatePayload (overlayName tx) h b u hs bs None]
    /\ (match criticalError st with
        | Some _ => fv' = assign fv tx batch'
        | None => exists rawBody,
                    fv' = storeSegment (assign fv tx batch') h rawBody
        end).
Proof.
  unfold validateAndStorePayload.
  destruct (validatePayload fv) as [validate|] eqn:Hv; [|discriminate].
  destruct (deref fv tx) as [batch|] eqn:Hd; [|discriminate].
  destruct (validate batch h b u hs bs) as [batch' [err|]] eqn:Hcall.
  { intros [= <- <- <-]. discriminate. }
  intros Hrun _. exists validate, batch, batch'.
  split_and!; try done;
    repeat case_match; simplify_eq; simpl; eauto.
Qed.

(** The ways a call of [ValidatePayload] that returns has run: without a
    callback; on a cached header; on the side path without reaching the
    callback; on the extending fork; on a side-fork replay. *)
Lemma ValidatePayload_cases (fuel : nat) (fv : ForkValidator) (tx : Tx)
    (h : Header) (b : option RawBody) (extendCanonical : bool)
    (st : PayloadStatus) (fv' : ForkValidator) (evs : list Event) :
  ValidatePayload fuel fv tx h b extendCanonical = Done (st, fv', evs) ->
  (validatePayload fv = None /\ st = accepted /\ fv' = fv /\ evs = [])
  \/ (is_Some (validatePayload fv)
      /\ is_Some (sideForksBlock fv !! HeaderHash h)
      /\ st = mkPayloadStatus EngineStatus_VALID (HeaderHash h) None None
      /\ fv' = clean fv /\ evs = [])
  \/ (is_Some (validatePayload fv)
      /\ sideForksBlock fv !! HeaderHash h = None
      /\ extendCanonical = false
      /\ (st = accepted \/ exists e, st = critical e)
      /\ fv' = clean fv /\ evs = [])
  \/ (is_Some (validatePayload fv)
      /\ sideForksBlock fv !! HeaderHash h = None
      /\ extendCanonical = true
      /\ exists fv1 evs1,
           validateAndStorePayload
             (set_extendingForkHeadHash
                (set_extendingFork fv (Some (stagingBatch fv tx)))
                (HeaderHash h))
             OnExtendingFork h b 0 [] [] = Done (st, fv1, evs1)
           /\ fv' = clean fv1
           /\ evs = (match extendingFork fv with
                     | None => EvNewMemoryBatch TheExtendingFork
                     | Some _ => EvUpdateTxn
                     end) :: evs1)
  \/ (is_Some (validatePayload fv)
      /\ sideForksBlock fv !! HeaderHash h = None
      /\ extendCanonical = false
      /\ AbsoluteDifference (currentHeight fv) (Uint64 (Number h))
         <= maxForkDepth
      /\ exists found u0 hs bs fv1 evs1,
           IsCanonicalHash tx (ParentHash h) = Ok found
           /\ assembleBackwards fuel (sideForksBlock fv) tx (ParentHash h)
                found (Uint64 (Uint64 (Number h) - 1)) [] []
              = Done (AssemblyFound u0 hs bs)
           /\ validateAndStorePayload fv (OnBatch (NewMemoryBatch tx)) h b
                (if bool_decide (u0 = currentHeight fv) then 0 else u0)
                hs bs = Done (st, fv1, evs1)
           /\ fv' = clean fv1
           /\ evs = EvNewMemoryBatch TheBatch :: evs1
                    ++ [EvRollback TheBatch]).
Proof.
  unfold ValidatePayload.
  destruct (validatePayload fv) as [validate|] eqn:Hv.
  2:{ intros [= <- <- <-]. left. done. }
  destruct (validatePayloadLocked _ _ _ _ _ _) as [[[st0 fv0] evs0]| |] eqn:Hl;
    try discriminate.
  intros [= <- <- <-]. right. revert Hl. unfold validatePayloadLocked.
  destruct (sideForksBlock fv !! HeaderHash h) as [sb|] eqn:Hsb.
  { intros [= <- <- <-]. left. split_and!; eauto. }
  destruct extendCanonical.
  - intros Hl. right. right. left. split_and!; eauto.
    revert Hl. unfold stagingBatch.
    destruct (extendingFork fv) as [m|] eqn:Hm; simpl;
      destruct (validateAndStorePayload _ _ _ _ _ _ _)
        as [[[st1 fv1] evs1]| |] eqn:Hs; try discriminate;
      intros [= <- <- <-]; eauto.
  - case_bool_decide as Hfar.
    { intros [= <- <- <-]. right. left. split_and!; eauto. }
    destruct (IsCanonicalHash tx (ParentHash h)) as [found|] eqn:Hc.
    2:{ intros [= <- <- <-]. right. left. split_and!; eauto. }
    destruct (assembleBackwards _ _ _ _ _ _ _ _) as [[| |u0 hs0 bs0]| |] eqn:Ha;
      try discriminate.
    + intros [= <- <- <-]. right. left. split_and!; eauto.
    + intros [= <- <- <-]. right. left. split_and!; eauto.
    + destruct (validateAndStorePayload _ _ _ _ _ _ _)
        as [[[st1 fv1] evs1]| |] eqn:Hs; try discriminate.
      intros [= <- <- <-]. right. right. right.
      split; [eauto|]. split; [done|]. split; [done|]. split; [lia|].
      do 6 eexists. split_and!; eauto.
Qed.

Lemma validateAndStorePayload_rejected (fv : ForkValidator) (tx : Overlay)
    (h : Header) (b : option RawBody) (u : Z) (hs : list Header)
    (bs : list RawBody) (st : PayloadStatus) (fv' : ForkValidator)
    (evs : list Event) (err : Error) :
  validateAndStorePayload fv tx h b u hs bs = Done (st, fv', evs) ->
  validationError st = Some err ->
  status st = EngineStatus_INVALID
  /\ sideForksBlock fv' = sideForksBlock fv
  /\ currentHeight fv' = currentHeight fv
  /\ validatePayload fv' = validatePayload fv
  /\ callbackCalls evs = 1%nat.
Proof.
  intros Hrun Herr.
  apply validateAndStorePayload_returns in Hrun
    as (e & rolled & -> & Hheight & Hcallback & Hres).
  destruct e as [e|].
  - destruct Hres as (-> & _ & _ & Hcache & ->).
    split_and!; auto. by destruct (extendingFork fv).
  - destruct Hres as (_ & Hnone & _). congruence.
Qed.

(** An ACCEPTED answer means that nothing was validated: the callback was
    not called, no batch was opened, the staged extending fork and its head
    hash are as they were, no error is reported, and the cache has only
    lost segments. *)
Theorem ValidatePayload_accepted (fuel : nat) (fv : ForkValidator) (tx : Tx)
    (h : Header) (b : option RawBody) (extendCanonical : bool)
    (st : PayloadStatus) (fv' : ForkValidator) (evs : list Event) :
  ValidatePayload fuel fv tx h b extendCanonical = Done (st, fv', evs) ->
  status st = EngineStatus_ACCEPTED ->
  evs = []
  /\ st = accepted
  /\ extendingFork fv' = extendingFork fv
  /\ extendingForkHeadHash fv' = extendingForkHeadHash fv
  /\ sideForksBlock fv' ⊆ sideForksBlock fv.
Proof.
  intros Hrun Hst.
  assert (Hstore : forall fv0 o u hs bs fv1 evs1,
             validateAndStorePayload fv0 o h b u hs bs = Done (st, fv1, evs1) ->
             False).
  { intros fv0 o u hs bs fv1 evs1 Hs.
    destruct (validationError st) as [err|] eqn:Herr.
    - eapply validateAndStorePayload_rejected in Hs as (Hinv & _); eauto.
      congruence.
    - eapply validateAndStorePayload_stored in Hs
        as (? & ? & ? & _ & _ & _ & _ & Hvalid & _); eauto. congruence. }
  apply ValidatePayload_cases in Hrun
    as [(_ & -> & -> & ->)
       |[(_ & _ & -> & _)
        |[(_ & _ & _ & Hwhy & -> & ->)
         |[(_ & _ & _ & fv1 & evs1 & Hs & _)
          |(_ & _ & _ & _ & found & u0 & hs & bs & fv1 & evs1 & _ & _ & Hs & _)]]]].
  - split_and!; done.
  - discriminate.
  - destruct Hwhy as [->|[e ->]]; [|discriminate].
    split_and!; try done. apply map_filter_subseteq.
  - by apply Hstore in Hs.
  - by apply Hstore in Hs.
Qed.

Lemma ValidatePayload_accepted_witness :
  exists fv',
    ValidatePayload 0 (NewForkValidator 1000 validatesAll) chainTx headerX
      (Some someBody) false = Done (accepted, fv', [])
    /\ extendingFork fv' = None.
Proof.
  eexists. split; [vm_compute; reflexivity|].
  eapply (ValidatePayload_accepted 0 (NewForkValidator 1000 validatesAll)
            chainTx headerX (Some someBody) false accepted).
  - vm_compute. reflexivity.
  - reflexivity.
Defined.

(** A side-fork replay, whatever it answers, touches the staged extending
    fork only when the callback reports an error: without a validation
    error the extending fork, its head hash and the current height are as
    they were. *)
Theorem ValidatePayload_side_fork_isolated (fuel : nat) (fv : ForkValidator)
    (tx : Tx) (h : Header) (b : option RawBody) (st : PayloadStatus)
    (fv' : ForkValidator) (evs : list Event) :
  ValidatePayload fuel fv tx h b false = Done (st, fv', evs) ->
  validationError st = None ->
  extendingFork fv' = extendingFork fv
  /\ extendingForkHeadHash fv' = extendingForkHeadHash fv
  /\ currentHeight fv' = currentHeight fv.
Proof.
  intros Hrun Hok.
  apply ValidatePayload_cases in Hrun
    as [(_ & _ & -> & _)
       |[(_ & _ & _ & -> & _)
        |[(_ & _ & _ & _ & -> & _)
         |[(_ & _ & [=] & _)
          |(_ & _ & _ & _ & found & u0 & hs & bs & fv1 & evs1 & _ & _ & Hs
            & -> & _)]]]];
    try done.
  eapply validateAndStorePayload_stored in Hs
    as (validate & batch & batch' & _ & _ & _ & _ & _ & _ & Hfv); eauto.
  destruct (criticalError st); [by subst fv1|].
  destruct Hfv as [rawBody ->]. done.
Qed.

Lemma ValidatePayload_side_fork_isolated_witness :
  exists st fv' evs,
    ValidatePayload 3 (set_extendingForkHeadHash
                         (set_extendingFork (withSideFork validatesAll)
                            (Some (NewMemoryBatch chainTx))) 1010)
      chainTx headerZ (Some someBody) false = Done (st, fv', evs)
    /\ extendingFork fv' = Some (NewMemoryBatch chainTx)
    /\ extendingForkHeadHash fv' = 1010
    /\ currentHeight fv' = 100.
Proof.
  do 3 eexists. split; [vm_compute; reflexivity|].
  eapply (ValidatePayload_side_fork_isolated 3
            (set_extendingForkHeadHash
               (set_extendingFork (withSideFork validatesAll)
                  (Some (NewMemoryBatch chainTx))) 1010)
            chainTx headerZ (Some someBody)).
  - vm_compute. reflexivity.
  - reflexivity.
Defined.

(** [ValidatePayload] calls the callback at most once, and exactly once
    when it extends the canonical chain by a header that is not cached. *)
Theorem ValidatePayload_calls_once (fuel : nat) (fv : ForkValidator)
    (tx : Tx) (h : Header) (b : option RawBody) (extendCanonical : bool)
    (st : PayloadStatus) (fv' : ForkValidator) (evs : list Event) :
  ValidatePayload fuel fv tx h b extendCanonical = Done (st, fv', evs) ->
  (callbackCalls evs <= 1)%nat
  /\ (extendCanonical = true ->
      is_Some (validatePayload fv) ->
      sideForksBlock fv !! HeaderHash h = None ->
      callbackCalls evs = 1%nat).
Proof.
  intros Hrun.
  assert (Hstore : forall fv0 o u hs bs fv1 evs1,
             validateAndStorePayload fv0 o h b u hs bs = Done (st, fv1, evs1) ->
             callbackCalls evs1 = 1%nat).
  { intros fv0 o u hs bs fv1 evs1 Hs.
    destruct (validationError st) as [err|] eqn:Herr.
    - by eapply validateAndStorePayload_rejected in Hs as (_ & _ & _ & _ & ?).
    - eapply validateAndStorePayload_stored in Hs
        as (? & ? & ? & _ & _ & _ & _ & _ & -> & _); eauto. }
  apply ValidatePayload_cases in Hrun
    as [(Hnone & _ & _ & ->)
       |[(_ & [sb Hsb] & _ & _ & ->)
        |[(_ & _ & -> & _ & _ & ->)
         |[(_ & _ & -> & fv1 & evs1 & Hs & _ & ->)
          |(_ & _ & -> & _ & found & u0 & hs & bs & fv1 & evs1 & _ & _ & Hs
            & _ & ->)]]]].
  - split; [unfold callbackCalls; simpl; lia|]. intros _ [? ?]. congruence.
  - split; [unfold callbackCalls; simpl; lia|]. intros _ _ ?. congruence.
  - split; [unfold callbackCalls; simpl; lia|done].
  - apply Hstore in Hs. unfold callbackCalls in *.
    assert (Hopen : isValidateCall
                      (match extendingFork fv with
                       | Some _ => EvUpdateTxn
                       | None => EvNewMemoryBatch TheExtendingFork
                       end) = false) by (by destruct (extendingFork fv)).
    simpl. rewrite Hopen. split; [lia|done].
  - apply Hstore in Hs. unfold callbackCalls in *. split; [|done].
    simpl. rewrite List.filter_app, length_app. simpl. lia.
Qed.

Lemma ValidatePayload_calls_once_witness :
  exists st fv' evs,
    ValidatePayload 0 (NewForkValidator 100 validatesAll) chainTx headerB
      (Some someBody) true = Done (st, fv', evs)
    /\ callbackCalls evs = 1%nat.
Proof.
  do 3 eexists. split; [vm_compute; reflexivity|].
  eapply (ValidatePayload_calls_once 0 (NewForkValidator 100 validatesAll)
            chainTx headerB (Some someBody) true).
  - vm_compute. reflexivity.
  - reflexivity.
  - simpl. eauto.
  - reflexivity.
Defined.


(** The cache after [ValidatePayload]: old segments, and at most the header
    under validation under its hash. *)
Lemma ValidatePayload_stores_only_header_frame (fuel : nat)
    (fv : ForkValidator) (tx : Tx) (h : Header) (b : option RawBody)
    (extendCanonical : bool) (st : PayloadStatus) (fv' : ForkValidator)
    (evs : list Event) :
  ValidatePayload fuel fv tx h b extendCanonical = Done (st, fv', evs) ->
  forall k sb,
    sideForksBlock fv' !! k = Some sb ->
    sideForksBlock fv !! k = Some sb \/ (k = HeaderHash h /\ header sb = h).
Proof.
  intros Hrun.
  assert (Hstore : forall fv0 o u hs bs fv1 evs1,
             validateAndStorePayload fv0 o h b u hs bs = Done (st, fv1, evs1) ->
             forall k sb,
               sideForksBlock fv1 !! k = Some sb ->
               sideForksBlock fv0 !! k = Some sb
               \/ (k = HeaderHash h /\ header sb = h)).
  { intros fv0 o u hs bs fv1 evs1 Hs.
    destruct (validationError st) as [err|] eqn:Herr.
    - eapply validateAndStorePayload_rejected in Hs
        as (_ & Hcache & _); eauto.
      intros k sb. rewrite Hcache. auto.
    - eapply validateAndStorePayload_stored in Hs
        as (? & ? & batch' & _ & _ & _ & _ & _ & _ & Hfv); eauto.
      destruct (criticalError st).
      + subst fv1. destruct o; auto.
      + destruct Hfv as [rawBody ->].
        destruct o; intros k sb; simpl;
          (destruct (decide (k = HeaderHash h)) as [->|Hne];
           [rewrite lookup_insert_eq; intros [= <-]; right; done
           |rewrite lookup_insert_ne by done; auto]). }
  assert (Hclean : forall fv0 k sb,
             sideForksBlock (clean fv0) !! k = Some sb ->
             sideForksBlock fv0 !! k = Some sb)
    by (intros fv0 k sb Hk; by apply clean_lookup in Hk as [? _]).
  apply ValidatePayload_cases in Hrun
    as [(_ & _ & -> & _)
       |[(_ & _ & _ & -> & _)
        |[(_ & _ & _ & _ & -> & _)
         |[(_ & _ & _ & fv1 & evs1 & Hs & -> & _)
          |(_ & _ & _ & _ & found & u0 & hs & bs & fv1 & evs1 & _ & _ & Hs
            & -> & _)]]]];
    intros k sb Hk.
  - by left.
  - left. by apply Hclean.
  - left. by apply Hclean.
  - apply Hclean in Hk. exact (Hstore _ _ _ _ _ _ _ Hs k sb Hk).
  - apply Hclean in Hk. exact (Hstore _ _ _ _ _ _ _ Hs k sb Hk).
Qed.


(** [ValidatePayload] stores nothing but the header under validation, under
    its hash, and changes neither the current height nor the callback. *)
Theorem ValidatePayload_stores_only_header (fuel : nat) (fv : ForkValidator)
    (tx : Tx) (h : Header) (b : option RawBody) (extendCanonical : bool)
    (st : PayloadStatus) (fv' : ForkValidator) (evs : list Event) :
  ValidatePayload fuel fv tx h b extendCanonical = Done (st, fv', evs) ->
  currentHeight fv' = currentHeight fv
  /\ validatePayload fv' = validatePayload fv
  /\ forall k sb,
       sideForksBlock fv' !! k = Some sb ->
       sideForksBlock fv !! k = Some sb
       \/ (k = HeaderHash h /\ header sb = h /\ status st = EngineStatus_VALID
           /\ validationError st = None /\ criticalError st = None).
Proof.
  intros Hrun.
  assert (Hstore : forall fv0 o u hs bs fv1 evs1,
             validateAndStorePayload fv0 o h b u hs bs = Done (st, fv1, evs1) ->
             currentHeight fv1 = currentHeight fv0
             /\ validatePayload fv1 = validatePayload fv0
             /\ forall k sb,
                  sideForksBlock fv1 !! k = Some sb ->
                  sideForksBlock fv0 !! k = Some sb
                  \/ (k = HeaderHash h /\ header sb = h
                      /\ status st = EngineStatus_VALID
                      /\ validationError st = None
                      /\ criticalError st = None)).
  { intros fv0 o u hs bs fv1 evs1 Hs.
    destruct (validationError st) as [err|] eqn:Herr.
    - eapply validateAndStorePayload_rejected in Hs
        as (_ & Hcache & ? & ? & _); eauto.
      split_and!; auto. intros k sb. rewrite Hcache. auto.
    - eapply validateAndStorePayload_stored in Hs
        as (? & ? & batch' & _ & _ & _ & _ & Hvalid & _ & Hfv); eauto.
      destruct (criticalError st).
      + subst fv1. destruct o; split_and!; auto.
      + destruct Hfv as [rawBody ->].
        destruct o; (split_and!; [done|done|]); intros k sb; simpl;
          (destruct (decide (k = HeaderHash h)) as [->|Hne];
           [rewrite lookup_insert_eq; intros [= <-]; right; done
           |rewrite lookup_insert_ne by done; auto]). }
  assert (Hclean : forall fv0 k sb,
             sideForksBlock (clean fv0) !! k = Some sb ->
             sideForksBlock fv0 !! k = Some sb)
    by (intros fv0 k sb Hk; by apply clean_lookup in Hk as [? _]).
  apply ValidatePayload_cases in Hrun
    as [(_ & _ & -> & _)
       |[(_ & _ & _ & -> & _)
        |[(_ & _ & _ & _ & -> & _)
         |[(_ & _ & _ & fv1 & evs1 & Hs & -> & _)
          |(_ & _ & _ & _ & found & u0 & hs & bs & fv1 & evs1 & _ & _ & Hs
            & -> & _)]]]];
    try (split_and!; [done|done|]; intros k sb Hk; left; auto; done).
  - apply Hstore in Hs as (Hh & Hv & Hcache).
    split_and!; [done|done|]. intros k sb Hk.
    apply Hclean, Hcache in Hk. exact Hk.
  - apply Hstore in Hs as (Hh & Hv & Hcache).
    split_and!; [done|done|]. intros k sb Hk.
    apply Hclean, Hcache in Hk. exact Hk.
Qed.

Lemma ValidatePayload_stores_only_header_witness :
  exists st fv' evs,
    ValidatePayload 3 (withSideFork validatesAll) chainTx headerZ
      (Some someBody) false = Done (st, fv', evs)
    /\ currentHeight fv' = 100
    /\ sideForksBlock fv' !! HeaderHash headerZ
       = Some (mkForkSegment headerZ someBody).
Proof.
  do 3 eexists. split; [vm_compute; reflexivity|].
  split; [|vm_compute; reflexivity].
  eapply (ValidatePayload_stores_only_header 3 (withSideFork validatesAll)
            chainTx headerZ (Some someBody) false).
  vm_compute. reflexivity.
Defined.

(** *** Validated headers are answered from the cache *)



(** *** The cache is keyed by header hash *)

Lemma clean_keyed (fv : ForkValidator) : keyed fv -> keyed (clean fv).
Proof.
  intros Hk k sb Hsb. apply clean_lookup in Hsb as [Hsb _]. by apply Hk.
Qed.

(** Every operation of the validator keeps each cached segment stored under
    the hash of its own header. *)
Theorem perform_keyed (fuel : nat) (fv : ForkValidator) (c : Call)
    (fv' : ForkValidator) :
  keyed fv ->
  perform fuel fv c = Done fv' ->
  keyed fv'.
Proof.
  intros Hk. destruct c as [tx h b ext|tx|tx acc|height|block]; simpl.
  - destruct (ValidatePayload fuel fv tx h b ext) as [[[st fv0] evs]| |] eqn:Hrun;
      try discriminate.
    intros [= <-]. intros k sb Hsb.
    destruct (ValidatePayload_stores_only_header_frame fuel fv tx h b ext st
                fv0 evs Hrun k sb Hsb) as [Hold|(-> & Hh)].
    + by apply Hk.
    + by rewrite Hh.
  - unfold FlushExtendingFork.
    destruct (extendingFork fv); [|discriminate].
    destruct (ioFault tx IoFlush); intros [= <-]; exact Hk.
  - unfold ClearWithUnwind.
    destruct (extendingFork fv) as [m|] eqn:Hm;
      [destruct acc;
       [destruct (sideForksBlock fv !! extendingForkHeadHash fv);
        [case_bool_decide;
         [destruct (notifyTxPool _ _) as [[err evs]| |]; try discriminate|]
        |]
       |]
      |];
      intros [= <-]; exact Hk.
  - intros [= <-]. exact Hk.
  - intros [= <-]. apply clean_keyed. intros k sb. simpl.
    destruct (decide (k = BlockHash block)) as [->|Hne].
    + rewrite lookup_insert_eq. by intros [= <-].
    + rewrite lookup_insert_ne by done. apply Hk.
Qed.

Lemma perform_keyed_witness :
  keyed (TryAddingPoWBlock (withSideFork validatesAll)
           (mkBlock headerA someBody)).
Proof.
  apply (perform_keyed 0 (withSideFork validatesAll)
           (CallTryAddingPoWBlock (mkBlock headerA someBody))).
  - apply (bool_decide_unpack _). vm_compute. exact I.
  - reflexivity.
Defined.

(** *** The chain handed to the callback *)

Lemma assembleBackwards_chain (h : Header) (fuel : nat)
    (cache : gmap Z forkSegment) (tx : Tx) :
  (forall k sb, cache !! k = Some sb -> HeaderHash (header sb) = k) ->
  forall cur found u hs bs u' hs' bs',
    assembleBackwards fuel cache tx cur found u hs bs
    = Done (AssemblyFound u' hs' bs') ->
    cur = ParentHash (List.hd h hs) ->
    chainBelow hs h ->
    Forall2 (fun x rawBody =>
               cache !! HeaderHash x = Some (mkForkSegment x rawBody)) hs bs ->
    chainBelow hs' h
    /\ Forall2 (fun x rawBody =>
                  cache !! HeaderHash x = Some (mkForkSegment x rawBody))
         hs' bs'.
Proof.
  intros Hkeyed.
  induction fuel as [|fuel IH]; intros cur found u hs bs u' hs' bs' Hrun Hcur
    Hchain Hsegs; destruct found; simpl in Hrun; try discriminate;
    try (injection Hrun as <- <- <-; done).
  destruct (cache !! cur) as [sb|] eqn:Hsb; [|discriminate].
  destruct (HasBlockBody _ _ _) as [[]|]; try discriminate.
  destruct (IsCanonicalHash tx (ParentHash (header sb))) as [found|];
    [|discriminate].
  pose proof (Hkeyed cur sb Hsb) as Hkey.
  eapply IH in Hrun; eauto.
  - intros [|i] x Hx; simpl in *.
    + injection Hx as <-. rewrite Hkey, Hcur. by destruct hs.
    + by apply Hchain.
  - constructor; [|done]. rewrite Hkey. by destruct sb.
Qed.

(** The headers handed to the callback form a chain, oldest first: each is
    the parent of the next and the last is the parent of the header under
    validation; the bodies are those cached with them, one per header. *)
Theorem ValidatePayload_chain_linked (fuel : nat) (fv : ForkValidator)
    (tx : Tx) (h : Header) (b : option RawBody) (extendCanonical : bool)
    (st : PayloadStatus) (fv' : ForkValidator) (evs : list Event)
    (on : OverlayName) (hh : Header) (bb : option RawBody) (u : Z)
    (hs : list Header) (bs : list RawBody) (e : option Error) :
  keyed fv ->
  ValidatePayload fuel fv tx h b extendCanonical = Done (st, fv', evs) ->
  EvValidatePayload on hh bb u hs bs e ∈ evs ->
  chainBelow hs h
  /\ Forall2 (fun x rawBody =>
                sideForksBlock fv !! HeaderHash x
                = Some (mkForkSegment x rawBody)) hs bs.
Proof.
  intros Hkeyed Hrun Hin.
  assert (Hnil : chainBelow [] h) by (intros i x Hx; discriminate).
  pose proof Hrun as Hcases.
  apply ValidatePayload_cases in Hcases
    as [(_ & _ & _ & ->)
       |[(_ & _ & _ & _ & ->)
        |[(_ & _ & _ & _ & _ & ->)
         |[(_ & _ & -> & _)
          |(_ & _ & -> & _ & found & u0 & hs0 & bs0 & fv1 & evs1 & _ & Ha & Hs
            & _ & ->)]]]];
    try (by apply elem_of_nil in Hin).
  - destruct (ValidatePayload_call _ _ _ _ _ _ _ _ _ _ _ _ _ _ _ _ Hrun Hin)
      as (_ & _ & (_ & _ & -> & ->) & _). split; [done|constructor].
  - assert (Hnone : Forall2 (fun x rawBody =>
                               sideForksBlock fv !! HeaderHash x
                               = Some (mkForkSegment x rawBody)) [] [])
      by constructor.
    destruct (assembleBackwards_chain h fuel _ tx Hkeyed _ _ _ _ _ _ _ _ Ha
                eq_refl Hnil Hnone) as [Hchain Hsegs].
    apply validateAndStorePayload_returns in Hs
      as (e1 & rolled & -> & _ & _ & Hres).
    assert (Hcall : EvValidatePayload on hh bb u hs bs e
                    = EvValidatePayload TheBatch h b
                        (if bool_decide (u0 = currentHeight fv)
                         then 0 else u0) hs0 bs0 e1).
    { apply elem_of_cons in Hin as [Hin|Hin]; [discriminate|].
      simpl in Hin. apply elem_of_cons in Hin as [Hin|Hin]; [done|].
      exfalso. apply elem_of_app in Hin as [Hin|Hin].
      - destruct e1 as [err1|].
        + destruct Hres as (_ & _ & _ & _ & ->).
          destruct (extendingFork fv);
            [apply list_elem_of_singleton in Hin; discriminate
            |by apply elem_of_nil in Hin].
        + destruct Hres as (-> & _). by apply elem_of_nil in Hin.
      - apply list_elem_of_singleton in Hin. discriminate. }
    injection Hcall as _ _ _ _ -> -> _. done.
Qed.

Lemma ValidatePayload_chain_linked_witness :
  chainBelow [headerX; headerY] headerZ
  /\ Forall2 (fun x rawBody =>
                sideForksBlock (withSideFork validatesAll) !! HeaderHash x
                = Some (mkForkSegment x rawBody))
       [headerX; headerY] [someBody; someBody].
Proof.
  eapply (ValidatePayload_chain_linked 3 (withSideFork validatesAll) chainTx
            headerZ (Some someBody) false _ _ _ TheBatch headerZ
            (Some someBody) 98 [headerX; headerY] [someBody; someBody] None).
  - apply (bool_decide_unpack _). vm_compute. exact I.
  - vm_compute. reflexivity.
  - apply list_elem_of_further, list_elem_of_here.
Defined.

(** *** Blocks added across the transition *)

(** A block added by [TryAddingPoWBlock] within [maxForkDepth] of the
    current height is afterwards answered VALID by [ValidatePayload] without
    a call of the callback, on either path; a block farther away is not
    retained. *)
Theorem TryAddingPoWBlock_then_valid (fv : ForkValidator) (block : Block) :
  let fv' := TryAddingPoWBlock fv block in
  let distance := AbsoluteDifference (currentHeight fv)
                    (Uint64 (Number (BlockHeader block))) in
  (distance <= maxForkDepth ->
   is_Some (validatePayload fv) ->
   forall fuel tx b extendCanonical,
     ValidatePayload fuel fv' tx (BlockHeader block) b extendCanonical
     = Done (mkPayloadStatus EngineStatus_VALID (BlockHash block) None None,
             fv', []))
  /\ (distance > maxForkDepth ->
      sideForksBlock fv' !! BlockHash block = None).
Proof.
  intros fv' distance. split.
  - intros Hnear [validate Hv] fuel tx b ext.
    assert (Hkept : sideForksBlock fv' !! BlockHash block
                    = Some (mkForkSegment (BlockHeader block)
                              (BlockRawBody block))).
    { apply clean_lookup. simpl. rewrite lookup_insert_eq. done. }
    unfold ValidatePayload.
    change (validatePayload fv') with (validatePayload fv). rewrite Hv.
    unfold validatePayloadLocked.
    change (HeaderHash (BlockHeader block)) with (BlockHash block).
    rewrite Hkept.
    rewrite (clean_within fv') by apply TryAddingPoWBlock_withinForkDepth.
    reflexivity.
  - intros Hfar.
    destruct (sideForksBlock fv' !! BlockHash block) as [sb|] eqn:Hsb;
      [|done].
    apply clean_lookup in Hsb as [Hsb Hnear]. simpl in Hsb, Hnear.
    rewrite lookup_insert_eq in Hsb. injection Hsb as <-. simpl in Hnear.
    subst distance. lia.
Qed.

(** *** Staging and flushing *)

(** Staging a payload on the extending path and flushing: when the callback
    accepts an uncached payload with its body, the validator holds the batch
    the callback left, under the payload's hash, and [FlushExtendingFork]
    replays the writes of that batch onto the transaction it is given and
    clears both fields. *)
Theorem ValidatePayload_then_flush (fuel : nat) (fv : ForkValidator)
    (tx : Tx) (h : Header) (rawBody : RawBody)
    (validate : validatePayloadFunc) (staged : MemoryMutation) :
  validatePayload fv = Some validate ->
  sideForksBlock fv !! HeaderHash h = None ->
  validate (stagingBatch fv tx) h (Some rawBody) 0 [] [] = (staged, None) ->
  exists fv' opened,
    ValidatePayload fuel fv tx h (Some rawBody) true
    = Done (mkPayloadStatus EngineStatus_VALID (HeaderHash h) None None,
            fv',
            [opened;
             EvValidatePayload TheExtendingFork h (Some rawBody) 0 [] []
               None])
    /\ extendingFork fv' = Some staged
    /\ ExtendingForkHeadHash fv' = HeaderHash h
    /\ forall tx2,
         ioFault tx2 IoFlush = None ->
         FlushExtendingFork fv' tx2
         = Done (None, mmMem staged tx2,
                 set_extendingFork
                   (set_extendingForkHeadHash fv' zeroHash) None,
                 [EvFlush; EvRollback TheExtendingFork]).
Proof.
  intros Hv Hnew Hcall.
  unfold ValidatePayload, validatePayloadLocked. rewrite Hv, Hnew.
  unfold stagingBatch in Hcall.
  destruct (extendingFork fv) as [m|] eqn:Hm;
    unfold validateAndStorePayload; simpl; rewrite Hv, Hcall; simpl;
    do 2 eexists; (split; [reflexivity|]);
    (split_and!; [reflexivity|reflexivity|]);
    intros tx2 Hflush; unfold FlushExtendingFork; simpl; rewrite Hflush;
    reflexivity.
Qed.

Lemma ValidatePayload_then_flush_witness :
  exists fv' opened,
    ValidatePayload 0 (NewForkValidator 100 validatesAll) chainTx headerB
      (Some someBody) true
    = Done (mkPayloadStatus EngineStatus_VALID (HeaderHash headerB) None
              None, fv',
            [opened;
             EvValidatePayload TheExtendingFork headerB (Some someBody) 0 []
               [] None])
    /\ extendingFork fv' = Some (NewMemoryBatch chainTx)
    /\ ExtendingForkHeadHash fv' = HeaderHash headerB
    /\ forall tx2,
         ioFault tx2 IoFlush = None ->
         FlushExtendingFork fv' tx2
         = Done (None, mmMem (NewMemoryBatch chainTx) tx2,
                 set_extendingFork
                   (set_extendingForkHeadHash fv' zeroHash) None,
                 [EvFlush; EvRollback TheExtendingFork]).
Proof.
  apply (ValidatePayload_then_flush 0 (NewForkValidator 100 validatesAll)
           chainTx headerB someBody validatesAll (NewMemoryBatch chainTx)).
  - reflexivity.
  - reflexivity.
  - reflexivity.
Defined.

(** *** Discarding *)

(** [ClearWithUnwind], whenever it returns, leaves the validator with no
    extending fork and a zero head hash and everything else as it was; it
    rolls back the fork that existed; without an accumulator it makes no
    call on the txpool and always returns. *)
Theorem ClearWithUnwind_clears (fv : ForkValidator) (tx : Tx)
    (accumulator : option Accumulator) :
  (forall fv' evs,
     ClearWithUnwind fv tx accumulator = Done (fv', evs) ->
     fv' = set_extendingFork (set_extendingForkHeadHash fv zeroHash) None
     /\ (is_Some (extendingFork fv) -> EvRollback TheExtendingFork ∈ evs)
     /\ (extendingFork fv = None -> evs = []))
  /\ (accumulator = None ->
      exists evs,
        ClearWithUnwind fv tx accumulator
        = Done (set_extendingFork (set_extendingForkHeadHash fv zeroHash)
                  None, evs)
        /\ Forall (fun e => isAccumulatorCall e = false) evs).
Proof.
  unfold ClearWithUnwind, clear. split.
  - intros fv' evs.
    destruct (extendingFork fv) as [m|] eqn:Hm;
      [destruct accumulator;
       [destruct (sideForksBlock fv !! extendingForkHeadHash fv);
        [case_bool_decide;
         [destruct (notifyTxPool _ _) as [[err evs0]| |]; try discriminate|]
        |]
       |]
      |];
      simpl; rewrite ?Hm; intros [= <- <-];
      (split_and!; [reflexivity| |intros; try discriminate; done]);
      intros Hsome; try (by destruct Hsome); try apply list_elem_of_here.
    apply list_elem_of_further, elem_of_app. right.
    apply elem_of_app. right. apply list_elem_of_here.
  - intros ->.
    destruct (extendingFork fv) as [m|] eqn:Hm; simpl; rewrite ?Hm;
      eexists; (split; [reflexivity|]); repeat constructor.
Qed.

End EngineapiMore.

(** ** Further properties of the headers and finish stages *)

Module StagedsyncMore.

Import Engineapi Stagedsync Scenario Properties StagedsyncFacts.

(** *** Unwinding without a bad block *)

(** An unwind that names no bad block and returns nil changes nothing but
    the canonical-hash index: the head header hash, the stage progress and
    the unwind marker are not written, and no header is reported bad. *)
Theorem HeadersUnwind_plain (u : UnwindState) (s : StageState)
    (tx : option Tx) (cfg : HeadersCfg) (test : bool) :
  let before := txBefore tx (db cfg) in
  let r := HeadersUnwind u s tx cfg test in
  BadBlock u = zeroHash ->
  unwindErr r = None ->
  txAfter r
  = set_HeaderCanonical before
      (filter (fun kv : Z * Z => kv.1 < Uint64 (UnwindPoint u + 1))
         (HeaderCanonical before))
  /\ hd (unwindCfg r) = hd cfg.
Proof.
  intros before r Hbad. subst before r.
  assert (Htx : forall t err t' hd',
             headersUnwindTx u s t (hd cfg) test = (err, t', hd') ->
             err = None ->
             t' = set_HeaderCanonical t
                    (filter (fun kv : Z * Z =>
                               kv.1 < Uint64 (UnwindPoint u + 1))
                       (HeaderCanonical t))
             /\ hd' = hd cfg).
  { intros t err t' hd'. unfold headersUnwindTx. rewrite Hbad. simpl.
    unfold TruncateCanonicalHash, io.
    destruct (ioFault t IoTruncateCanonicalHash);
      intros [= <- <- <-]; [discriminate|done]. }
  unfold HeadersUnwind, txAfter, txBefore.
  destruct tx as [tx|].
  - destruct (headersUnwindTx u s tx (hd cfg) test) as [[err tx'] hd'] eqn:Hrun.
    simpl. intros ->. by eapply Htx in Hrun.
  - unfold BeginRw. destruct (beginFault (db cfg)); [discriminate|].
    destruct (headersUnwindTx u s (committed (db cfg)) (hd cfg) test)
      as [[err tx'] hd'] eqn:Hrun.
    destruct err; [discriminate|].
    unfold Commit, io. destruct (ioFault tx' IoCommit); [discriminate|].
    simpl. intros _. by eapply Htx in Hrun.
Qed.

Lemma HeadersUnwind_plain_witness :
  txAfter (HeadersUnwind unwindTo98 headersState (Some chainTx) headersCfg
             false)
  = set_HeaderCanonical chainTx
      (filter (fun kv : Z * Z => kv.1 < Uint64 (98 + 1))
         (HeaderCanonical chainTx))
  /\ hd (unwindCfg (HeadersUnwind unwindTo98 headersState (Some chainTx)
                      headersCfg false)) = hd headersCfg.
Proof.
  apply (HeadersUnwind_plain unwindTo98 headersState (Some chainTx)
           headersCfg false).
  - reflexivity.
  - vm_compute. reflexivity.
Defined.

(** *** Canonical fixup, repeated *)

(** With fuel above the height, canonical fixup returns, in a store whose
    headers of height 1 descend from the canonical block of height 0. *)
Theorem fixCanonicalChain_returns (fuel : nat) (height : Z) (hash : Hash)
    (tx : Tx) :
  0 <= height < 2 ^ 64 ->
  rootedAtGenesis tx ->
  height < Z.of_nat fuel ->
  exists r, fixCanonicalChain fuel height hash tx = Done r.
Proof.
  intros Hrange Hroot Hfuel. unfold fixCanonicalChain.
  case_bool_decide; [eauto|].
  apply fixCanonicalLoop_enough_fuel; auto. lia.
Qed.

Lemma fixCanonicalChain_returns_witness :
  exists r, fixCanonicalChain 3 2 622 unmarkedTx = Done r.
Proof.
  apply (fixCanonicalChain_returns 3 2 622 unmarkedTx).
  - lia.
  - apply (bool_decide_unpack _). vm_compute. exact I.
  - simpl. lia.
Defined.

(** A fixup that ended without error has made the tip canonical, and a
    second fixup of the same tip on the resulting store writes nothing. *)
Theorem fixCanonicalChain_idempotent (fuel : nat) (height : Z)
    (hash : Hash) (tx tx' : Tx) (fuel2 : nat) :
  fixCanonicalChain fuel height hash tx = Done (None, tx') ->
  0 < height < 2 ^ 64 ->
  rootedAtGenesis tx ->
  default zeroHash (HeaderCanonical tx' !! height) = hash
  /\ fixCanonicalChain (S fuel2) height hash tx' = Done (None, tx').
Proof.
  unfold fixCanonicalChain. intros Hrun Hrange Hroot.
  rewrite bool_decide_eq_false_2 in * by lia.
  assert (Hfault : ioFault tx (IoReadCanonicalHash height) = None).
  { destruct fuel as [|fuel]; [discriminate|]. simpl in Hrun.
    unfold CanonicalHash, ReadCanonicalHash, io in Hrun.
    by destruct (ioFault tx (IoReadCanonicalHash height)). }
  apply fixCanonicalLoop_walk in Hrun
    as (Hframe & w & Hw & Hwritten & Hkept & Hstop); [|lia|done|lia].
  assert (Htip : default zeroHash (HeaderCanonical tx' !! height) = hash).
  { destruct w as [|w].
    - destruct (Hstop eq_refl) as (a & Ha & Hmatch). simpl in Ha, Hmatch.
      injection Ha as <-. rewrite Z.sub_0_r in Hmatch.
      rewrite Hkept by lia. exact Hmatch.
    - destruct (Hwritten 0%nat) as (a & Ha & _ & Hset); [lia|].
      simpl in Ha, Hset. injection Ha as <-. rewrite Z.sub_0_r in Hset.
      by rewrite Hset. }
  split; [exact Htip|]. simpl.
  unfold CanonicalHash, ReadCanonicalHash, io.
  rewrite Hframe. simpl. rewrite Hfault.
  rewrite bool_decide_eq_false_2; [reflexivity|]. intros Hne. by apply Hne.
Qed.

Lemma fixCanonicalChain_idempotent_witness :
  exists tx',
    fixCanonicalChain 3 2 622 unmarkedTx = Done (None, tx')
    /\ default zeroHash (HeaderCanonical tx' !! 2) = 622
    /\ fixCanonicalChain 1 2 622 tx' = Done (None, tx').
Proof.
  eexists. split; [vm_compute; reflexivity|].
  eapply (fixCanonicalChain_idempotent 3 2 622 unmarkedTx).
  - vm_compute. reflexivity.
  - lia.
  - apply (bool_decide_unpack _). vm_compute. exact I.
Defined.

(** *** The finish stage with new progress *)

Lemma finishForwardTx_commit (s : StageState) (tx : Tx) (cfg : FinishCfg)
    (initialCycle : bool) (tx' : Tx) (cfg' : FinishCfg)
    (steps : list FinishStep) (e : Z) :
  finishForwardTx s tx cfg initialCycle = Done (ReachedCommit, tx', cfg', steps) ->
  ExecutionAt s tx = Ok e ->
  BlockNumber s < e
  /\ ioFault tx' = ioFault tx
  /\ SyncStageProgress tx' = <[ID s := e]> (SyncStageProgress tx)
  /\ HeadBlockKey tx' = HeadHeaderKey tx
  /\ HeadHeaderKey tx' = HeadHeaderKey tx
  /\ HeaderCanonical tx' = HeaderCanonical tx
  /\ (initialCycle = true -> ErigonVersionFinished tx' = true)
  /\ forkValidator cfg'
     = (fun fv => (NotifyCurrentHeight fv e).1) <$> forkValidator cfg
  /\ finishDb cfg' = finishDb cfg
  /\ exists block,
       ReadCurrentBlock tx' = Some block
       /\ headCh cfg' = (fun ch => trySend ch block) <$> headCh cfg.
Proof.
  unfold finishForwardTx. intros Hrun Hexec. rewrite Hexec in Hrun.
  case_bool_decide as Hle; [discriminate|].
  unfold Update, SaveStageProgress, SetErigonVersion, io in Hrun.
  simpl in Hrun.
  destruct (ioFault tx (IoSaveStageProgress (ID s))); [discriminate|].
  destruct cfg as [d ch fv].
  destruct fv as [fv|]; destruct initialCycle; simpl in Hrun;
    try (destruct (ioFault tx IoSetVersion); [discriminate|]);
    match type of Hrun with
    | context [ReadCurrentBlock ?t] =>
        destruct (ReadCurrentBlock t) as [block|] eqn:Hblock;
        [|discriminate]
    end;
    destruct ch as [ch|]; simpl in Hrun;
    injection Hrun as <- <- <-;
    (split_and!; [lia|done..|eauto]).
Qed.

(** A [FinishForward] on the caller's transaction that finds new execution
    progress and returns nil has set the head-block hash to the head header
    hash, recorded the execution height as the progress of its stage and
    notified the fork validator of that height; called again with the
    progress it recorded, it does nothing. *)
Theorem FinishForward_settles (s : StageState) (tx : Tx) (cfg : FinishCfg)
    (initialCycle : bool) (r : Finished) (e : Z) :
  FinishForward s (Some tx) cfg initialCycle = Done r ->
  finishErr r = None ->
  ExecutionAt s tx = Ok e ->
  BlockNumber s < e ->
  ID s <> StageExecution ->
  exists tx',
    finishTx r = Some tx'
    /\ HeadBlockKey tx' = HeadHeaderKey tx
    /\ SyncStageProgress tx' !! ID s = Some e
    /\ forkValidator (finishCfg r)
       = (fun fv => (NotifyCurrentHeight fv e).1) <$> forkValidator cfg
    /\ forall again,
         FinishForward (mkStageState (ID s) e) (Some tx') (finishCfg r) again
         = Done (mkFinished None (Some tx') (finishCfg r) []).
Proof.
  unfold FinishForward at 1. intros Hrun Herr Hexec Hlt Hid.
  destruct (finishForwardTx s tx cfg initialCycle)
    as [[[[flow tx'] cfg'] steps]| |] eqn:Htx; try discriminate.
  destruct flow as [err|].
  { injection Hrun as <-. simpl in Herr. subst err.
    unfold finishForwardTx in Htx. rewrite Hexec in Htx.
    rewrite bool_decide_eq_false_2 in Htx by lia.
    repeat (case_match; simplify_eq). }
  injection Hrun as <-. simpl.
  eapply finishForwardTx_commit in Htx
    as (_ & Hfault & Hprogress & Hhead & _ & _ & _ & Hfv & _); eauto.
  exists tx'. split_and!; auto.
  - rewrite Hprogress. apply lookup_insert_eq.
  - intros again. unfold FinishForward, finishForwardTx.
    assert (Hnext : ExecutionAt (mkStageState (ID s) e) tx' = Ok e).
    { unfold ExecutionAt, GetStageProgress, io in *.
      rewrite Hfault, Hprogress, lookup_insert_ne by done.
      exact Hexec. }
    rewrite Hnext. simpl. rewrite bool_decide_eq_true_2 by lia. reflexivity.
Qed.

Lemma FinishForward_settles_witness :
  exists tx',
    finishTx MoreScenario.settled = Some tx'
    /\ HeadBlockKey tx' = HeadHeaderKey MoreScenario.progressTx
    /\ SyncStageProgress tx' !! StageFinish = Some 100
    /\ forkValidator (finishCfg MoreScenario.settled)
       = (fun fv => (NotifyCurrentHeight fv 100).1)
           <$> forkValidator sampleCfg
    /\ forall again,
         FinishForward (mkStageState StageFinish 100) (Some tx')
           (finishCfg MoreScenario.settled) again
         = Done (mkFinished None (Some tx')
                   (finishCfg MoreScenario.settled) []).
Proof.
  apply (FinishForward_settles MoreScenario.finishBehind
           MoreScenario.progressTx sampleCfg false MoreScenario.settled 100).
  - vm_compute. reflexivity.
  - reflexivity.
  - reflexivity.
  - simpl. lia.
  - discriminate.
Defined.

(** *** Unwinding on a bad block *)

Global Instance keyLe_transitive {V : Type} : Transitive (@keyLe V).
Proof. intros x y z. unfold keyLe. lia. Qed.

Global Instance keyLe_total {V : Type} : Total (@keyLe V).
Proof. intros x y. unfold keyLe. lia. Qed.

Lemma rowsFrom_sorted {V : Type} (t : gmap (Z * Z) V) (from : Z) :
  StronglySorted keyLe (rowsFrom t from).
Proof. apply StronglySorted_merge_sort; apply _. Qed.

Lemma elem_of_rowsFrom {V : Type} (t : gmap (Z * Z) V) (from : Z)
    (r : (Z * Z) * V) :
  r ∈ rowsFrom t from <-> from <= r.1.1 /\ t !! r.1 = Some r.2.
Proof.
  unfold rowsFrom. rewrite merge_sort_Permutation, list_elem_of_filter.
  destruct r as [k v]. simpl. by rewrite elem_of_map_to_list.
Qed.

(** What the scan for descendants has reported when it ends without error,
    on rows none of which comes before a row it is the child of. *)
Lemma markDescendants_closed (tx : Tx) :
  forall rows hd0 hd',
    markDescendants tx hd0 rows = (hd', None) ->
    StronglySorted
      (fun c r : (Z * Z) * Header => HeaderHash r.2 <> ParentHash c.2) rows ->
    Forall (fun c : (Z * Z) * Header => HeaderHash c.2 <> ParentHash c.2) rows ->
    badHeaders hd0 ⊆ badHeaders hd'
    /\ (forall r, r ∈ rows -> ParentHash r.2 ∈ badHeaders hd' ->
                  HeaderHash r.2 ∈ badHeaders hd')
    /\ (forall x, x ∈ badHeaders hd' ->
                  x ∈ badHeaders hd0
                  \/ exists r, r ∈ rows /\ x = HeaderHash r.2
                               /\ ParentHash r.2 ∈ badHeaders hd').
Proof.
  induction rows as [|[k h] rows IH]; intros hd0 hd' Hrun Hsorted Hself;
    simpl in Hrun.
  - injection Hrun as <-. split_and!; [done| |eauto].
    intros r Hr. by apply elem_of_nil in Hr.
  - destruct (ioFault tx (IoNextHeader k.1 k.2)); [discriminate|].
    destruct (ioFault tx (IoDecodeHeader k.1 k.2)); [discriminate|].
    apply StronglySorted_cons in Hsorted as [Hlater Hsorted].
    apply Forall_cons in Hself as [Hown Hself].
    unfold IsBadHeader in Hrun. rewrite Forall_forall in Hlater.
    destruct (decide (ParentHash h ∈ badHeaders hd0)) as [Hbad|Hbad].
    + rewrite bool_decide_eq_true_2 in Hrun by done.
      apply IH in Hrun as (Hsub & Hclosed & Hgen); [|done|done].
      simpl in Hsub, Hgen. rewrite elem_of_subseteq in Hsub.
      split_and!.
      * apply elem_of_subseteq. intros x Hx.
        apply Hsub, elem_of_union. by right.
      * intros r Hr Hparent.
        apply elem_of_cons in Hr as [->|Hr]; [|by apply Hclosed].
        simpl. apply Hsub, elem_of_union. left. by apply elem_of_singleton.
      * intros x Hx. destruct (Hgen x Hx) as [Hold|(r & Hr & Heq & Hp)].
        -- apply elem_of_union in Hold as [Hnew|Hold]; [|by left].
           apply elem_of_singleton in Hnew as ->. right. exists (k, h).
           split_and!; [apply list_elem_of_here|done|].
           simpl. apply Hsub, elem_of_union. by right.
        -- right. exists r.
           split_and!; [by apply list_elem_of_further|done..].
    + rewrite bool_decide_eq_false_2 in Hrun by done.
      apply IH in Hrun as (Hsub & Hclosed & Hgen); [|done|done].
      split_and!.
      * done.
      * intros r Hr Hparent.
        apply elem_of_cons in Hr as [->|Hr]; [|by apply Hclosed].
        simpl in *. exfalso.
        destruct (Hgen _ Hparent) as [Hold|(r & Hr & Heq & _)]; [done|].
        by apply (Hlater r Hr).
      * intros x Hx. destruct (Hgen x Hx) as [Hold|(r & Hr & Heq & Hp)];
          [by left|].
        right. exists r.
        split_and!; [by apply list_elem_of_further|done..].
Qed.

Lemma StronglySorted_weaken {A : Type} (R R' : relation A) (l : list A) :
  StronglySorted R l ->
  (forall x y, x ∈ l -> y ∈ l -> R x y -> R' x y) ->
  StronglySorted R' l.
Proof.
  induction l as [|x l IH]; intros Hsorted Himpl; [constructor|].
  apply StronglySorted_cons in Hsorted as [Hall Hsorted].
  apply StronglySorted_cons. split.
  - rewrite Forall_forall in *. intros y Hy.
    apply Himpl; [apply list_elem_of_here|by apply list_elem_of_further|].
    by apply Hall.
  - apply IH; [done|]. intros y z Hy Hz.
    apply Himpl; by apply list_elem_of_further.
Qed.

Lemma headersUnwindTx_marked (u : UnwindState) (s : StageState) (tx : Tx)
    (hd0 : HeaderDownload) (test : bool) (tx' : Tx) (hd' : HeaderDownload) :
  BadBlock u <> zeroHash ->
  headersUnwindTx u s tx hd0 test = (None, tx', hd') ->
  markDescendants tx (ReportBadHeader hd0 (BadBlock u))
    (rowsFrom (Headers tx) (Uint64 (UnwindPoint u + 1))) = (hd', None).
Proof.
  intros Hbad. unfold headersUnwindTx.
  rewrite bool_decide_eq_true_2 by done.
  destruct (ioFault tx IoCursorHeaders); [by intros [= <- <-]|].
  destruct (markDescendants _ _ _) as [hd1 [e|]]; [by intros [= <- <-]|].
  intros Hrun. f_equal.
  repeat (case_match; simplify_eq; try done).
Qed.

(** An unwind on a bad block that returns nil has reported as bad the bad
    block and, among the headers above the unwind point, exactly the
    descendants of bad headers: every such header whose parent is reported
    bad is reported bad, and nothing else is added to what was reported
    before.  The header rows are those of a chain: a parent has a smaller
    number than its child. *)
Theorem HeadersUnwind_reports_descendants (u : UnwindState)
    (s : StageState) (tx : option Tx) (cfg : HeadersCfg) (test : bool) :
  let before := txBefore tx (db cfg) in
  let r := HeadersUnwind u s tx cfg test in
  let from := Uint64 (UnwindPoint u + 1) in
  let bad := badHeaders (hd (unwindCfg r)) in
  BadBlock u <> zeroHash ->
  unwindErr r = None ->
  (forall k1 h1,
     Headers before !! k1 = Some h1 ->
     forall k2 h2,
       Headers before !! k2 = Some h2 ->
       from <= k1.1 -> from <= k2.1 ->
       HeaderHash h1 = ParentHash h2 -> k1.1 < k2.1) ->
  BadBlock u ∈ bad
  /\ badHeaders (hd cfg) ⊆ bad
  /\ (forall k h, Headers before !! k = Some h -> from <= k.1 ->
                  ParentHash h ∈ bad -> HeaderHash h ∈ bad)
  /\ (forall x, x ∈ bad ->
                x ∈ badHeaders (hd cfg) \/ x = BadBlock u
                \/ exists k h, Headers before !! k = Some h /\ from <= k.1
                               /\ x = HeaderHash h /\ ParentHash h ∈ bad).
Proof.
  intros before r from bad Hbad Herr Hchain.
  assert (Hmarked : markDescendants before
                      (ReportBadHeader (hd cfg) (BadBlock u))
                      (rowsFrom (Headers before) from)
                    = (hd (unwindCfg r), None)).
  { subst before r from. revert Herr. unfold HeadersUnwind, txBefore.
    destruct tx as [tx|].
    - destruct (headersUnwindTx u s tx (hd cfg) test) as [[err tx'] hd'] eqn:Hrun.
      simpl. intros ->. by eapply headersUnwindTx_marked.
    - unfold BeginRw. destruct (beginFault (db cfg)); [discriminate|].
      destruct (headersUnwindTx u s (committed (db cfg)) (hd cfg) test)
        as [[err tx'] hd'] eqn:Hrun.
      destruct err; [discriminate|].
      unfold Commit, io. destruct (ioFault tx' IoCommit); [discriminate|].
      simpl. intros _. by eapply headersUnwindTx_marked. }
  apply markDescendants_closed in Hmarked as (Hsub & Hclosed & Hgen).
  - fold bad in Hsub, Hclosed, Hgen. simpl in Hsub, Hgen.
    rewrite elem_of_subseteq in Hsub. split_and!.
    + apply Hsub, elem_of_union. left. by apply elem_of_singleton.
    + apply elem_of_subseteq. intros x Hx. apply Hsub, elem_of_union. by right.
    + intros k h Hrow Hfrom. apply (Hclosed (k, h)).
      by apply elem_of_rowsFrom.
    + intros x Hx. destruct (Hgen x Hx) as [Hold|([k h] & Hr & Heq & Hp)].
      * apply elem_of_union in Hold as [Hnew|Hold]; [|by left].
        apply elem_of_singleton in Hnew. right. by left.
      * apply elem_of_rowsFrom in Hr as [Hfrom Hrow]. right. right.
        exists k, h. done.
  - eapply StronglySorted_weaken; [apply rowsFrom_sorted|].
    intros [k1 h1] [k2 h2] H1 H2 Hle Heq.
    apply elem_of_rowsFrom in H1 as [Hf1 Hr1], H2 as [Hf2 Hr2].
    simpl in *. pose proof (Hchain k2 h2 Hr2 k1 h1 Hr1 Hf2 Hf1 Heq).
    unfold keyLe in Hle. simpl in Hle. lia.
  - apply Forall_forall. intros [k h] Hr Heq.
    apply elem_of_rowsFrom in Hr as [Hf Hr]. simpl in *.
    pose proof (Hchain k h Hr k h Hr Hf Hf Heq). lia.
Qed.

Lemma HeadersUnwind_reports_descendants_witness :
  let r := HeadersUnwind MoreScenario.unwindBadY headersState
             (Some MoreScenario.forkedTx) headersCfg false in
  let bad := badHeaders (hd (unwindCfg r)) in
  2100 ∈ bad
  /\ badHeaders (hd headersCfg) ⊆ bad
  /\ (forall k h, Headers MoreScenario.forkedTx !! k = Some h ->
                  Uint64 (99 + 1) <= k.1 ->
                  ParentHash h ∈ bad -> HeaderHash h ∈ bad)
  /\ (forall x, x ∈ bad ->
                x ∈ badHeaders (hd headersCfg) \/ x = 2100
                \/ exists k h, Headers MoreScenario.forkedTx !! k = Some h
                               /\ Uint64 (99 + 1) <= k.1
                               /\ x = HeaderHash h /\ ParentHash h ∈ bad).
Proof.
  apply (HeadersUnwind_reports_descendants MoreScenario.unwindBadY
           headersState (Some MoreScenario.forkedTx) headersCfg false).
  - discriminate.
  - vm_compute. reflexivity.
  - apply (bool_decide_unpack _). vm_compute. exact I.
Defined.

(** The headers reported bad in that run: [Y@100] and its child [Z@101],
    not the canonical [A@100] and [B@101]. *)
Example HeadersUnwind_reports_side_fork :
  badHeaders (hd (unwindCfg (HeadersUnwind MoreScenario.unwindBadY
                               headersState (Some MoreScenario.forkedTx)
                               headersCfg false)))
  = {[ 2100; 2101 ]}.
Proof. vm_compute. reflexivity. Qed.

(** *** The head elected after a bad block *)







End StagedsyncMore.


(** ** Properties of the PoS handlers of the headers stage *)

Module StageHeadersPoSFacts.

Import Engineapi Stagedsync Headerdownload Requests StageHeadersPoS.
Import Scenario MoreScenario Properties PoSProperties PoSScenario.
Import StagedsyncFacts.

Section Facts.

Context {HI : Type} `{!Services HI}.

Implicit Types σ : Heap HI.

(** *** Scheduling a PoS download *)

(** A download that was scheduled holds the downloader: it has stored the
    request, the tip and an empty collector, and until the collector is
    drained every further call returns false and changes nothing but the
    status of its request in the beacon request list. *)
Theorem schedulePoSDownload_exclusive σ σ1 (id : Z) (hash : Hash)
    (height : Z) (tip : Hash) :
  schedulePoSDownload id hash height tip σ = Done (true, σ1) ->
  posStatus (heapHd σ1) = Syncing
  /\ requestId (heapHd σ1) = id
  /\ posDownloaderTip (heapHd σ1) = tip
  /\ headersCollector (heapHd σ1) = Some []
  /\ forall id' hash' height' tip',
       schedulePoSDownload id' hash' height' tip' σ1
       = Done (false,
               set_effects σ1
                 (effects σ1 ++ [EvSetStatus id' DataWasMissing])).
Proof.
  unfold schedulePoSDownload. cbv [bind ret effect PosStatus getHd].
  simpl. case_bool_decide; [discriminate|].
  cbv [SetRequestId SetPoSDownloaderTip SetHeaderToDownloadPoS SetPOSSync
       SetHeadersCollector SetPosStatus modifyHd]. simpl.
  intros [= <-]. simpl. by split_and!.
Qed.

(** *** Replaying a PoS download *)

Local Arguments ValidatePayload : simpl never.
Local Arguments fixCanonicalChain : simpl never.
Local Arguments writeForkChoiceHashes : simpl never.
Local Arguments FlushExtendingFork : simpl never.
Local Arguments ClearWithUnwind : simpl never.

Lemma set_badPoSHeaders_same (hd : PosDownload) :
  set_badPoSHeaders hd (badPoSHeaders hd) = hd.
Proof. by destruct hd. Qed.

Lemma fedHeaders_app (evs1 evs2 : list Effect) :
  fedHeaders (evs1 ++ evs2) = fedHeaders evs1 ++ fedHeaders evs2.
Proof. apply omap_app. Qed.

Lemma validatorCalls_app (evs1 evs2 : list Effect) :
  validatorCalls (evs1 ++ evs2) = validatorCalls evs1 ++ validatorCalls evs2.
Proof. apply omap_app. Qed.

Lemma replies_app (evs1 evs2 : list Effect) :
  replies (evs1 ++ evs2) = replies evs1 ++ replies evs2.
Proof. apply omap_app. Qed.

(** One call of the load function on a chain that is still good. *)
Lemma headerLoadFunc_good (fuel : nat) (value : result Header) (r : Replay)
    σ (err : option Error) (r' : Replay) σ' :
  badChainError r = None ->
  headerLoadFunc fuel value r σ = Done ((err, r'), σ') ->
  heapDb σ' = heapDb σ
  /\ ((exists e, value = Err e /\ err = Some e /\ r' = r /\ σ' = σ)
      \/ exists h,
           value = Ok h
           /\ lastValidHash r' = ParentHash h
           /\ ((err = None
                /\ is_Some (badChainError r')
                /\ heapHd σ'
                   = set_badPoSHeaders (heapHd σ)
                       (<[HeaderHash h := ParentHash h]> (bad σ))
                /\ fedHeaders (effects σ') = fedHeaders (effects σ))
               \/ (badChainError r' = None
                   /\ heapHd σ' = heapHd σ
                   /\ fedHeaders (effects σ')
                      = fedHeaders (effects σ) ++ [h])
               \/ (is_Some err
                   /\ badChainError r' = None
                   /\ heapHd σ' = heapHd σ
                   /\ fedHeaders (effects σ') = fedHeaders (effects σ)))).
Proof.
  intros Hgood. unfold headerLoadFunc.
  destruct value as [h|e].
  2:{ intros [= <- <- <-]. split; [done|]. left. eauto. }
  rewrite Hgood.
  cbv [bind ret hdVerifyHeader getTx ReportBadHeaderPoS modifyHd
       hiFeedHeaderPoS fvValidatePayload]. simpl.
  destruct (VerifyHeader (heapTx σ) h) as [verr|] eqn:Hv.
  { intros [= <- <- <-]. simpl. split; [done|]. right. exists h.
    split_and!; try done. left. split_and!; eauto. }
  destruct (foundPow r) eqn:Hpow.
  { destruct (FeedHeaderPoS (heapHi σ) (heapTx σ) h (HeaderHash h))
      as [[ferr hi'] tx'] eqn:Hf.
    intros [= <- <- <-]. simpl. split; [done|]. right. exists h.
    split_and!; try done. right. left.
    rewrite fedHeaders_app. done. }
  case_bool_decide as Hd.
  { destruct (FeedHeaderPoS (heapHi σ) (heapTx σ) h (HeaderHash h))
      as [[ferr hi'] tx'] eqn:Hf.
    intros [= <- <- <-]. simpl. split; [done|]. right. exists h.
    split_and!; try done. right. left.
    rewrite fedHeaders_app. done. }
  destruct (ValidatePayload fuel (heapFv σ) (heapTx σ) h None false)
    as [[[st fv'] evs]| |] eqn:Hval; [|discriminate..].
  destruct (criticalError st) as [cerr|] eqn:Hc.
  { intros [= <- <- <-]. simpl. split; [done|]. right. exists h.
    split_and!; try done. right. right.
    rewrite fedHeaders_app, app_nil_r. split_and!; eauto. }
  destruct (validationError st) as [verr|] eqn:Hve.
  { intros [= <- <- <-]. simpl. split; [done|]. right. exists h.
    split_and!; try done. left.
    rewrite fedHeaders_app, app_nil_r. split_and!; eauto. }
  simpl.
  destruct (FeedHeaderPoS (heapHi σ) (heapTx σ) h (HeaderHash h))
    as [[ferr hi'] tx'] eqn:Hf.
  intros [= <- <- <-]. simpl. split; [done|]. right. exists h.
  split_and!; try done. right. left.
  rewrite !fedHeaders_app, app_nil_r. done.
Qed.


Lemma Load_cons (fuel : nat) (value : result Header)
    (values : list (result Header)) (r : Replay) σ :
  Load fuel (value :: values) r σ
  = match headerLoadFunc fuel value r σ with
    | Done ((Some err, r), σ) => Done ((Some err, r), σ)
    | Done ((None, r), σ) => Load fuel values r σ
    | Panics => Panics
    | OutOfFuel => OutOfFuel
    end.
Proof.
  simpl. unfold bind.
  by destruct (headerLoadFunc fuel value r σ) as [[[[e|] ?] ?]| |].
Qed.

(** Once the chain is bad every header is reported with the last valid
    hash and nothing else happens. *)
Lemma Load_poisoned (fuel : nat) (r : Replay) (hs : list Header) :
  is_Some (badChainError r) ->
  forall σ,
    exists σ',
      Load fuel (Ok <$> hs) r σ = Done ((None, r), σ')
      /\ heapHd σ'
         = set_badPoSHeaders (heapHd σ)
             (foldl (fun m x => <[HeaderHash x := lastValidHash r]> m)
                (bad σ) hs)
      /\ effects σ' = effects σ
      /\ heapDb σ' = heapDb σ
      /\ heapTx σ' = heapTx σ
      /\ heapFv σ' = heapFv σ
      /\ heapHi σ' = heapHi σ.
Proof.
  intros [e He]. induction hs as [|h hs IH]; intros σ.
  { exists σ. unfold bad. simpl. rewrite set_badPoSHeaders_same. done. }
  rewrite fmap_cons, Load_cons. unfold headerLoadFunc. rewrite He.
  cbv [bind ret ReportBadHeaderPoS modifyHd].
  destruct (IH (set_heapHd σ
                  (set_badPoSHeaders (heapHd σ)
                     (<[HeaderHash h := lastValidHash r]>
                        (badPoSHeaders (heapHd σ))))))
    as (σ' & -> & Hhd & Hev & Hdb & Htx & Hfv & Hhi).
  exists σ'. split_and!; try done.
Qed.

(** A replay whose chain is still good, over values that all decode: the
    first [k] headers were handed to the inserter; then either the chain
    is still good and nothing was reported, or the header [k] failed and
    it and all after it are reported with its parent. *)
Lemma Load_decodable (fuel : nat) (hs : list Header) :
  forall (r : Replay) σ (err : option Error) (r' : Replay) σ',
    badChainError r = None ->
    Load fuel (Ok <$> hs) r σ = Done ((err, r'), σ') ->
    heapDb σ' = heapDb σ
    /\ exists k : nat,
         (k <= length hs)%nat
         /\ fedHeaders (effects σ') = fedHeaders (effects σ) ++ take k hs
         /\ ((badChainError r' = None
              /\ heapHd σ' = heapHd σ
              /\ (err = None -> k = length hs))
             \/ (err = None
                 /\ is_Some (badChainError r')
                 /\ exists f,
                      hs !! k = Some f
                      /\ lastValidHash r' = ParentHash f
                      /\ heapHd σ'
                         = set_badPoSHeaders (heapHd σ)
                             (foldl (fun m x =>
                                       <[HeaderHash x := ParentHash f]> m)
                                (bad σ) (drop k hs)))).
Proof.
  induction hs as [|h hs IH]; intros r σ err r' σ' Hgood.
  { intros [= <- <- <-]. split; [done|]. exists 0%nat.
    rewrite app_nil_r. split_and!; auto. }
  rewrite fmap_cons, Load_cons.
  destruct (headerLoadFunc fuel (Ok h) r σ) as [[[err1 r1] σ1]| |] eqn:Hstep;
    [|discriminate..].
  apply headerLoadFunc_good in Hstep as [Hdb Hstep]; [|done].
  destruct Hstep as [(e & ? & _)|(h' & [= <-] & Hlast & Hstep)];
    [discriminate|].
  destruct Hstep as [(-> & Hbad & Hhd & Hfed)
                    |[(Hstill & Hhd & Hfed)|([e ->] & Hstill & Hhd & Hfed)]].
  - destruct (Load_poisoned fuel r1 hs Hbad σ1)
      as (σ2 & -> & Hhd2 & Hev2 & Hdb2 & _).
    intros [= <- <- <-]. split; [congruence|]. exists 0%nat.
    rewrite app_nil_r, Hev2. split_and!; [lia|done|]. right.
    split_and!; [done..|]. exists h. split_and!; [done..|].
    rewrite Hhd2, Hhd, Hlast. unfold bad. rewrite Hhd. done.
  - destruct err1 as [e|].
    + intros [= <- <- <-]. split; [done|]. exists 1%nat.
      simpl. rewrite take_0. split_and!; [lia|done|]. left. done.
    + intros Hrest. apply IH in Hrest as [Hdb2 (k & Hk & Hfed2 & Hrest)];
        [|done].
      split; [congruence|]. exists (S k). simpl.
      rewrite Hfed2, Hfed, <- app_assoc. split_and!; [lia|done|].
      destruct Hrest as [(? & Hhd2 & Hall)|(? & ? & f & ? & ? & Hhd2)].
      * left. split_and!; [done|congruence|]. intros ?. f_equal. auto.
      * right. split_and!; [done..|]. exists f. split_and!; [done..|].
        rewrite Hhd2. unfold bad. rewrite Hhd. done.
  - intros [= <- <- <-]. split; [done|]. exists 0%nat.
    rewrite app_nil_r. split_and!; [lia|done|]. left. done.
Qed.

Lemma lookup_foldl_insert_const (c : Z) (hs : list Header) :
  forall (m : gmap Z Z) (key : Z),
    foldl (fun m x => <[HeaderHash x := c]> m) m hs !! key
    = if bool_decide (key ∈ HeaderHash <$> hs) then Some c else m !! key.
Proof.
  induction hs as [|h hs IH]; intros m key.
  { rewrite fmap_nil. cbn [foldl]. case_bool_decide as Hin; [|done].
    by apply not_elem_of_nil in Hin. }
  rewrite fmap_cons. cbn [foldl]. rewrite IH.
  destruct (decide (key = HeaderHash h)) as [->|Hne].
  - rewrite lookup_insert_eq.
    rewrite (bool_decide_eq_true_2 (_ ∈ _ :: _)); [|by left].
    by case_bool_decide.
  - rewrite lookup_insert_ne by done.
    case_bool_decide as Hin.
    + rewrite bool_decide_eq_true_2; [done|by right].
    + rewrite bool_decide_eq_false_2; [done|].
      intros [?|?]%elem_of_cons; done.
Qed.


Lemma headerLoadFunc_bad (fuel : nat) (value : result Header) (r : Replay)
    σ :
  is_Some (badChainError r) ->
  headerLoadFunc fuel value r σ
  = match value with
    | Err e => Done ((Some e, r), σ)
    | Ok h =>
        Done ((None, r),
              set_heapHd σ
                (set_badPoSHeaders (heapHd σ)
                   (<[HeaderHash h := lastValidHash r]> (bad σ))))
    end.
Proof.
  intros [e He]. unfold headerLoadFunc. destruct value; [|done].
  by rewrite He.
Qed.

(** The replay writes the downloader only in its bad-header map, and never
    the database. *)
Lemma headerLoadFunc_frame (fuel : nat) (value : result Header)
    (r : Replay) σ (err : option Error) (r' : Replay) σ' :
  headerLoadFunc fuel value r σ = Done ((err, r'), σ') ->
  heapDb σ' = heapDb σ
  /\ exists b, heapHd σ' = set_badPoSHeaders (heapHd σ) b.
Proof.
  destruct (badChainError r) as [e|] eqn:Hb.
  - rewrite headerLoadFunc_bad by (by rewrite Hb).
    destruct value; intros [= <- <- <-]; (split; [done|]).
    + by eexists.
    + exists (bad σ). by rewrite set_badPoSHeaders_same.
  - intros Hrun. apply headerLoadFunc_good in Hrun as [Hdb Hrun]; [|done].
    split; [done|].
    destruct Hrun as [(? & _ & _ & _ & ->)|(h & _ & _ & Hrun)].
    { exists (bad σ). by rewrite set_badPoSHeaders_same. }
    destruct Hrun as [(_ & _ & -> & _)|[(_ & -> & _)|(_ & _ & -> & _)]];
      [by eexists|exists (bad σ); by rewrite set_badPoSHeaders_same..].
Qed.

Lemma Load_frame (fuel : nat) (values : list (result Header)) :
  forall (r : Replay) σ (err : option Error) (r' : Replay) σ',
    Load fuel values r σ = Done ((err, r'), σ') ->
    heapDb σ' = heapDb σ
    /\ exists b, heapHd σ' = set_badPoSHeaders (heapHd σ) b.
Proof.
  induction values as [|value values IH]; intros r σ err r' σ'.
  { intros [= <- <- <-]. split; [done|]. exists (bad σ).
    by rewrite set_badPoSHeaders_same. }
  rewrite Load_cons.
  destruct (headerLoadFunc fuel value r σ) as [[[err1 r1] σ1]| |] eqn:Hstep;
    [|discriminate..].
  apply headerLoadFunc_frame in Hstep as [Hdb [b Hhd]].
  destruct err1 as [e|].
  - intros [= <- <- <-]. eauto.
  - intros Hrest. apply IH in Hrest as [Hdb2 [b2 Hhd2]].
    split; [congruence|]. exists b2. rewrite Hhd2, Hhd. done.
Qed.

Lemma Load_stays_poisoned (fuel : nat) (values : list (result Header)) :
  forall (r : Replay) σ (err : option Error) (r' : Replay) σ',
    is_Some (badChainError r) ->
    Load fuel values r σ = Done ((err, r'), σ') ->
    r' = r.
Proof.
  induction values as [|value values IH]; intros r σ err r' σ' Hbad.
  { by intros [= <- <- <-]. }
  rewrite Load_cons, headerLoadFunc_bad by done.
  destruct value as [h|e]; [|by intros [= <- <- <-]].
  intros Hrest. by apply IH in Hrest.
Qed.

(** A replay that ends good without an error has decoded and fed every
    value and reported nothing. *)
Lemma Load_clean (fuel : nat) (values : list (result Header)) :
  forall (r : Replay) σ (r' : Replay) σ',
    badChainError r = None ->
    Load fuel values r σ = Done ((None, r'), σ') ->
    badChainError r' = None ->
    exists hs,
      values = Ok <$> hs
      /\ fedHeaders (effects σ') = fedHeaders (effects σ) ++ hs
      /\ heapHd σ' = heapHd σ.
Proof.
  induction values as [|value values IH]; intros r σ r' σ' Hgood.
  { intros [= <- <-] _. exists []. by rewrite app_nil_r. }
  rewrite Load_cons.
  destruct (headerLoadFunc fuel value r σ) as [[[err1 r1] σ1]| |] eqn:Hstep;
    [|discriminate..].
  apply headerLoadFunc_good in Hstep as [Hdb Hstep]; [|done].
  destruct err1 as [e|]; [discriminate|].
  destruct Hstep as [(e & _ & ? & _)|(h & -> & Hlast & Hstep)];
    [discriminate|].
  destruct Hstep as [(_ & Hbad & Hhd & Hfed)
                    |[(Hstill & Hhd & Hfed)|([e ?] & _)]]; [| |discriminate].
  - intros Hrest Hend.
    apply Load_stays_poisoned in Hrest as ->; [|done].
    rewrite Hend in Hbad. by destruct Hbad.
  - intros Hrest Hend.
    apply IH in Hrest as (hs & -> & Hfed2 & Hhd2); [|done..].
    exists (h :: hs). rewrite Hfed2, Hfed, <- app_assoc.
    split_and!; [done..|congruence].
Qed.

(** Past the PoW range, or on a bad chain, the replay returns on any fuel
    and does not call the fork validator. *)
Lemma Load_skips_validation (fuel : nat) (values : list (result Header)) :
  forall (r : Replay) σ,
    foundPow r = true \/ is_Some (badChainError r) ->
    exists err r' σ',
      Load fuel values r σ = Done ((err, r'), σ')
      /\ heapFv σ' = heapFv σ
      /\ validatorCalls (effects σ') = validatorCalls (effects σ).
Proof.
  induction values as [|value values IH]; intros r σ Hskip.
  { by exists None, r, σ. }
  rewrite Load_cons.
  destruct (badChainError r) as [e|] eqn:Hb.
  - rewrite headerLoadFunc_bad by (by rewrite Hb).
    destruct value as [h|e']; [|by eexists _, _, _].
    destruct (IH r (set_heapHd σ
                      (set_badPoSHeaders (heapHd σ)
                         (<[HeaderHash h := lastValidHash r]> (bad σ)))))
      as (err & r' & σ' & -> & Hfv & Hcalls); [by right; rewrite Hb|].
    by exists err, r', σ'.
  - destruct Hskip as [Hpow|[? ?]]; [|done].
    unfold headerLoadFunc. destruct value as [h|e']; [|by eexists _, _, _].
    rewrite Hb.
    cbv [bind ret hdVerifyHeader getTx ReportBadHeaderPoS modifyHd
         hiFeedHeaderPoS]. simpl.
    destruct (VerifyHeader (heapTx σ) h) as [verr|] eqn:Hv.
    + match goal with
      | |- context [Load fuel values ?r1 ?σ1] =>
          destruct (IH r1 σ1) as (err & r' & σ' & -> & Hfv & Hcalls);
            [by right|]
      end.
      by exists err, r', σ'.
    + rewrite Hpow.
      destruct (FeedHeaderPoS (heapHi σ) (heapTx σ) h (HeaderHash h))
        as [[[ferr|] hi'] tx'] eqn:Hf.
      * eexists _, _, _. split_and!; [done..|]. simpl.
        by rewrite validatorCalls_app, app_nil_r.
      * match goal with
        | |- context [Load fuel values ?r1 ?σ1] =>
            destruct (IH r1 σ1) as (err & r' & σ' & -> & Hfv & Hcalls);
              [by left|]
        end.
        exists err, r', σ'. split_and!; [done..|].
        rewrite Hcalls. simpl. by rewrite validatorCalls_app, app_nil_r.
Qed.


Lemma verifyAndSaveDownloadedPoSHeaders_unfold (fuel : nat) σ
    (values : list (result Header)) :
  headersCollector (heapHd σ) = Some values ->
  verifyAndSaveDownloadedPoSHeaders fuel σ
  = match Load fuel values (mkReplay zeroHash None false) σ with
    | Done ((err, r), σ1) =>
        let σ2 :=
          if bool_decide (err ≠ None ∨ badChainError r ≠ None) then
            set_heapHd
              (set_effects σ1
                 (effects σ1 ++ [EvRemove (requestId (heapHd σ1))]))
              (set_badPoSHeaders (heapHd σ1)
                 (<[posDownloaderTip (heapHd σ1) := lastValidHash r]>
                    (bad σ1)))
          else σ1 in
        Done (tt,
              set_heapHd σ2
                (set_posStatus (set_headersCollector (heapHd σ2) None)
                   Idle))
    | Panics => Panics
    | OutOfFuel => OutOfFuel
    end.
Proof.
  intros Hc. unfold verifyAndSaveDownloadedPoSHeaders.
  cbv [bind ret HeadersCollector getHd]. rewrite Hc.
  destruct (Load fuel values (mkReplay zeroHash None false) σ)
    as [[[err r] σ1]| |]; [|done..].
  case_bool_decide; reflexivity.
Qed.

(** When the replay has left the downloader tip unreported, every value of
    the collector decoded to a header and was handed to the inserter, in
    the order of the collector, no header was reported bad, and the
    downloader is idle again with no collector. *)
Theorem replay_accepted (fuel : nat) σ σ' (values : list (result Header)) :
  headersCollector (heapHd σ) = Some values ->
  verifyAndSaveDownloadedPoSHeaders fuel σ = Done (tt, σ') ->
  bad σ' !! posDownloaderTip (heapHd σ) = None ->
  exists hs,
    values = Ok <$> hs
    /\ fedHeaders (effects σ') = fedHeaders (effects σ) ++ hs
    /\ bad σ' = bad σ
    /\ posStatus (heapHd σ') = Idle
    /\ headersCollector (heapHd σ') = None.
Proof.
  intros Hc Hrun Htip.
  rewrite (verifyAndSaveDownloadedPoSHeaders_unfold _ _ _ Hc) in Hrun.
  destruct (Load fuel values (mkReplay zeroHash None false) σ)
    as [[[err r] σ1]| |] eqn:Hload; [|discriminate..].
  pose proof (Load_frame _ _ _ _ _ _ _ Hload) as [_ [b Hframe]].
  simpl in Hrun. case_bool_decide as Hfail.
  { injection Hrun as <-. revert Htip. unfold bad. simpl.
    rewrite Hframe. simpl. by rewrite lookup_insert_eq. }
  injection Hrun as <-.
  destruct err as [e|]; [by destruct Hfail; left|].
  destruct (badChainError r) as [e|] eqn:Hb; [by destruct Hfail; right|].
  apply Load_clean in Hload as (hs & -> & Hfed & Hhd); [|done..].
  exists hs. unfold bad. simpl. rewrite Hhd. done.
Qed.


(** When the replay has newly reported a header of the collector, a
    header [f] at or before it was the first to fail: the headers before
    [f] were handed to the inserter and no other, and the reported header,
    every header after it and the downloader tip are all recorded with the
    parent of [f] as the last valid hash. *)
Theorem replay_poisons_descendants (fuel : nat) σ σ'
    (good : list Header) (h : Header) (rest : list Header) :
  headersCollector (heapHd σ) = Some (Ok <$> (good ++ h :: rest)) ->
  verifyAndSaveDownloadedPoSHeaders fuel σ = Done (tt, σ') ->
  NoDup (HeaderHash <$> (good ++ h :: rest)) ->
  posDownloaderTip (heapHd σ) <> HeaderHash h ->
  bad σ !! HeaderHash h = None ->
  is_Some (bad σ' !! HeaderHash h) ->
  exists (k : nat) (f : Header),
    (k <= length good)%nat
    /\ (good ++ [h]) !! k = Some f
    /\ fedHeaders (effects σ') = fedHeaders (effects σ) ++ take k good
    /\ bad σ' !! posDownloaderTip (heapHd σ) = Some (ParentHash f)
    /\ forall x, x ∈ h :: rest ->
         bad σ' !! HeaderHash x = Some (ParentHash f).
Proof.
  intros Hc Hrun Hnodup Htip Hbefore Hafter.
  rewrite (verifyAndSaveDownloadedPoSHeaders_unfold _ _ _ Hc) in Hrun.
  destruct (Load fuel (Ok <$> (good ++ h :: rest))
              (mkReplay zeroHash None false) σ)
    as [[[err r] σ1]| |] eqn:Hload; [|discriminate..].
  apply Load_decodable in Hload as [_ (k & Hk & Hfed & Hload)]; [|done].
  simpl in Hrun. unfold bad in *.
  destruct Hload as [(Hgood & Hhd & _)|(-> & Hbad & f & Hf & Hlast & Hhd)].
  { exfalso. revert Hafter. case_bool_decide; injection Hrun as <-;
      simpl; rewrite Hhd.
    - rewrite lookup_insert_ne by done. rewrite Hbefore.
      by intros [? ?].
    - rewrite Hbefore. by intros [? ?]. }
  rewrite bool_decide_eq_true_2 in Hrun
    by (right; intros Hn; rewrite Hn in Hbad; by destruct Hbad).
  injection Hrun as <-. simpl in *. rewrite Hhd in *. simpl in *.
  rewrite Hlast in *.
  assert (Hin : HeaderHash h ∈ HeaderHash <$> drop k (good ++ h :: rest)).
  { revert Hafter. rewrite lookup_insert_ne by done.
    rewrite lookup_foldl_insert_const. case_bool_decide; [done|].
    rewrite Hbefore. by intros [? ?]. }
  assert (Hle : (k <= length good)%nat).
  { destruct (decide (k <= length good)%nat) as [|Hgt]; [done|]. exfalso.
    rewrite drop_app_ge in Hin by lia.
    destruct (k - length good)%nat as [|m] eqn:Hm; [lia|]. simpl in Hin.
    rewrite fmap_app, fmap_cons in Hnodup.
    apply NoDup_app in Hnodup as (_ & _ & Hnodup).
    apply NoDup_cons in Hnodup as [Hnot _]. apply Hnot.
    rewrite fmap_drop in Hin. by apply subseteq_drop in Hin. }
  exists k, f. split_and!.
  - done.
  - destruct (decide (k = length good)) as [->|Hne].
    + rewrite list_lookup_middle in Hf by done.
      rewrite list_lookup_middle by done. done.
    + rewrite lookup_app_l in Hf by lia. rewrite lookup_app_l by lia. done.
  - rewrite fedHeaders_app, app_nil_r, Hfed.
    rewrite take_app_le by done. done.
  - apply lookup_insert_eq.
  - intros x Hx.
    destruct (decide (posDownloaderTip (heapHd σ) = HeaderHash x))
      as [->|Hne]; [apply lookup_insert_eq|].
    rewrite lookup_insert_ne by done.
    rewrite lookup_foldl_insert_const, bool_decide_eq_true_2; [done|].
    apply list_elem_of_fmap_2. rewrite drop_app_le by done.
    apply elem_of_app. by right.
Qed.

(** A download whose first header is of the PoW range is replayed on any
    fuel without a call to the fork validator. *)
Theorem replay_from_pow_skips_validation (fuel : nat) σ (h : Header)
    (values : list (result Header)) :
  headersCollector (heapHd σ) = Some (Ok h :: values) ->
  Difficulty h <> 0 ->
  exists σ',
    verifyAndSaveDownloadedPoSHeaders fuel σ = Done (tt, σ')
    /\ heapFv σ' = heapFv σ
    /\ validatorCalls (effects σ') = validatorCalls (effects σ).
Proof.
  intros Hc Hpow.
  rewrite (verifyAndSaveDownloadedPoSHeaders_unfold _ _ _ Hc).
  assert (Hload : exists err r' σ1,
             Load fuel (Ok h :: values) (mkReplay zeroHash None false) σ
             = Done ((err, r'), σ1)
             /\ heapFv σ1 = heapFv σ
             /\ validatorCalls (effects σ1) = validatorCalls (effects σ)).
  { rewrite Load_cons. unfold headerLoadFunc.
    cbv [bind ret hdVerifyHeader getTx ReportBadHeaderPoS modifyHd
         hiFeedHeaderPoS]. simpl.
    destruct (VerifyHeader (heapTx σ) h) as [verr|] eqn:Hv.
    - match goal with
      | |- context [Load fuel values ?r1 ?σ1] =>
          destruct (Load_skips_validation fuel values r1 σ1)
            as (err & r' & σ' & -> & Hfv & Hcalls); [by right|]
      end.
      by exists err, r', σ'.
    - rewrite bool_decide_eq_true_2 by done.
      destruct (FeedHeaderPoS (heapHi σ) (heapTx σ) h (HeaderHash h))
        as [[[ferr|] hi'] tx'] eqn:Hf.
      + eexists _, _, _. split_and!; [done..|]. simpl.
        by rewrite validatorCalls_app, app_nil_r.
      + match goal with
        | |- context [Load fuel values ?r1 ?σ1] =>
            destruct (Load_skips_validation fuel values r1 σ1)
              as (err & r' & σ' & -> & Hfv & Hcalls); [by left|]
        end.
        exists err, r', σ'. split_and!; [done..|].
        rewrite Hcalls. simpl. by rewrite validatorCalls_app, app_nil_r. }
  destruct Hload as (err & r' & σ1 & -> & Hfv & Hcalls).
  eexists. split; [done|]. simpl.
  case_bool_decide; simpl; [|done].
  by rewrite validatorCalls_app, app_nil_r.
Qed.


(** *** Finishing a fork choice after the unwind *)

(** The run of [finishHandlingForkChoice] that returns nil, step by
    step. *)
Lemma finishHandlingForkChoice_done (fuel : nat)
    (forkChoice : ForkChoiceMessage) (headHeight : Z) (s : StageState)
    (useExternalTx : bool) σ σ' :
  finishHandlingForkChoice fuel forkChoice headHeight s useExternalTx σ
  = Done (None, σ') ->
  exists (tx1 tx2 tx3 : Tx) (canonical : bool),
    fixCanonicalChain fuel headHeight (HeadBlockHash forkChoice) (heapTx σ)
    = Done (None, tx1)
    /\ WriteHeadHeaderHash tx1 (HeadBlockHash forkChoice) = Ok tx2
    /\ writeForkChoiceHashes forkChoice tx2 = (canonical, None, tx3)
    /\ Update s tx3 headHeight = Ok (heapTx σ')
    /\ heapDb σ'
       = (if useExternalTx then heapDb σ
          else mkDb (heapTx σ') (beginFault (heapDb σ)))
    /\ heapHd σ'
       = set_unsettledForkChoice
           (if canonical then heapHd σ
            else set_pendingPayloadHash (heapHd σ) zeroHash) None
    /\ effects σ'
       = effects σ
         ++ (if canonical then []
             else if bool_decide (pendingPayloadHash (heapHd σ) ≠ zeroHash)
                  then [EvPayloadStatusCh invalidForkchoice] else [])
    /\ heapFv σ' = heapFv σ
    /\ heapHi σ' = heapHi σ.
Proof.
  unfold finishHandlingForkChoice.
  cbv [bind ret runFixCanonicalChain onTx runWriteForkChoiceHashes txCommit
       GetPendingPayloadHash ClearPendingPayloadHash
       ClearUnsettledForkChoice getHd modifyHd effect]. simpl.
  destruct (fixCanonicalChain fuel headHeight (HeadBlockHash forkChoice)
              (heapTx σ)) as [[[e|] tx1]| |] eqn:Hfix; [done| |done..].
  simpl.
  destruct (WriteHeadHeaderHash tx1 (HeadBlockHash forkChoice))
    as [tx2|e] eqn:Hhead; [|done]. simpl.
  destruct (writeForkChoiceHashes forkChoice tx2) as [[canonical [e|]] tx3]
    eqn:Hptr; [done|]. simpl.
  destruct (Update s tx3 headHeight) as [tx4|e] eqn:Hup; [|done]. simpl.
  destruct useExternalTx; simpl.
  - destruct canonical; simpl.
    + intros [= <-]. exists tx1, tx2, tx3, true. simpl.
      rewrite app_nil_r. by split_and!.
    + case_bool_decide; simpl; intros [= <-];
        exists tx1, tx2, tx3, false; simpl.
      * by split_and!.
      * rewrite app_nil_r. by split_and!.
  - unfold Commit, io. simpl.
    destruct (ioFault tx4 IoCommit) as [e|]; [done|]. simpl.
    destruct canonical; simpl.
    + intros [= <-]. exists tx1, tx2, tx3, true. simpl.
      rewrite app_nil_r. by split_and!.
    + case_bool_decide; simpl; intros [= <-];
        exists tx1, tx2, tx3, false; simpl.
      * by split_and!.
      * rewrite app_nil_r. by split_and!.
Qed.

Lemma fixCanonicalLoop_frame (fuel : nat) :
  forall tx hash height err tx',
    fixCanonicalLoop fuel tx hash height = Done (err, tx') ->
    tx' = set_HeaderCanonical tx (HeaderCanonical tx').
Proof.
  induction fuel as [|fuel IH]; intros tx hash height err tx' Hrun;
    simpl in Hrun; [discriminate|].
  unfold CanonicalHash, ReadCanonicalHash, io in Hrun.
  destruct (ioFault tx (IoReadCanonicalHash height)).
  { injection Hrun as <- <-. apply set_HeaderCanonical_same. }
  case_bool_decide.
  2:{ injection Hrun as <- <-. apply set_HeaderCanonical_same. }
  unfold WriteCanonicalHash, io in Hrun.
  destruct (ioFault tx (IoWriteCanonicalHash height)).
  { injection Hrun as <- <-. apply set_HeaderCanonical_same. }
  unfold ReaderHeader, io in Hrun. simpl in Hrun.
  destruct (ioFault tx (IoReadHeader height hash)).
  { by injection Hrun as <- <-. }
  destruct (ReadHeader _ hash height) as [ancestor|].
  2:{ by injection Hrun as <- <-. }
  apply IH in Hrun. rewrite Hrun. done.
Qed.

Lemma fixCanonicalChain_frame (fuel : nat) (height : Z) (hash : Hash)
    (tx : Tx) (err : option Error) (tx' : Tx) :
  fixCanonicalChain fuel height hash tx = Done (err, tx') ->
  tx' = set_HeaderCanonical tx (HeaderCanonical tx').
Proof.
  unfold fixCanonicalChain. case_bool_decide.
  - intros [= <- <-]. apply set_HeaderCanonical_same.
  - apply fixCanonicalLoop_frame.
Qed.

(** What [writeForkChoiceHashes] leaves alone, and its two outcomes. *)
Lemma writeForkChoiceHashes_cases (forkChoice : ForkChoiceMessage)
    (tx : Tx) (canonical : bool) (err : option Error) (tx' : Tx) :
  writeForkChoiceHashes forkChoice tx = (canonical, err, tx') ->
  HeadHeaderKey tx' = HeadHeaderKey tx
  /\ HeaderCanonical tx' = HeaderCanonical tx
  /\ SyncStageProgress tx' = SyncStageProgress tx
  /\ ioFault tx' = ioFault tx
  /\ ((canonical = true
       /\ err = None
       /\ ForkchoiceHead tx' = HeadBlockHash forkChoice)
      \/ (canonical = false
          /\ tx' = tx
          /\ (SafeBlockHash forkChoice <> zeroHash
              \/ FinalizedBlockHash forkChoice <> zeroHash))).
Proof.
  unfold writeForkChoiceHashes.
  repeat (case_bool_decide || case_match);
    intros [= <- <- <-]; simpl; split_and!; auto.
Qed.


(** A [finishHandlingForkChoice] that returns nil has made the head of the
    fork choice the head header, recorded the head height as the progress
    of the stage, cleared the unsettled fork choice and, on a transaction
    of its own, committed; in a store whose headers of height 1 descend
    from the canonical block of height 0 the head is canonical at its
    height. *)
Theorem finishHandlingForkChoice_settles (fuel : nat)
    (forkChoice : ForkChoiceMessage) (headHeight : Z) (s : StageState)
    (useExternalTx : bool) σ σ' :
  finishHandlingForkChoice fuel forkChoice headHeight s useExternalTx σ
  = Done (None, σ') ->
  HeadHeaderKey (heapTx σ') = HeadBlockHash forkChoice
  /\ SyncStageProgress (heapTx σ') !! ID s = Some headHeight
  /\ unsettledForkChoice (heapHd σ') = None
  /\ (if useExternalTx then heapDb σ' = heapDb σ
      else committed (heapDb σ') = heapTx σ')
  /\ (0 < headHeight < 2 ^ 64 ->
      rootedAtGenesis (heapTx σ) ->
      default zeroHash (HeaderCanonical (heapTx σ') !! headHeight)
      = HeadBlockHash forkChoice).
Proof.
  intros Hrun. apply finishHandlingForkChoice_done in Hrun
    as (tx1 & tx2 & tx3 & canonical & Hfix & Hhead & Hptr & Hup & Hdb & Hhd
        & _).
  apply writeForkChoiceHashes_cases in Hptr as (Hk & Hc & _ & _ & _).
  unfold WriteHeadHeaderHash, io in Hhead.
  destruct (ioFault tx1 IoWriteHeadHeaderHash); [done|].
  injection Hhead as <-.
  unfold Update, SaveStageProgress, io in Hup.
  destruct (ioFault tx3 (IoSaveStageProgress (ID s))); [done|].
  injection Hup as Hup. rewrite <- Hup. simpl. split_and!.
  - by rewrite Hk.
  - apply lookup_insert_eq.
  - by rewrite Hhd.
  - rewrite Hdb. by destruct useExternalTx.
  - intros Hrange Hroot. rewrite Hc. simpl.
    unfold fixCanonicalChain in Hfix.
    rewrite bool_decide_eq_false_2 in Hfix by lia.
    apply fixCanonicalLoop_walk in Hfix
      as (_ & w & _ & Hwritten & Hkept & Hstop); [|lia|done|lia].
    destruct w as [|w].
    + destruct (Hstop eq_refl) as (a & [= <-] & Hsame).
      rewrite Z.sub_0_r in Hsame. rewrite Hkept by lia. done.
    + destruct (Hwritten 0%nat ltac:(lia)) as (a & [= <-] & _ & Hnow).
      rewrite Z.sub_0_r in Hnow. by rewrite Hnow.
Qed.

(** A [finishHandlingForkChoice] that returns an error has left the fork
    choice unsettled and the pending payload hash as it was, has sent no
    reply and has committed nothing. *)
Theorem finishHandlingForkChoice_error (fuel : nat)
    (forkChoice : ForkChoiceMessage) (headHeight : Z) (s : StageState)
    (useExternalTx : bool) σ σ' (e : Error) :
  finishHandlingForkChoice fuel forkChoice headHeight s useExternalTx σ
  = Done (Some e, σ') ->
  heapHd σ' = heapHd σ
  /\ effects σ' = effects σ
  /\ heapDb σ' = heapDb σ.
Proof.
  unfold finishHandlingForkChoice.
  cbv [bind ret runFixCanonicalChain onTx runWriteForkChoiceHashes txCommit
       GetPendingPayloadHash ClearPendingPayloadHash
       ClearUnsettledForkChoice getHd modifyHd effect]. simpl.
  destruct (fixCanonicalChain fuel headHeight (HeadBlockHash forkChoice)
              (heapTx σ)) as [[[e1|] tx1]| |] eqn:Hfix; [| |done..].
  { by intros [= <- <-]. }
  simpl.
  destruct (WriteHeadHeaderHash tx1 (HeadBlockHash forkChoice))
    as [tx2|e1] eqn:Hhead.
  2:{ by intros [= <- <-]. }
  simpl.
  destruct (writeForkChoiceHashes forkChoice tx2) as [[canonical [e1|]] tx3]
    eqn:Hptr.
  { by intros [= <- <-]. }
  simpl.
  destruct (Update s tx3 headHeight) as [tx4|e1] eqn:Hup.
  2:{ by intros [= <- <-]. }
  simpl. destruct useExternalTx; simpl.
  - destruct canonical; simpl; [done|]. by case_bool_decide.
  - unfold Commit, io. simpl.
    destruct (ioFault tx4 IoCommit) as [e1|]; simpl.
    { by intros [= <- <-]. }
    destruct canonical; simpl; [done|]. by case_bool_decide.
Qed.

(** A [finishHandlingForkChoice] that returns nil has either written the
    head pointer of the fork choice, sent no reply and kept the pending
    payload hash; or, for a fork choice with a safe or finalized hash, left
    all three pointers as they were, cleared the pending payload hash and
    sent the invalid-forkchoice reply exactly when a payload was pending.
    The head header is the head of the fork choice in both cases. *)
Theorem finishHandlingForkChoice_pointers (fuel : nat)
    (forkChoice : ForkChoiceMessage) (headHeight : Z) (s : StageState)
    (useExternalTx : bool) σ σ' :
  finishHandlingForkChoice fuel forkChoice headHeight s useExternalTx σ
  = Done (None, σ') ->
  HeadHeaderKey (heapTx σ') = HeadBlockHash forkChoice
  /\ ((ForkchoiceHead (heapTx σ') = HeadBlockHash forkChoice
       /\ effects σ' = effects σ
       /\ pendingPayloadHash (heapHd σ') = pendingPayloadHash (heapHd σ))
      \/ ((SafeBlockHash forkChoice <> zeroHash
           \/ FinalizedBlockHash forkChoice <> zeroHash)
          /\ ForkchoiceHead (heapTx σ') = ForkchoiceHead (heapTx σ)
          /\ ForkchoiceSafe (heapTx σ') = ForkchoiceSafe (heapTx σ)
          /\ ForkchoiceFinalized (heapTx σ')
             = ForkchoiceFinalized (heapTx σ)
          /\ pendingPayloadHash (heapHd σ') = zeroHash
          /\ effects σ'
             = effects σ
               ++ (if bool_decide
                        (pendingPayloadHash (heapHd σ) ≠ zeroHash)
                   then [EvPayloadStatusCh invalidForkchoice] else []))).
Proof.
  intros Hrun. apply finishHandlingForkChoice_done in Hrun
    as (tx1 & tx2 & tx3 & canonical & Hfix & Hhead & Hptr & Hup & Hdb & Hhd
        & Hev & _).
  apply fixCanonicalChain_frame in Hfix.
  apply writeForkChoiceHashes_cases in Hptr as (Hk & _ & _ & _ & Hptr).
  unfold WriteHeadHeaderHash, io in Hhead.
  destruct (ioFault tx1 IoWriteHeadHeaderHash); [done|].
  injection Hhead as <-.
  unfold Update, SaveStageProgress, io in Hup.
  destruct (ioFault tx3 (IoSaveStageProgress (ID s))); [done|].
  injection Hup as Hup. rewrite <- Hup. simpl. split; [by rewrite Hk|].
  destruct Hptr as [(-> & _ & Hwritten)|(-> & -> & Hnz)].
  - left. rewrite Hev, Hhd, app_nil_r. done.
  - right. rewrite Hev, Hhd, Hfix. simpl. by split_and!.
Qed.


(** *** The Synced interrupt *)

(** A Synced interrupt that finds a collector and returns has drained it:
    the handler reports the interrupt, the downloader is idle with no
    collector, so that the next download can be scheduled, and the
    transaction is committed when the stage owns it and left to the caller
    otherwise. *)
Theorem handleInterrupt_synced_frees_downloader (fuel : nat)
    (useExternalTx : bool) σ (interrupted : bool)
    (err : option StageError) σ' :
  handleInterrupt fuel Requests.Synced useExternalTx σ
  = Done ((interrupted, err), σ') ->
  is_Some (headersCollector (heapHd σ)) ->
  interrupted = true
  /\ posStatus (heapHd σ') = Idle
  /\ headersCollector (heapHd σ') = None
  /\ (if useExternalTx then err = None /\ heapDb σ' = heapDb σ
      else match err with
           | None => committed (heapDb σ') = heapTx σ'
           | Some _ => heapDb σ' = heapDb σ
           end)
  /\ forall id hash height tip,
       exists σ2, schedulePoSDownload id hash height tip σ' = Done (true, σ2).
Proof.
  intros Hrun [values Hc]. revert Hrun. unfold handleInterrupt.
  unfold bind at 1. unfold HeadersCollector at 1.
  cbv [bind ret getHd]. rewrite Hc.
  rewrite (verifyAndSaveDownloadedPoSHeaders_unfold _ _ _ Hc).
  destruct (Load fuel values (mkReplay zeroHash None false) σ)
    as [[[lerr r] σ1]| |] eqn:Hload; [|discriminate..].
  apply Load_frame in Hload as [Hdb _]. cbv zeta.
  match goal with
  | |- context [set_heapHd ?σ2 (set_posStatus ?hd Idle)] =>
      set (σ3 := set_heapHd σ2 (set_posStatus hd Idle))
  end.
  assert (Hσ3 : posStatus (heapHd σ3) = Idle
                /\ headersCollector (heapHd σ3) = None
                /\ heapDb σ3 = heapDb σ).
  { subst σ3. case_bool_decide; simpl; by split_and!. }
  destruct Hσ3 as (Hidle & Hnone & Hdb3). clearbody σ3.
  assert (Hnext : forall σ4 id hash height tip,
             posStatus (heapHd σ4) = Idle ->
             exists σ2,
               schedulePoSDownload id hash height tip σ4 = Done (true, σ2)).
  { intros σ4 id hash height tip Hs. unfold schedulePoSDownload.
    cbv [bind ret effect PosStatus getHd]. simpl. rewrite Hs.
    rewrite bool_decide_eq_false_2 by (by intros ?). by eexists. }
  destruct useExternalTx; simpl.
  - intros [= <- <- <-]. split_and!; auto.
  - unfold txCommit, Commit, io.
    destruct (ioFault (heapTx σ3) IoCommit) as [e|]; simpl;
      intros [= <- <- <-]; simpl; split_and!; auto.
Qed.


(** *** A new payload *)


Lemma forkingPoint_returns (header : Header) σ :
  exists r, forkingPoint header σ = Done (r, σ).
Proof.
  unfold forkingPoint. case_bool_decide; [by eexists|].
  cbv [bind ret getTx getHi].
  destruct (ReaderHeader _ _ _); by eexists.
Qed.





(** *** Starting a fork choice *)

Lemma forkingPoint_heap (header : Header) σ1 σ2 (r : result Z) :
  forkingPoint header σ1 = Done (r, σ1) ->
  heapTx σ2 = heapTx σ1 ->
  heapHi σ2 = heapHi σ1 ->
  forkingPoint header σ2 = Done (r, σ2).
Proof.
  unfold forkingPoint. case_bool_decide; [by intros [= <-]|].
  cbv [bind ret getTx getHi]. intros Hrun Htx Hhi. rewrite Htx.
  destruct (ReaderHeader _ _ _); simpl in *; rewrite ?Hhi;
    by injection Hrun as <-.
Qed.

Lemma ClearWithUnwind_cleared (fv : ForkValidator) (tx : Tx)
    (accumulator : option Accumulator) (fv' : ForkValidator)
    (evs : list Event) :
  ClearWithUnwind fv tx accumulator = Done (fv', evs) ->
  extendingFork fv' = None
  /\ extendingForkHeadHash fv' = zeroHash
  /\ sideForksBlock fv' = sideForksBlock fv
  /\ currentHeight fv' = currentHeight fv.
Proof.
  unfold ClearWithUnwind, clear.
  repeat case_match; intros [= <- <-]; done.
Qed.

(** The deferred [ClearWithUnwind] touches the fork validator and nothing
    else. *)
Lemma startHandlingForkChoice_defer (forkChoice : ForkChoiceMessage)
    (requestStatus : RequestStatus) (requestId : Z) (test : bool)
    (memoryOverlay : bool) (accumulator : option Accumulator) σ
    (replied : option Reply * option Error) σ' :
  startHandlingForkChoice forkChoice requestStatus requestId test
    memoryOverlay accumulator σ = Done (replied, σ') ->
  exists σb,
    startHandlingForkChoiceBody forkChoice requestStatus requestId test
      memoryOverlay σ = Done (replied, σb)
    /\ heapDb σ' = heapDb σb
    /\ heapTx σ' = heapTx σb
    /\ heapHd σ' = heapHd σb
    /\ heapHi σ' = heapHi σb
    /\ (if memoryOverlay
        then extendingFork (heapFv σ') = None
             /\ extendingForkHeadHash (heapFv σ') = zeroHash
             /\ sideForksBlock (heapFv σ') = sideForksBlock (heapFv σb)
             /\ currentHeight (heapFv σ') = currentHeight (heapFv σb)
             /\ exists evs, effects σ' = effects σb ++ [EvForkValidator evs]
        else σ' = σb).
Proof.
  unfold startHandlingForkChoice. unfold bind at 1.
  destruct (startHandlingForkChoiceBody _ _ _ _ _ σ) as [[r σb]| |];
    [|discriminate..].
  destruct memoryOverlay; cbv [bind ret fvClearWithUnwind].
  - destruct (ClearWithUnwind _ _ _) as [[fv' evs]| |] eqn:Hclear;
      [|discriminate..].
    intros [= <- <-]. exists σb. simpl.
    apply ClearWithUnwind_cleared in Hclear as (? & ? & ? & ?).
    split_and!; eauto.
  - intros [= <- <-]. exists σb. by split_and!.
Qed.


(** The paths of [startHandlingForkChoice] before the deferred call: the
    head is already the head header; the read of the head fails; the head
    is unknown; the head is the staged extending fork; the head needs a
    re-org. *)
Lemma startHandlingForkChoiceBody_cases (forkChoice : ForkChoiceMessage)
    (requestStatus : RequestStatus) (requestId : Z) (test : bool)
    (memoryOverlay : bool) σ (reply : option Reply) (err : option Error)
    σ' :
  startHandlingForkChoiceBody forkChoice requestStatus requestId test
    memoryOverlay σ = Done ((reply, err), σ') ->
  let head := HeadBlockHash forkChoice in
  let removed := set_effects σ (effects σ ++ [EvRemove requestId]) in
  let syncing := mkReply EngineStatus_SYNCING zeroHash None None in
  heapDb σ' = heapDb σ
  /\ heapHi σ' = heapHi σ
  /\ ((HeadHeaderKey (heapTx σ) = head
       /\ heapHd σ' = heapHd σ
       /\ heapFv σ' = heapFv σ
       /\ effects σ' = effects σ ++ [EvRemove requestId]
       /\ exists canonical,
            writeForkChoiceHashes forkChoice (heapTx σ)
            = (canonical, err, heapTx σ')
            /\ reply
               = match err with
                 | Some _ => None
                 | None =>
                     Some (if canonical
                           then mkReply EngineStatus_VALID head None None
                           else invalidForkchoice)
                 end)
      \/ (HeadHeaderKey (heapTx σ) <> head
          /\ ((exists e,
                 HeaderByHash (heapTx σ) head = Err e
                 /\ reply = None /\ err = Some e /\ σ' = removed)
              \/ (HeaderByHash (heapTx σ) head = Ok None
                  /\ reply = Some syncing
                  /\ err = None
                  /\ if test then σ' = removed
                     else exists b,
                            schedulePoSDownload requestId head 0 head
                              removed = Done (b, σ'))
              \/ exists header,
                   HeaderByHash (heapTx σ) head = Ok (Some header)
                   /\ ((memoryOverlay = true
                        /\ head = extendingForkHeadHash (heapFv σ)
                        /\ unsettledForkChoice (heapHd σ')
                           = unsettledForkChoice (heapHd σ)
                        /\ unwinds (effects σ') = unwinds (effects σ)
                        /\ replies (effects σ') = replies (effects σ)
                        /\ exists ferr tx1 evs,
                             FlushExtendingFork (heapFv σ) (heapTx σ)
                             = Done (ferr, tx1, heapFv σ', evs)
                             /\ match ferr with
                                | Some e =>
                                    reply = None /\ err = Some e
                                    /\ heapTx σ' = tx1
                                    /\ heapHd σ' = heapHd σ
                                | None =>
                                    exists canonical,
                                      writeForkChoiceHashes forkChoice tx1
                                      = (canonical, err, heapTx σ')
                                      /\ reply
                                         = match err, canonical with
                                           | None, false =>
                                               Some invalidForkchoice
                                           | _, _ => None
                                           end
                                      /\ heapHd σ'
                                         = match err, canonical with
                                           | None, true =>
                                               set_pendingPayloadHash
                                                 (heapHd σ) head
                                           | _, _ => heapHd σ
                                           end
                                end)
                       \/ (memoryOverlay
                           && bool_decide
                                (head = extendingForkHeadHash (heapFv σ))
                           = false
                           /\ heapTx σ' = heapTx σ
                           /\ heapFv σ' = heapFv σ
                           /\ exists r,
                                forkingPoint header σ = Done (r, σ)
                                /\ match r with
                                   | Err e =>
                                       reply = None /\ err = Some e
                                       /\ heapHd σ' = heapHd σ
                                       /\ unwinds (effects σ')
                                          = unwinds (effects σ)
                                       /\ replies (effects σ')
                                          = replies (effects σ)
                                   | Ok fp =>
                                       let near :=
                                         bool_decide (requestStatus = New)
                                         && bool_decide
                                              (Uint64
                                                 (Uint64 (Number header)
                                                  - fp)
                                               ≤ ShortPoSReorgThresholdBlocks)
                                       in
                                       let far :=
                                         bool_decide (requestStatus = New)
                                         && negb
                                              (bool_decide
                                                 (Uint64
                                                    (Uint64 (Number header)
                                                     - fp)
                                                  ≤ ShortPoSReorgThresholdBlocks))
                                       in
                                       reply = None /\ err = None
                                       /\ heapHd σ'
                                          = set_unsettledForkChoice
                                              (if near
                                               then set_pendingPayloadHash
                                                      (heapHd σ) head
                                               else heapHd σ)
                                              (Some (forkChoice,
                                                     Uint64
                                                       (Number header)))
                                       /\ unwinds (effects σ')
                                          = unwinds (effects σ) ++ [fp]
                                       /\ replies (effects σ')
                                          = replies (effects σ)
                                            ++ (if far then [syncing]
                                                else [])
                                   end))))).
Proof.
  intros Hrun head removed syncing. revert Hrun.
  unfold startHandlingForkChoiceBody. fold head.
  unfold bind at 1. unfold getTx at 1. unfold ReadHeadHeaderHash.
  case_bool_decide as Hhead.
  { cbv [bind ret effect runWriteForkChoiceHashes]. simpl.
    destruct (writeForkChoiceHashes forkChoice (heapTx σ))
      as [[canonical [e|]] tx'] eqn:Hptr.
    - destruct canonical; intros [= <- <- <-]; simpl;
        (split_and!; [done..|]); left; (split_and!; [done..|]);
        [by exists true|by exists false].
    - destruct canonical; intros [= <- <- <-]; simpl;
        (split_and!; [done..|]); left; (split_and!; [done..|]);
        [exists true|exists false]; (split; [done|]);
        rewrite ?Hhead; done. }
  destruct (HeaderByHash (heapTx σ) head) as [[header|]|e] eqn:Hby.
  3:{ cbv [bind ret effect]. intros [= <- <- <-].
      split_and!; [done..|]. right. split; [done|]. left. by exists e. }
  2:{ unfold bind at 1. unfold effect at 1. fold removed.
      destruct test; simpl.
      - cbv [bind ret]. intros [= <- <- <-].
        split_and!; [done..|]. right. split; [done|]. right. left. done.
      - unfold bind at 1. unfold bind at 1.
        destruct (schedulePoSDownload requestId head 0 head removed)
          as [[b σs]| |] eqn:Hs; [|discriminate..].
        cbv [bind ret]. intros [= <- <- <-].
        assert (heapDb σs = heapDb σ /\ heapHi σs = heapHi σ) as [? ?].
        { revert Hs. unfold schedulePoSDownload.
          cbv [bind ret effect PosStatus getHd SetRequestId
               SetPoSDownloaderTip SetHeaderToDownloadPoS SetPOSSync
               SetHeadersCollector SetPosStatus modifyHd]. simpl.
          case_bool_decide; by intros [= <- <-]. }
        split_and!; [done..|]. right. split; [done|]. right. left.
        split_and!; [done..|]. by exists b. }
  unfold bind at 1. unfold effect at 1. fold removed.
  unfold bind at 1. unfold getFv at 1. unfold ExtendingForkHeadHash.
  change (heapFv removed) with (heapFv σ).
  destruct (memoryOverlay
            && bool_decide (head = extendingForkHeadHash (heapFv σ)))
    eqn:Hfast.
  - apply andb_prop in Hfast as [-> Heq%bool_decide_eq_true].
    cbv [bind ret effect fvFlushExtendingFork runWriteForkChoiceHashes
         SetPendingPayloadHash modifyHd]. simpl.
    destruct (FlushExtendingFork (heapFv σ) (heapTx σ))
      as [[[[[e|] tx1] fv1] evs]| |] eqn:Hflush; [| |discriminate..].
    + intros [= <- <- <-]. simpl. split_and!; [done..|]. right.
      split; [done|]. right. right. exists header. split; [done|]. left.
      unfold unwinds, replies. rewrite !omap_app. simpl.
      rewrite !app_nil_r. split_and!; [done..|].
      exists (Some e), tx1, evs. by split_and!.
    + simpl.
      destruct (writeForkChoiceHashes forkChoice tx1)
        as [[canonical [e|]] tx'] eqn:Hptr.
      * destruct canonical; intros [= <- <- <-]; simpl;
          (split_and!; [done..|]); right; (split; [done|]); right; right;
          exists header; (split; [done|]); left;
          unfold unwinds, replies; rewrite !omap_app; simpl;
          rewrite !app_nil_r; (split_and!; [done..|]);
          exists None, tx1, evs; (split; [done|]);
          [by exists true|by exists false].
      * destruct canonical; intros [= <- <- <-]; simpl;
          (split_and!; [done..|]); right; (split; [done|]); right; right;
          exists header; (split; [done|]); left;
          unfold unwinds, replies; rewrite !omap_app; simpl;
          rewrite !app_nil_r; (split_and!; [done..|]);
          exists None, tx1, evs; (split; [done|]);
          [by exists true|by exists false].
  - unfold bind at 1. unfold effect at 1. unfold bind at 1.
    match goal with
    | |- context [forkingPoint header ?σa] =>
        destruct (forkingPoint_returns header σa) as [r Hfp];
        rewrite Hfp;
        apply (forkingPoint_heap header σa σ) in Hfp; [|done..]
    end.
    destruct r as [fp|e].
    2:{ cbv [ret]. intros [= <- <- <-]. simpl. split_and!; [done..|].
        right. split; [done|]. right. right. exists header.
        split; [done|]. right. split_and!; [done..|]. exists (Err e).
        split; [done|]. unfold unwinds, replies. rewrite !omap_app. simpl.
        rewrite !app_nil_r. by split_and!. }
    cbv [bind ret effect SetPendingPayloadHash SetUnsettledForkChoice
         modifyHd]. simpl.
    repeat case_bool_decide; simpl; intros [= <- <- <-]; simpl;
      (split_and!; [done..|]); right; (split; [done|]); right; right;
      exists header; (split; [done|]); right; (split_and!; [done..|]);
      exists (Ok fp); (split; [done|]); simpl;
      unfold unwinds, replies; rewrite !omap_app; simpl;
      rewrite ?app_nil_r; repeat case_bool_decide; simpl;
      rewrite ?app_nil_r; by split_and!.
Qed.


(** The two outcomes of [schedulePoSDownload]. *)
Lemma schedulePoSDownload_cases (id : Z) (hash : Hash) (height : Z)
    (tip : Hash) σ (b : bool) σ' :
  schedulePoSDownload id hash height tip σ = Done (b, σ') ->
  heapDb σ' = heapDb σ
  /\ heapTx σ' = heapTx σ
  /\ heapFv σ' = heapFv σ
  /\ heapHi σ' = heapHi σ
  /\ effects σ' = effects σ ++ [EvSetStatus id DataWasMissing]
  /\ if b
     then posStatus (heapHd σ) = Idle
          /\ heapHd σ'
             = set_posStatus
                 (set_headersCollector
                    (set_posSync
                       (set_headerToDownloadPoS
                          (set_posDownloaderTip
                             (set_requestId (heapHd σ) id) tip)
                          (hash, height)) true) (Some [])) Syncing
     else heapHd σ' = heapHd σ.
Proof.
  unfold schedulePoSDownload.
  cbv [bind ret effect PosStatus getHd SetRequestId SetPoSDownloaderTip
       SetHeaderToDownloadPoS SetPOSSync SetHeadersCollector SetPosStatus
       modifyHd]. simpl.
  case_bool_decide as Hidle; intros [= <- <-]; simpl; by split_and!.
Qed.

Lemma FlushExtendingFork_frame (fv : ForkValidator) (tx : Tx)
    (err : option Error) (tx' : Tx) (fv' : ForkValidator)
    (evs : list Event) :
  FlushExtendingFork fv tx = Done (err, tx', fv', evs) ->
  sideForksBlock fv' = sideForksBlock fv
  /\ currentHeight fv' = currentHeight fv.
Proof.
  unfold FlushExtendingFork. repeat case_match; by intros [= <- <- <- <-].
Qed.

(** With the memory overlay, [startHandlingForkChoice] leaves the fork
    validator without an extending fork on every path, and with its
    side-fork cache and current height as they were. *)
Theorem startHandlingForkChoice_discards_overlay
    (forkChoice : ForkChoiceMessage) (requestStatus : RequestStatus)
    (requestId : Z) (test : bool) (accumulator : option Accumulator) σ
    (replied : option Reply * option Error) σ' :
  startHandlingForkChoice forkChoice requestStatus requestId test true
    accumulator σ = Done (replied, σ') ->
  extendingFork (heapFv σ') = None
  /\ extendingForkHeadHash (heapFv σ') = zeroHash
  /\ sideForksBlock (heapFv σ') = sideForksBlock (heapFv σ)
  /\ currentHeight (heapFv σ') = currentHeight (heapFv σ).
Proof.
  intros Hrun. apply startHandlingForkChoice_defer in Hrun
    as (σb & Hbody & _ & _ & _ & _ & Hnone & Hzero & Hside & Hheight & _).
  split_and!; [done..| |]; rewrite ?Hside, ?Hheight;
    destruct replied as [reply err];
    apply startHandlingForkChoiceBody_cases in Hbody
      as (_ & _ & [(_ & _ & -> & _)|(_ & Hbody)]); try done;
    destruct Hbody as [(e & _ & _ & _ & ->)|[(_ & _ & _ & Hs)|Hbody]];
    try done.
  - destruct test; [by subst|].
    destruct Hs as [b Hs]. apply schedulePoSDownload_cases in Hs
      as (_ & _ & -> & _). done.
  - destruct Hbody as (header & _ & [Hfast|(_ & _ & -> & _)]); [|done].
    destruct Hfast as (_ & _ & _ & _ & _ & ferr & tx1 & evs & Hflush & _).
    by apply FlushExtendingFork_frame in Hflush as [-> _].
  - destruct test; [by subst|].
    destruct Hs as [b Hs]. apply schedulePoSDownload_cases in Hs
      as (_ & _ & -> & _). done.
  - destruct Hbody as (header & _ & [Hfast|(_ & _ & -> & _)]); [|done].
    destruct Hfast as (_ & _ & _ & _ & _ & ferr & tx1 & evs & Hflush & _).
    by apply FlushExtendingFork_frame in Hflush as [_ ->].
Qed.


(** [startHandlingForkChoice] asks for an unwind exactly when it stores
    the fork choice as unsettled: on every other path neither happens, and
    on the re-org path the unwind point is the forking point of the head,
    the fork choice is stored with the height of its head, the reply is
    left to the finishing call and the transaction is not written. *)
Theorem startHandlingForkChoice_unwind_unsettled
    (forkChoice : ForkChoiceMessage) (requestStatus : RequestStatus)
    (requestId : Z) (test : bool) (memoryOverlay : bool)
    (accumulator : option Accumulator) σ (reply : option Reply)
    (err : option Error) σ' :
  startHandlingForkChoice forkChoice requestStatus requestId test
    memoryOverlay accumulator σ = Done ((reply, err), σ') ->
  (unwinds (effects σ') = unwinds (effects σ)
   /\ unsettledForkChoice (heapHd σ') = unsettledForkChoice (heapHd σ))
  \/ exists header fp,
       HeaderByHash (heapTx σ) (HeadBlockHash forkChoice)
       = Ok (Some header)
       /\ forkingPoint header σ = Done (Ok fp, σ)
       /\ unwinds (effects σ') = unwinds (effects σ) ++ [fp]
       /\ unsettledForkChoice (heapHd σ')
          = Some (forkChoice, Uint64 (Number header))
       /\ reply = None
       /\ err = None
       /\ heapTx σ' = heapTx σ.
Proof.
  intros Hrun. apply startHandlingForkChoice_defer in Hrun
    as (σb & Hbody & _ & Htx & Hhd & _ & Hdefer).
  assert (Hun : unwinds (effects σ') = unwinds (effects σb)).
  { destruct memoryOverlay; [|by subst].
    destruct Hdefer as (_ & _ & _ & _ & evs & ->).
    unfold unwinds. rewrite omap_app. simpl. by rewrite app_nil_r. }
  rewrite Hun, Hhd, Htx. clear Hun Hhd Htx Hdefer.
  apply startHandlingForkChoiceBody_cases in Hbody
    as (_ & _ & [(_ & -> & _ & -> & _)|(_ & Hbody)]).
  { left. unfold unwinds. rewrite omap_app. simpl.
    by rewrite app_nil_r. }
  destruct Hbody as [(e & _ & _ & _ & ->)|[(_ & _ & _ & Hs)|Hbody]].
  - left. unfold unwinds. simpl. rewrite omap_app. simpl.
    by rewrite app_nil_r.
  - left. destruct test.
    + subst. unfold unwinds. simpl. rewrite omap_app. simpl.
      by rewrite app_nil_r.
    + destruct Hs as [b Hs]. apply schedulePoSDownload_cases in Hs
        as (_ & _ & _ & _ & -> & Hhd). simpl.
      unfold unwinds. rewrite !omap_app. simpl. rewrite !app_nil_r.
      split; [done|]. destruct b; [destruct Hhd as [_ ->]|rewrite Hhd];
        done.
  - destruct Hbody as (header & Hby & [Hfast|Hreorg]).
    + left. by destruct Hfast as (_ & _ & -> & -> & _).
    + destruct Hreorg as (_ & Htx & _ & [fp|e] & Hfp & Hr).
      * right. destruct Hr as (-> & -> & -> & -> & _).
        exists header, fp. by split_and!.
      * left. by destruct Hr as (_ & _ & -> & -> & _).
Qed.

(** [startHandlingForkChoice] schedules a download only for an unknown
    head outside test mode with the downloader idle; the download is then
    towards the head at height 0 with the head as its tip and the reply is
    SYNCING.  On every other run the downloader changes at most in its
    pending payload hash and its unsettled fork choice. *)
Theorem startHandlingForkChoice_download
    (forkChoice : ForkChoiceMessage) (requestStatus : RequestStatus)
    (requestId : Z) (test : bool) (memoryOverlay : bool)
    (accumulator : option Accumulator) σ (reply : option Reply)
    (err : option Error) σ' :
  startHandlingForkChoice forkChoice requestStatus requestId test
    memoryOverlay accumulator σ = Done ((reply, err), σ') ->
  (exists pending unsettled,
     heapHd σ'
     = set_unsettledForkChoice (set_pendingPayloadHash (heapHd σ) pending)
         unsettled)
  \/ (test = false
      /\ HeaderByHash (heapTx σ) (HeadBlockHash forkChoice) = Ok None
      /\ posStatus (heapHd σ) = Idle
      /\ reply = Some (mkReply EngineStatus_SYNCING zeroHash None None)
      /\ err = None
      /\ posStatus (heapHd σ') = Syncing
      /\ Headerdownload.requestId (heapHd σ') = requestId
      /\ posDownloaderTip (heapHd σ') = HeadBlockHash forkChoice
      /\ headerToDownloadPoS (heapHd σ') = (HeadBlockHash forkChoice, 0)
      /\ headersCollector (heapHd σ') = Some []).
Proof.
  intros Hrun. apply startHandlingForkChoice_defer in Hrun
    as (σb & Hbody & _ & _ & Hhd & _ & _).
  rewrite Hhd. clear Hhd.
  assert (Hsame : forall hd : PosDownload,
             exists pending unsettled,
               hd = set_unsettledForkChoice
                      (set_pendingPayloadHash hd pending) unsettled).
  { intros hd. exists (pendingPayloadHash hd), (unsettledForkChoice hd).
    by destruct hd. }
  apply startHandlingForkChoiceBody_cases in Hbody
    as (_ & _ & [(_ & -> & _)|(_ & Hbody)]); [by left|].
  destruct Hbody as [(e & _ & _ & _ & ->)|[(Hby & -> & -> & Hs)|Hbody]].
  - by left.
  - destruct test; [subst; by left|].
    destruct Hs as [[] Hs]; apply schedulePoSDownload_cases in Hs
      as (_ & _ & _ & _ & _ & Hhd).
    + right. destruct Hhd as [Hidle ->]. by split_and!.
    + left. rewrite Hhd. apply Hsame.
  - left. destruct Hbody as (header & _ & [Hfast|Hreorg]).
    + destruct Hfast as (_ & _ & Hun & _ & _ & ferr & tx1 & evs & _ & Hf).
      destruct ferr as [e|].
      * destruct Hf as (_ & _ & _ & ->). apply Hsame.
      * destruct Hf as (canonical & _ & _ & ->).
        destruct err, canonical; try apply Hsame.
        exists (HeadBlockHash forkChoice),
          (unsettledForkChoice (heapHd σ)).
        by destruct (heapHd σ).
    + destruct Hreorg as (_ & _ & _ & [fp|e] & _ & Hr).
      * destruct Hr as (_ & _ & -> & _). case_match.
        -- by eexists _, _.
        -- eexists (pendingPayloadHash (heapHd σ)), _.
           by destruct (heapHd σ).
      * destruct Hr as (_ & _ & -> & _). apply Hsame.
Qed.

(** [startHandlingForkChoice] answers VALID only when the head of the fork
    choice is already the head header and the forkchoice pointers have
    been written: the reply then names that head as the latest valid hash,
    no unwind is asked for, the downloader is as it was and the
    transaction differs in nothing that [writeForkChoiceHashes] leaves
    alone. *)
Theorem startHandlingForkChoice_valid
    (forkChoice : ForkChoiceMessage) (requestStatus : RequestStatus)
    (requestId : Z) (test : bool) (memoryOverlay : bool)
    (accumulator : option Accumulator) σ (reply : Reply)
    (err : option Error) σ' :
  startHandlingForkChoice forkChoice requestStatus requestId test
    memoryOverlay accumulator σ = Done ((Some reply, err), σ') ->
  Status reply = EngineStatus_VALID ->
  CriticalError reply = None ->
  err = None
  /\ HeadHeaderKey (heapTx σ) = HeadBlockHash forkChoice
  /\ LatestValidHash reply = HeadBlockHash forkChoice
  /\ ForkchoiceHead (heapTx σ') = HeadBlockHash forkChoice
  /\ HeadHeaderKey (heapTx σ') = HeadHeaderKey (heapTx σ)
  /\ HeaderCanonical (heapTx σ') = HeaderCanonical (heapTx σ)
  /\ heapHd σ' = heapHd σ
  /\ unwinds (effects σ') = unwinds (effects σ).
Proof.
  intros Hrun Hstatus Hcritical.
  apply startHandlingForkChoice_defer in Hrun
    as (σb & Hbody & _ & Htx & Hhd & _ & Hdefer).
  assert (Hun : unwinds (effects σ') = unwinds (effects σb)).
  { destruct memoryOverlay; [|by subst].
    destruct Hdefer as (_ & _ & _ & _ & evs & ->).
    unfold unwinds. rewrite omap_app. simpl. by rewrite app_nil_r. }
  rewrite Hun, Hhd, Htx. clear Hun Hhd Htx Hdefer.
  apply startHandlingForkChoiceBody_cases in Hbody
    as (_ & _ & [(Hhead & -> & _ & -> & canonical & Hptr & Hreply)
                |(_ & Hbody)]).
  { destruct err as [e|]; [done|]. injection Hreply as ->.
    apply writeForkChoiceHashes_cases in Hptr
      as (Hk & Hc & _ & _ & [(-> & _ & Hwritten)|(-> & _)]); [|done].
    split_and!; try done.
    unfold unwinds. rewrite omap_app. simpl. by rewrite app_nil_r. }
  exfalso.
  destruct Hbody as [(e & _ & ? & _)|[(_ & [= ->] & _)|Hbody]];
    [done|done|].
  destruct Hbody as (header & _ & [Hfast|Hreorg]).
  - destruct Hfast as (_ & _ & _ & _ & _ & ferr & tx1 & evs & _ & Hf).
    destruct ferr as [e|]; [by destruct Hf as (? & _)|].
    destruct Hf as (canonical & _ & Hreply & _).
    destruct err, canonical; try done. by injection Hreply as ->.
  - destruct Hreorg as (_ & _ & _ & [fp|e] & _ & Hr);
      by destruct Hr as (? & _).
Qed.


End Facts.

Lemma schedulePoSDownload_exclusive_witness :
  let σ1 := set_heapHd
              (set_effects restHeap [EvSetStatus 7 DataWasMissing])
              {| posStatus := Syncing; requestId := 7;
                 posDownloaderTip := 1010;
                 headerToDownloadPoS := (1000, 100); posSync := true;
                 headersCollector := Some []; badPoSHeaders := ∅;
                 pendingPayloadHash := zeroHash;
                 unsettledForkChoice := None; shutdownClosed := false |} in
  posStatus (heapHd σ1) = Syncing
  /\ requestId (heapHd σ1) = 7
  /\ posDownloaderTip (heapHd σ1) = 1010
  /\ headersCollector (heapHd σ1) = Some []
  /\ forall id' hash' height' tip',
       schedulePoSDownload id' hash' height' tip' σ1
       = Done (false,
               set_effects σ1
                 (effects σ1 ++ [EvSetStatus id' DataWasMissing])).
Proof.
  apply (schedulePoSDownload_exclusive restHeap _ 7 1000 100 1010).
  vm_compute. reflexivity.
Defined.

Lemma replay_accepted_witness :
  let σ := downloaded [Ok headerX; Ok headerY] in
  let σ' := heapAfter (verifyAndSaveDownloadedPoSHeaders 10 σ) σ in
  exists hs,
    [Ok headerX; Ok headerY] = Ok <$> hs
    /\ fedHeaders (effects σ') = fedHeaders (effects σ) ++ hs
    /\ bad σ' = bad σ
    /\ posStatus (heapHd σ') = Idle
    /\ headersCollector (heapHd σ') = None.
Proof.
  apply (replay_accepted 10
           (downloaded [Ok headerX; Ok headerY])).
  - reflexivity.
  - vm_compute. reflexivity.
  - vm_compute. reflexivity.
Defined.

Lemma replay_poisons_descendants_witness :
  let σ := downloaded [Ok headerX; Ok badY; Ok headerZ] in
  let σ' := heapAfter (verifyAndSaveDownloadedPoSHeaders 10 σ) σ in
  exists (k : nat) (f : Header),
    (k <= length [headerX])%nat
    /\ ([headerX] ++ [badY]) !! k = Some f
    /\ fedHeaders (effects σ') = fedHeaders (effects σ) ++ take k [headerX]
    /\ bad σ' !! posDownloaderTip (heapHd σ) = Some (ParentHash f)
    /\ forall x, x ∈ badY :: [headerZ] ->
         bad σ' !! HeaderHash x = Some (ParentHash f).
Proof.
  apply (replay_poisons_descendants 10
           (downloaded [Ok headerX; Ok badY; Ok headerZ]) _
           [headerX] badY [headerZ]).
  - reflexivity.
  - vm_compute. reflexivity.
  - apply (bool_decide_unpack _). vm_compute. exact I.
  - vm_compute. discriminate.
  - vm_compute. reflexivity.
  - apply (bool_decide_unpack _). vm_compute. exact I.
Defined.

Lemma replay_from_pow_skips_validation_witness :
  let σ := downloaded [Ok powHeader; Ok headerZ] in
  exists σ',
    verifyAndSaveDownloadedPoSHeaders 0 σ = Done (tt, σ')
    /\ heapFv σ' = heapFv σ
    /\ validatorCalls (effects σ') = validatorCalls (effects σ).
Proof.
  apply (replay_from_pow_skips_validation 0
           (downloaded [Ok powHeader; Ok headerZ]) powHeader [Ok headerZ]).
  - reflexivity.
  - vm_compute. discriminate.
Defined.

Lemma finishHandlingForkChoice_settles_witness :
  let σ' := heapAfter
              (finishHandlingForkChoice 5 headY 100 headersState false
                 forkedHeap) forkedHeap in
  HeadHeaderKey (heapTx σ') = 2100
  /\ SyncStageProgress (heapTx σ') !! StageHeaders = Some 100
  /\ unsettledForkChoice (heapHd σ') = None
  /\ committed (heapDb σ') = heapTx σ'
  /\ (0 < 100 < 2 ^ 64 ->
      rootedAtGenesis (heapTx forkedHeap) ->
      default zeroHash (HeaderCanonical (heapTx σ') !! 100) = 2100).
Proof.
  apply (finishHandlingForkChoice_settles 5 headY 100 headersState false
           forkedHeap).
  vm_compute. reflexivity.
Defined.

Lemma finishHandlingForkChoice_error_witness :
  let σ' := heapAfter
              (finishHandlingForkChoice 5 headY 100 headersState false
                 refusingHeap) refusingHeap in
  heapHd σ' = heapHd refusingHeap
  /\ effects σ' = effects refusingHeap
  /\ heapDb σ' = heapDb refusingHeap.
Proof.
  apply (finishHandlingForkChoice_error 5 headY 100 headersState false
           refusingHeap _ (ErrIO 5)).
  vm_compute. reflexivity.
Defined.

Lemma finishHandlingForkChoice_pointers_witness :
  let σ := pendingHeap in
  let σ' := heapAfter
              (finishHandlingForkChoice 5 headYSafeStray 100 headersState
                 true σ) σ in
  HeadHeaderKey (heapTx σ') = HeadBlockHash headYSafeStray
  /\ ((ForkchoiceHead (heapTx σ') = HeadBlockHash headYSafeStray
       /\ effects σ' = effects σ
       /\ pendingPayloadHash (heapHd σ') = pendingPayloadHash (heapHd σ))
      \/ ((SafeBlockHash headYSafeStray <> zeroHash
           \/ FinalizedBlockHash headYSafeStray <> zeroHash)
          /\ ForkchoiceHead (heapTx σ') = ForkchoiceHead (heapTx σ)
          /\ ForkchoiceSafe (heapTx σ') = ForkchoiceSafe (heapTx σ)
          /\ ForkchoiceFinalized (heapTx σ')
             = ForkchoiceFinalized (heapTx σ)
          /\ pendingPayloadHash (heapHd σ') = zeroHash
          /\ effects σ'
             = effects σ
               ++ (if bool_decide
                        (pendingPayloadHash (heapHd σ) ≠ zeroHash)
                   then [EvPayloadStatusCh invalidForkchoice] else []))).
Proof.
  apply (finishHandlingForkChoice_pointers 5 headYSafeStray 100
           headersState true pendingHeap).
  vm_compute. reflexivity.
Defined.

Lemma handleInterrupt_synced_frees_downloader_witness :
  let σ := downloaded [Ok headerX; Ok headerY] in
  let σ' := heapAfter (handleInterrupt 10 Requests.Synced false σ) σ in
  true = true
  /\ posStatus (heapHd σ') = Idle
  /\ headersCollector (heapHd σ') = None
  /\ committed (heapDb σ') = heapTx σ'
  /\ forall id hash height tip,
       exists σ2, schedulePoSDownload id hash height tip σ' = Done (true, σ2).
Proof.
  apply (handleInterrupt_synced_frees_downloader 10 false
           (downloaded [Ok headerX; Ok headerY]) true None).
  - vm_compute. reflexivity.
  - apply (bool_decide_unpack _). vm_compute. exact I.
Defined.


Lemma startHandlingForkChoice_discards_overlay_witness :
  let σ' := heapAfter
              (startHandlingForkChoice headB New 7 false true
                 (Some TxPoolAccumulator) stagedHeap) stagedHeap in
  extendingFork (heapFv σ') = None
  /\ extendingForkHeadHash (heapFv σ') = zeroHash
  /\ sideForksBlock (heapFv σ') = sideForksBlock (heapFv stagedHeap)
  /\ currentHeight (heapFv σ') = currentHeight (heapFv stagedHeap).
Proof.
  apply (startHandlingForkChoice_discards_overlay headB New 7 false
           (Some TxPoolAccumulator) stagedHeap (None, None)).
  vm_compute. reflexivity.
Defined.

Lemma startHandlingForkChoice_unwind_unsettled_witness :
  let σ := knownForkHeap in
  let σ' := heapAfter
              (startHandlingForkChoice headY New 7 false false None σ) σ in
  (unwinds (effects σ') = unwinds (effects σ)
   /\ unsettledForkChoice (heapHd σ') = unsettledForkChoice (heapHd σ))
  \/ exists header fp,
       HeaderByHash (heapTx σ) (HeadBlockHash headY) = Ok (Some header)
       /\ forkingPoint header σ = Done (Ok fp, σ)
       /\ unwinds (effects σ') = unwinds (effects σ) ++ [fp]
       /\ unsettledForkChoice (heapHd σ')
          = Some (headY, Uint64 (Number header))
       /\ @None Reply = None
       /\ @None Error = None
       /\ heapTx σ' = heapTx σ.
Proof.
  apply (startHandlingForkChoice_unwind_unsettled headY New 7 false false
           None knownForkHeap None None).
  vm_compute. reflexivity.
Defined.

Lemma startHandlingForkChoice_download_witness :
  let σ := restHeap in
  let reply := Some (mkReply EngineStatus_SYNCING zeroHash None None) in
  let σ' := heapAfter
              (startHandlingForkChoice headUnknown New 7 false false None σ)
              σ in
  (exists pending unsettled,
     heapHd σ'
     = set_unsettledForkChoice (set_pendingPayloadHash (heapHd σ) pending)
         unsettled)
  \/ (false = false
      /\ HeaderByHash (heapTx σ) (HeadBlockHash headUnknown) = Ok None
      /\ posStatus (heapHd σ) = Idle
      /\ reply = Some (mkReply EngineStatus_SYNCING zeroHash None None)
      /\ @None Error = None
      /\ posStatus (heapHd σ') = Syncing
      /\ requestId (heapHd σ') = 7
      /\ posDownloaderTip (heapHd σ') = HeadBlockHash headUnknown
      /\ headerToDownloadPoS (heapHd σ') = (HeadBlockHash headUnknown, 0)
      /\ headersCollector (heapHd σ') = Some []).
Proof.
  apply (startHandlingForkChoice_download headUnknown New 7 false false
           None restHeap
           (Some (mkReply EngineStatus_SYNCING zeroHash None None)) None).
  vm_compute. reflexivity.
Defined.

Lemma startHandlingForkChoice_valid_witness :
  let σ := restHeap in
  let reply := mkReply EngineStatus_VALID 1000 None None in
  let σ' := heapAfter
              (startHandlingForkChoice headA New 7 false false None σ) σ in
  @None Error = None
  /\ HeadHeaderKey (heapTx σ) = HeadBlockHash headA
  /\ LatestValidHash reply = HeadBlockHash headA
  /\ ForkchoiceHead (heapTx σ') = HeadBlockHash headA
  /\ HeadHeaderKey (heapTx σ') = HeadHeaderKey (heapTx σ)
  /\ HeaderCanonical (heapTx σ') = HeaderCanonical (heapTx σ)
  /\ heapHd σ' = heapHd σ
  /\ unwinds (effects σ') = unwinds (effects σ).
Proof.
  apply (startHandlingForkChoice_valid headA New 7 false false None
           restHeap (mkReply EngineStatus_VALID 1000 None None) None).
  - vm_compute. reflexivity.
  - reflexivity.
  - reflexivity.
Defined.

End StageHeadersPoSFacts.
